(** * automanifest: [generate_manifest.py]

    A shallow embedding of the manifest generator and the properties of
    its specification.  The program walks four fixed sub-directories of a
    base directory, hashes every file with SHA-256, and writes the records
    to [<dir>/manifest.json].

    Python strings are [list ascii] (UTF-8 code units: the separators the
    program inspects, [/] and [\], are single code units and never occur
    inside a multi-byte sequence), file contents are [list byte], integers
    are [Z].  The operating system is a tree of directories and regular
    files with a working directory; [os.path] is [posixpath].

    What the model leaves out: symbolic links, directories that cannot
    be listed, and a write that fails after the file was opened, as
    [json.dump] does on a file name that is not UTF-8. *)

From Stdlib Require Import Strings.Ascii Strings.String Strings.Byte.
From Stdlib Require Import List ZArith Lia Bool Arith.
From Stdlib Require Import Permutation.
From Stdlib Require Import Floats.PrimFloat.
From Stdlib Require Import Numbers.DecimalString.
Import ListNotations.

Set Implicit Arguments.
Set Warnings "-register-all,-via-type-mismatch,-via-type-remapping,-abstract-large-number".

(** ** Strings *)

Definition str := list ascii.

(** String literals denote [str] values: a literal is read as the list
    of its characters. *)
Inductive literal := LNil | LCons (c : ascii) (s : literal).

Fixpoint literal_of_bytes (l : list byte) : literal :=
  match l with
  | [] => LNil
  | b :: l' => LCons (ascii_of_byte b) (literal_of_bytes l')
  end.

Fixpoint bytes_of_literal (s : literal) : list byte :=
  match s with
  | LNil => []
  | LCons c s' => byte_of_ascii c :: bytes_of_literal s'
  end.

Declare Scope str_scope.
Delimit Scope str_scope with str.
String Notation str literal_of_bytes bytes_of_literal
  (via literal mapping [[nil] => LNil, [cons] => LCons]) : str_scope.
Open Scope str_scope.

Definition str_eqb (a b : str) : bool :=
  if list_eq_dec ascii_dec a b then true else false.

(** ** SHA-256 (FIPS 180-4), the digest behind [hashlib.sha256] *)

Module SHA256.

Local Open Scope Z_scope.

(** 32-bit words are [Z] in [0, 2^32); every operation that can leave the
    range is reduced again. *)
Definition wrap (x : Z) : Z := x mod 2 ^ 32.

Definition add32 (x y : Z) : Z := wrap (x + y).

Definition rotr (n x : Z) : Z :=
  Z.lor (Z.shiftr x n) (wrap (Z.shiftl x (32 - n))).

Definition shr (n x : Z) : Z := Z.shiftr x n.

Definition not32 (x : Z) : Z := Z.lxor x (2 ^ 32 - 1).

Definition Ch (x y z : Z) : Z := Z.lxor (Z.land x y) (Z.land (not32 x) z).

Definition Maj (x y z : Z) : Z :=
  Z.lxor (Z.lxor (Z.land x y) (Z.land x z)) (Z.land y z).

Definition bsig0 (x : Z) : Z := Z.lxor (Z.lxor (rotr 2 x) (rotr 13 x)) (rotr 22 x).
Definition bsig1 (x : Z) : Z := Z.lxor (Z.lxor (rotr 6 x) (rotr 11 x)) (rotr 25 x).
Definition ssig0 (x : Z) : Z := Z.lxor (Z.lxor (rotr 7 x) (rotr 18 x)) (shr 3 x).
Definition ssig1 (x : Z) : Z := Z.lxor (Z.lxor (rotr 17 x) (rotr 19 x)) (shr 10 x).

(** The constants are the leading 32 bits of the fractional parts of the
    square roots (initial hash value) and cube roots (round constants) of
    the first primes; they are computed here rather than tabulated. *)
Definition primes64 : list Z :=
  [2; 3; 5; 7; 11; 13; 17; 19; 23; 29; 31; 37; 41; 43; 47; 53;
   59; 61; 67; 71; 73; 79; 83; 89; 97; 101; 103; 107; 109; 113; 127; 131;
   137; 139; 149; 151; 157; 163; 167; 173; 179; 181; 191; 193; 197; 199; 211; 223;
   227; 229; 233; 239; 241; 251; 257; 263; 269; 271; 277; 281; 283; 293; 307; 311].

(** Integer cube root by bisection on the bits, from bit [k-1] down. *)
Fixpoint icbrt_bits (k : nat) (n acc : Z) : Z :=
  match k with
  | O => acc
  | S k' =>
      let c := acc + 2 ^ Z.of_nat k' in
      icbrt_bits k' n (if c * c * c <=? n then c else acc)
  end.

Definition frac_sqrt32 (p : Z) : Z := wrap (Z.sqrt (p * 2 ^ 64)).
Definition frac_cbrt32 (p : Z) : Z := wrap (icbrt_bits 40 (p * 2 ^ 96) 0).

Definition H0 : list Z := Eval vm_compute in map frac_sqrt32 (firstn 8 primes64).
Definition K : list Z := Eval vm_compute in map frac_cbrt32 primes64.

Definition byteZ (b : byte) : Z := Z.of_N (Byte.to_N b).

(** Big-endian 32-bit words of a block. *)
Fixpoint words_of (bs : list byte) : list Z :=
  match bs with
  | b0 :: b1 :: b2 :: b3 :: rest =>
      (byteZ b0 * 2 ^ 24 + byteZ b1 * 2 ^ 16 + byteZ b2 * 2 ^ 8 + byteZ b3)
        :: words_of rest
  | _ => []
  end.

(** Message schedule, most recent word first: [extend n rw] adds [n]
    words to the reversed schedule [rw]. *)
Fixpoint extend (n : nat) (rw : list Z) : list Z :=
  match n with
  | O => rw
  | S n' =>
      let w := add32 (add32 (ssig1 (nth 1 rw 0)) (nth 6 rw 0))
                     (add32 (ssig0 (nth 14 rw 0)) (nth 15 rw 0)) in
      extend n' (w :: rw)
  end.

Definition schedule (block : list byte) : list Z :=
  rev (extend 48 (rev (words_of block))).

Record regs := Regs { ra : Z; rb : Z; rc : Z; rd : Z; re : Z; rf : Z; rg : Z; rh : Z }.

Definition round (r : regs) (kw : Z * Z) : regs :=
  let t1 := add32 (add32 (add32 (rh r) (bsig1 (re r)))
                         (add32 (Ch (re r) (rf r) (rg r)) (fst kw))) (snd kw) in
  let t2 := add32 (bsig0 (ra r)) (Maj (ra r) (rb r) (rc r)) in
  Regs (add32 t1 t2) (ra r) (rb r) (rc r) (add32 (rd r) t1) (re r) (rf r) (rg r).

Definition regs_of (h : list Z) : regs :=
  Regs (nth 0 h 0) (nth 1 h 0) (nth 2 h 0) (nth 3 h 0)
       (nth 4 h 0) (nth 5 h 0) (nth 6 h 0) (nth 7 h 0).

Definition list_of (r : regs) : list Z :=
  [ra r; rb r; rc r; rd r; re r; rf r; rg r; rh r].

Definition compress (h : list Z) (block : list byte) : list Z :=
  let r := fold_left round (combine K (schedule block)) (regs_of h) in
  map (fun p => add32 (fst p) (snd p)) (combine h (list_of r)).

(** The accumulator behind a [hashlib.sha256()] object: the chaining
    value, the bytes of the block not yet complete, and the number of
    bytes absorbed so far. *)
Record hasher := Hasher { chain : list Z; pending : list byte; total : Z }.

Definition new : hasher := Hasher H0 [] 0.

Definition absorb (h : hasher) (b : byte) : hasher :=
  let p := pending h ++ [b] in
  if Nat.eqb (length p) 64
  then Hasher (compress (chain h) p) [] (total h + 1)
  else Hasher (chain h) p (total h + 1).

(** [h.update(chunk)] *)
Definition update (h : hasher) (chunk : list byte) : hasher :=
  fold_left absorb chunk h.

Definition byte_of (z : Z) : byte :=
  match Byte.of_N (Z.to_N (z mod 256)) with Some b => b | None => x00 end.

Definition be_bytes (n : nat) (z : Z) : list byte :=
  map (fun i => byte_of (Z.shiftr z (8 * Z.of_nat i))) (rev (seq 0 n)).

(** Padding: a single 1 bit, zeros up to 56 mod 64, the bit length on 64
    bits. *)
Definition padding (h : hasher) : list byte :=
  let used := length (pending h) in
  let zeros := if Nat.ltb used 56 then (55 - used)%nat else (119 - used)%nat in
  x80 :: repeat x00 zeros ++ be_bytes 8 ((8 * total h) mod 2 ^ 64).

(** [h.digest()]: the accumulator itself is not changed. *)
Definition digest (h : hasher) : list byte :=
  flat_map (be_bytes 4) (chain (fold_left absorb (padding h) h)).

Definition hex_digit (z : Z) : ascii :=
  nth (Z.to_nat z) "0123456789abcdef" "0"%char.

Definition hex_of_byte (b : byte) : str :=
  [hex_digit (byteZ b / 16); hex_digit (byteZ b mod 16)].

(** [h.hexdigest()] *)
Definition hexdigest (h : hasher) : str := flat_map hex_of_byte (digest h).

(** The digest of a whole byte string in one pass:
    [hashlib.sha256(data).hexdigest()]. *)
Definition sha256_hex (data : list byte) : str := hexdigest (update new data).

End SHA256.

(** ** Python values

    The values [json.load] produces and [json.dump] accepts.  A dict keeps
    its items in insertion order; [json.load] leaves one item per key. *)

Inductive json :=
| JNull
| JBool (b : bool)
| JInt (z : Z)
| JFloat (f : float)
| JString (s : str)
| JList (items : list json)
| JObject (items : list (str * json)).

Fixpoint assoc {A : Type} (k : str) (l : list (str * A)) : option A :=
  match l with
  | [] => None
  | (k', v) :: l' => if str_eqb k k' then Some v else assoc k l'
  end.

(** [bool(v)] *)
Definition truthy (v : json) : bool :=
  match v with
  | JNull => false
  | JBool b => b
  | JInt z => negb (Z.eqb z 0)
  | JFloat f => negb (PrimFloat.eqb f 0%float)
  | JString s => match s with [] => false | _ => true end
  | JList l => match l with [] => false | _ => true end
  | JObject l => match l with [] => false | _ => true end
  end.

(** [a or b] *)
Definition py_or (a b : json) : json := if truthy a then a else b.

(** [needle in hay] on strings: substring test. *)
Fixpoint starts_with (p s : str) : bool :=
  match p, s with
  | [], _ => true
  | _ :: _, [] => false
  | a :: p', b :: s' => if ascii_dec a b then starts_with p' s' else false
  end.

Fixpoint substring (needle hay : str) : bool :=
  starts_with needle hay ||
  match hay with
  | [] => false
  | _ :: hay' => substring needle hay'
  end.

(** ** Exceptions and outcomes *)

Inductive errno := ENOENT | ENOTDIR | EISDIR | EEXIST | EACCES | EIO.

(** [IOError] is an alias of [OSError]; [FileNotFoundError],
    [PermissionError] and the like are its subclasses, told apart here
    by the error number. *)
Inductive exn :=
| OSError (e : errno)
| TypeError
| KeyError
| AttributeError
| ValueError
| JSONDecodeError.

Definition IOError := OSError.

(** How a call ends: with a value, with an exception under way, with
    [sys.exit(code)], or cut off because the fuel of a loop ran out (shown
    below never to happen). *)
Inductive res (A : Type) :=
| Ok (a : A)
| Raise (e : exn)
| Exit (code : Z)
| OutOfFuel.

Arguments Ok {A} a.
Arguments Raise {A} e.
Arguments Exit {A} code.
Arguments OutOfFuel {A}.

(** ** The file system *)

(** What goes wrong when a file is read: nothing, [open] fails, or the
    [k]-th call of [read] on an open handle fails (counting from 0). *)
Inductive fault := NoFault | OpenFails | ReadFails (k : nat).

Inductive node :=
| File (content : list byte) (flt : fault)
| Dir (entries : list (str * node)).

(** The tree from [/] and the working directory as the names from [/].
    The tree holds directories and regular files; symbolic links are not
    part of the model. *)
Record fsys := FS { root : node; cwd : list str }.

Fixpoint get (n : node) (comps : list str) : option node :=
  match comps with
  | [] => Some n
  | c :: cs =>
      match n with
      | File _ _ => None
      | Dir es => match assoc c es with
                  | Some child => get child cs
                  | None => None
                  end
      end
  end.

Definition is_dir_at (r : node) (comps : list str) : bool :=
  match get r comps with
  | Some (Dir _) => true
  | _ => false
  end.

Fixpoint set_entry (k : str) (v : node) (es : list (str * node)) : list (str * node) :=
  match es with
  | [] => []
  | (k', v') :: es' =>
      if str_eqb k k' then (k', v) :: es' else (k', v') :: set_entry k v es'
  end.

(** Put [new] at [comps]: the last name is replaced or added to its
    directory, which must exist. *)
Fixpoint put (n : node) (comps : list str) (new : node) : option node :=
  match comps with
  | [] => Some new
  | c :: cs =>
      match n with
      | File _ _ => None
      | Dir es =>
          match assoc c es with
          | Some child =>
              match put child cs new with
              | Some child' => Some (Dir (set_entry c child' es))
              | None => None
              end
          | None => match cs with
                    | [] => Some (Dir (es ++ [(c, new)]))
                    | _ :: _ => None
                    end
          end
      end
  end.

(** Every directory of [comps] that is missing is created; [None] when a
    name on the way is a regular file. *)
Fixpoint mkdirs (n : node) (comps : list str) : option node :=
  match n with
  | File _ _ => None
  | Dir es =>
      match comps with
      | [] => Some n
      | c :: cs =>
          match assoc c es with
          | Some child =>
              match mkdirs child cs with
              | Some child' => Some (Dir (set_entry c child' es))
              | None => None
              end
          | None =>
              match mkdirs (Dir []) cs with
              | Some child' => Some (Dir (es ++ [(c, child')]))
              | None => None
              end
          end
      end
  end.

(** ** [os.path] on a POSIX host ([posixpath]) and [os] *)

Module os.

Module path.

Definition sep : ascii := "/"%char.

Definition is_sep (c : ascii) : bool := if ascii_dec c sep then true else false.

Definition nonempty {A : Type} (s : list A) : bool :=
  match s with [] => false | _ :: _ => true end.

(** [p.startswith("/")] *)
Definition isabs (p : str) : bool :=
  match p with
  | c :: _ => is_sep c
  | [] => false
  end.

(** [p.endswith("/")] *)
Definition ends_with_sep (p : str) : bool :=
  match p with
  | [] => false
  | _ :: _ => is_sep (last p sep)
  end.

(** [os.path.join(a, b)] *)
Definition join (a b : str) : str :=
  if isabs b then b
  else if negb (nonempty a) || ends_with_sep a then a ++ b
  else a ++ sep :: b.

(** [s.split("/")] *)
Fixpoint split_sep (s : str) : list str :=
  match s with
  | [] => [[]]
  | c :: s' =>
      if is_sep c then [] :: split_sep s'
      else match split_sep s' with
           | h :: t => (c :: h) :: t
           | [] => [[c]]
           end
  end.

(** ["/".join(comps)] *)
Fixpoint sep_join (comps : list str) : str :=
  match comps with
  | [] => []
  | [c] => c
  | c :: cs => c ++ sep :: sep_join cs
  end.

Definition dot : str := ".".
Definition dotdot : str := "..".

(** POSIX allows one or two initial slashes and treats three or more as
    one. *)
Definition initial_slashes (p : str) : nat :=
  if starts_with [sep; sep; sep] p then 1
  else if starts_with [sep; sep] p then 2
  else if starts_with [sep] p then 1
  else 0.

(** The body of the loop of [normpath] over the components. *)
Definition norm_step (rooted : bool) (new_comps : list str) (comp : str) : list str :=
  if str_eqb comp [] || str_eqb comp dot then new_comps
  else if negb (str_eqb comp dotdot)
          || (negb rooted && negb (nonempty new_comps))
          || (nonempty new_comps && str_eqb (last new_comps []) dotdot)
       then new_comps ++ [comp]
       else removelast new_comps.

Definition norm_comps (p : str) : list str :=
  fold_left (norm_step (negb (Nat.eqb (initial_slashes p) 0))) (split_sep p) [].

(** [os.path.normpath(p)] *)
Definition normpath (p : str) : str :=
  match p with
  | [] => dot
  | _ :: _ =>
      match repeat sep (initial_slashes p) ++ sep_join (norm_comps p) with
      | [] => dot
      | q => q
      end
  end.

(** [os.path.abspath(p)], with the string [os.getcwd()] returns. *)
Definition abspath (getcwd : str) (p : str) : str :=
  normpath (if isabs p then p else join getcwd p).

(** The longest common prefix of two lists of names: what
    [commonprefix([a, b])] returns for two lists. *)
Fixpoint commonprefix (a b : list str) : list str :=
  match a, b with
  | x :: a', y :: b' => if str_eqb x y then x :: commonprefix a' b' else []
  | _, _ => []
  end.

(** [os.path.relpath(p, start)] with [start] given. *)
Definition relpath (getcwd : str) (p start : str) : res str :=
  match p with
  | [] => Raise ValueError
  | _ :: _ =>
      let start_list := filter nonempty (split_sep (abspath getcwd start)) in
      let path_list := filter nonempty (split_sep (abspath getcwd p)) in
      let i := length (commonprefix start_list path_list) in
      match repeat dotdot (length start_list - i) ++ skipn i path_list with
      | [] => Ok dot
      | c :: cs => Ok (fold_left join cs c)
      end
  end.

End path.

(** [os.getcwd()] *)
Definition getcwd (f : fsys) : str := path.sep :: path.sep_join (cwd f).

(** The names from [/] that [p] leads to, walking one component at a
    time from [cur]: every name walked through must be a directory. *)
Fixpoint resolve (r : node) (cur : list str) (comps : list str) : option (list str) :=
  match comps with
  | [] => Some cur
  | c :: cs =>
      if is_dir_at r cur then
        if str_eqb c [] || str_eqb c path.dot then resolve r cur cs
        else if str_eqb c path.dotdot then resolve r (removelast cur) cs
        else resolve r (cur ++ [c]) cs
      else None
  end.

Definition locate (f : fsys) (p : str) : option (list str) :=
  match p with
  | [] => None
  | _ :: _ => resolve (root f) (if path.isabs p then [] else cwd f) (path.split_sep p)
  end.

(** [os.stat(p)], as much of it as the program looks at. *)
Definition stat (f : fsys) (p : str) : option node :=
  match locate f p with
  | Some comps => get (root f) comps
  | None => None
  end.

Definition exists_ (f : fsys) (p : str) : bool :=
  match stat f p with Some _ => true | None => false end.

Definition isdir (f : fsys) (p : str) : bool :=
  match stat f p with Some (Dir _) => true | _ => false end.

(** [os.path.getsize(p)].  The size of a directory depends on the file
    system; the program asks for names [os.walk] listed as files. *)
Definition getsize (f : fsys) (p : str) : res Z :=
  match stat f p with
  | Some (File content _) => Ok (Z.of_nat (length content))
  | Some (Dir _) => Ok 0%Z
  | None => Raise (OSError ENOENT)
  end.

Definition dirnames (es : list (str * node)) : list str :=
  flat_map (fun e => match snd e with Dir _ => [fst e] | File _ _ => [] end) es.

Definition filenames (es : list (str * node)) : list str :=
  flat_map (fun e => match snd e with Dir _ => [] | File _ _ => [fst e] end) es.

(** [os.walk(top)], top-down: the directory itself, then each of its
    sub-directories in listing order. Every directory of the tree can be
    listed, and the tree has no symbolic link; [os.walk] would pass over
    a directory it cannot list and report a link to a file as a file. *)
Fixpoint walk_node (top : str) (n : node) : list (str * list str * list str) :=
  match n with
  | File _ _ => []
  | Dir es =>
      (top, dirnames es, filenames es) ::
      (fix subdirs (l : list (str * node)) : list (str * list str * list str) :=
         match l with
         | [] => []
         | (name, child) :: l' => walk_node (path.join top name) child ++ subdirs l'
         end) es
  end.

Definition walk (f : fsys) (top : str) : list (str * list str * list str) :=
  match stat f top with
  | Some n => walk_node top n
  | None => []
  end.

(** An open file: the bytes not yet read, the fault of the file, and the
    number of [read] calls made. *)
Record rfile := RFile { rest : list byte; rflt : fault; nreads : nat }.

(** [open(p, "rb")] or [open(p, "r")] *)
Definition open_r (f : fsys) (p : str) : res rfile :=
  match stat f p with
  | Some (File content OpenFails) => Raise (OSError EACCES)
  | Some (File content flt) => Ok (RFile content flt 0)
  | Some (Dir _) => Raise (OSError EISDIR)
  | None => Raise (OSError ENOENT)
  end.

(** [f.read(size)]; [f.read()] for [None]. *)
Definition read (f : rfile) (size : option nat) : res (list byte * rfile) :=
  match rflt f with
  | ReadFails k =>
      if Nat.eqb k (nreads f) then Raise (OSError EIO)
      else match size with
           | Some n => Ok (firstn n (rest f), RFile (skipn n (rest f)) (rflt f) (S (nreads f)))
           | None => Ok (rest f, RFile [] (rflt f) (S (nreads f)))
           end
  | _ =>
      match size with
      | Some n => Ok (firstn n (rest f), RFile (skipn n (rest f)) (rflt f) (S (nreads f)))
      | None => Ok (rest f, RFile [] (rflt f) (S (nreads f)))
      end
  end.

(** [open(p, "w")], writing [data] and closing: the file is created or
    replaced in its directory. The three are one step here: it fails at
    the opening or not at all, so a file left truncated by a write that
    fails is not a state of the model. *)
Definition write_file (f : fsys) (p : str) (data : list byte) : res fsys :=
  match locate f p with
  | None => Raise (OSError ENOENT)
  | Some comps =>
      match get (root f) comps with
      | Some (Dir _) => Raise (OSError EISDIR)
      | _ => match put (root f) comps (File data NoFault) with
             | Some r => Ok (FS r (cwd f))
             | None => Raise (OSError ENOENT)
             end
      end
  end.

(** [os.makedirs(name, exist_ok=True)], by its documentation: nothing
    changes when [name] is a directory already; else the directories
    missing on the way are created, and it fails where a name on the way
    is a regular file. *)
Definition makedirs (f : fsys) (name : str) : res fsys :=
  if isdir f name then Ok f
  else match name with
       | [] => Raise (OSError ENOENT)
       | _ :: _ =>
           match mkdirs (root f)
                   (filter path.nonempty (path.split_sep (path.abspath (getcwd f) name))) with
           | Some r => Ok (FS r (cwd f))
           | None => Raise (OSError EEXIST)
           end
       end.

End os.

(** ** The run: a state and error monad

    The state a run threads through its calls is the file system and what
    was printed so far; a call ends as [res] says. An exception or exit
    keeps the state reached. *)

Record world := World { fs : fsys; stdout : list str }.

Definition M (A : Type) : Type := world -> res A * world.

Definition ret {A : Type} (a : A) : M A := fun w => (Ok a, w).

Definition bind {A B : Type} (c : M A) (k : A -> M B) : M B :=
  fun w =>
    match c w with
    | (Ok a, w') => k a w'
    | (Raise e, w') => (Raise e, w')
    | (Exit code, w') => (Exit code, w')
    | (OutOfFuel, w') => (OutOfFuel, w')
    end.

Definition raise {A : Type} (e : exn) : M A := fun w => (Raise e, w).

(** [sys.exit(code)] *)
Definition sys_exit {A : Type} (code : Z) : M A := fun w => (Exit code, w).

(** A call that reads the file system and changes nothing. *)
Definition ask {A : Type} (q : fsys -> res A) : M A := fun w => (q (fs w), w).

(** A call that changes the file system when it succeeds. *)
Definition act (q : fsys -> res fsys) : M unit :=
  fun w =>
    match q (fs w) with
    | Ok f => (Ok tt, World f (stdout w))
    | Raise e => (Raise e, w)
    | Exit code => (Exit code, w)
    | OutOfFuel => (OutOfFuel, w)
    end.

(** [print(line)] *)
Definition print (line : str) : M unit :=
  fun w => (Ok tt, World (fs w) (stdout w ++ [line])).

Declare Scope run_scope.
Delimit Scope run_scope with run.
Notation "x <- c ;; k" := (bind c (fun x => k))
  (at level 61, c at next level, right associativity) : run_scope.
Notation "c ;; k" := (bind c (fun _ => k))
  (at level 61, right associativity) : run_scope.
Open Scope run_scope.

(** [for x in l: body], with the variables the body assigns as [s]. *)
Fixpoint for_ {A S : Type} (l : list A) (body : A -> S -> M S) (s : S) : M S :=
  match l with
  | [] => ret s
  | x :: l' => s' <- body x s ;; for_ l' body s'
  end.

(** The exit status of the process for the way [main] ended: an uncaught
    exception prints a traceback and gives status 1. *)
Definition exit_status {A : Type} (r : res A) : option Z :=
  match r with
  | Ok _ => Some 0%Z
  | Raise _ => Some 1%Z
  | Exit code => Some code
  | OutOfFuel => None
  end.

(** ** Formatting *)

Definition newline : ascii := "010"%char.

(** [str(n)] for an integer. *)
Definition decimal (z : Z) : str :=
  list_ascii_of_string (NilZero.string_of_int (Z.to_int z)).

(** Commas between groups of three digits, on the digits reversed. *)
Fixpoint group3 (rdigits : str) : str :=
  match rdigits with
  | a :: b :: c :: ((_ :: _) as more) => a :: b :: c :: ","%char :: group3 more
  | _ => rdigits
  end.

(** [f"{n:,}"] for [n >= 0]. *)
Definition thousands (z : Z) : str := rev (group3 (rev (decimal z))).

(** [s.replace("\\", "/")] *)
Definition replace_backslash (s : str) : str :=
  map (fun c => if ascii_dec c "\"%char then "/"%char else c) s.

(** [s.rstrip("/")] *)
Fixpoint rstrip_slash (s : str) : str :=
  match s with
  | [] => []
  | c :: s' =>
      match rstrip_slash s' with
      | [] => if os.path.is_sep c then [] else [c]
      | r => c :: r
      end
  end.

(** The text of a file as bytes (UTF-8 code units either way). *)
Definition encode (s : str) : list byte := map byte_of_ascii s.

(** ** What the program takes from the Python runtime

    [json.load] on the bytes of a file ([None] where it raises), the text
    [json.dump(v, f, indent=2, ensure_ascii=False)] writes, and [str(v)]
    for a value that is not a string, as an f-string formats it. *)
Class Runtime := {
  json_load : list byte -> option json;
  json_dump : json -> str;
  py_str : json -> str
}.

(** [f"{v}"] *)
Definition fmt {RT : Runtime} (v : json) : str :=
  match v with
  | JString s => s
  | _ => py_str v
  end.

(** ** The program: [generate_manifest.py] *)

Definition SCAN_DIRS : list str := ["mods"; "resourcepacks"; "shaderpacks"; "config"].

(** The loop of [sha256_file],
    [for chunk in iter(lambda: f.read(size), b""): h.update(chunk)]:
    [read] is called until it returns no byte. *)
Fixpoint read_chunks (fuel size : nat) (f : os.rfile) (h : SHA256.hasher)
  : res SHA256.hasher :=
  match fuel with
  | O => OutOfFuel
  | S fuel' =>
      match os.read f (Some size) with
      | Ok (chunk, f') =>
          match chunk with
          | [] => Ok h
          | _ :: _ => read_chunks fuel' size f' (SHA256.update h chunk)
          end
      | Raise e => Raise e
      | Exit code => Exit code
      | OutOfFuel => OutOfFuel
      end
  end.

(** [sha256_file] (lines 18-23) with the size of a chunk as a parameter.
    A read of at least one byte shortens the rest of the file, so one
    more call than the file has bytes is fuel enough. *)
Definition sha256_file_by (size : nat) (filepath : str) : M str :=
  let h := SHA256.new in
  f <- ask (fun fsy => os.open_r fsy filepath) ;;
  h <- ask (fun _ => read_chunks (S (length (os.rest f))) size f h) ;;
  ret (SHA256.hexdigest h).

Definition sha256_file (filepath : str) : M str := sha256_file_by 8192 filepath.

(** A value used as a path by [os.path] or [os]: [TypeError] unless it
    is a string. *)
Definition as_path (v : json) : M str :=
  match v with
  | JString s => ret s
  | _ => raise TypeError
  end.

(** [v.rstrip("/")]: only a string has the method. *)
Definition rstrip_of (v : json) : M str :=
  match v with
  | JString s => ret (rstrip_slash s)
  | _ => raise AttributeError
  end.

(** The dict appended to [files] (lines 39-45). *)
Definition file_record (rel_path sha256 url : str) (size : Z) : json :=
  JObject [("path", JString rel_path);
           ("sha256", JString sha256);
           ("url", JString url);
           ("size", JInt size);
           ("required", JBool true)].

(** [scan_files] (lines 25-47). *)
Definition scan_files (base_dir base_url : json) : M (list json) :=
  for_ SCAN_DIRS (fun scan_dir files =>
    dir <- as_path base_dir ;;
    let full_dir := os.path.join dir scan_dir in
    is_dir <- ask (fun f => Ok (os.isdir f full_dir)) ;;
    if negb is_dir then ret files
    else
      tree <- ask (fun f => Ok (os.walk f full_dir)) ;;
      for_ tree (fun item files =>
        let '(root, _, filenames) := item in
        for_ filenames (fun filename files =>
          let filepath := os.path.join root filename in
          rel <- ask (fun f => os.path.relpath (os.getcwd f) filepath dir) ;;
          let rel_path := replace_backslash rel in
          size <- ask (fun f => os.getsize f filepath) ;;
          sha256 <- sha256_file filepath ;;
          stripped <- rstrip_of base_url ;;
          let url := stripped ++ "/" ++ rel_path in
          let files := files ++ [file_record rel_path sha256 url size] in
          print ("  [" ++ scan_dir ++ "] " ++ filename ++ " (" ++ thousands size ++ " bytes)") ;;
          ret files) files) files) [].

(** [v[key]] for a string key. *)
Definition getitem (v : json) (key : str) : M json :=
  match v with
  | JObject items =>
      match assoc key items with
      | Some x => ret x
      | None => raise KeyError
      end
  | _ => raise TypeError
  end.

(** [v.get(key, default)] *)
Definition get_or (v : json) (key : str) (default : json) : M json :=
  match v with
  | JObject items =>
      ret (match assoc key items with Some x => x | None => default end)
  | _ => raise AttributeError
  end.

(** [key in v]: a key of a dict, an item of a list, a substring of a
    string; [TypeError] for a value that is no container. *)
Definition contains (v : json) (key : str) : M bool :=
  match v with
  | JObject items =>
      ret (match assoc key items with Some _ => true | None => false end)
  | JList items =>
      ret (existsb (fun x => match x with JString s => str_eqb s key | _ => false end) items)
  | JString s => ret (substring key s)
  | _ => raise TypeError
  end.

(** The dict [manifest] (lines 70-79). *)
Definition manifest_of (mc_version loader_type loader_version : json)
  (files : list json) (java_args server_address : json) : json :=
  JObject [("mc_version", mc_version);
           ("mod_loader", JObject [("type", loader_type); ("version", loader_version)]);
           ("files", JList files);
           ("java_args", java_args);
           ("server_address", server_address)].

Definition required : list str := ["dir"; "base_url"; "mc_version"].

Section Program.

Context {RT : Runtime}.

(** [generate] (lines 49-87). *)
Definition generate (config : json) : M unit :=
  base_dir <- getitem config "dir" ;;
  base_url <- getitem config "base_url" ;;
  mc_version <- getitem config "mc_version" ;;
  loader_type <- get_or config "loader_type" (JString "vanilla") ;;
  loader_version <- get_or config "loader_version" (JString []) ;;
  java_args <- get_or config "java_args" (JString "-Xmx4G -Xms2G") ;;
  address <- get_or config "server_address" (JString []) ;;
  let server_address := py_or address JNull in
  print "=== Manifest Generator ===" ;;
  print ("Directory : " ++ fmt base_dir) ;;
  print ("Base URL  : " ++ fmt base_url) ;;
  print ("MC Version: " ++ fmt mc_version) ;;
  print ("Loader    : " ++ fmt loader_type ++ " " ++ fmt loader_version) ;;
  print ("Server    : " ++ fmt (py_or server_address (JString "(none)"))) ;;
  print [] ;;
  print "Scanning files..." ;;
  files <- scan_files base_dir base_url ;;
  print (newline :: "Found " ++ decimal (Z.of_nat (length files)) ++ " file(s)" ++ [newline]) ;;
  let manifest :=
    manifest_of mc_version loader_type loader_version files java_args server_address in
  dir <- as_path base_dir ;;
  act (fun f => os.makedirs f dir) ;;
  let output_path := os.path.join dir "manifest.json" in
  act (fun f => os.write_file f output_path (encode (json_dump manifest))) ;;
  print ("manifest.json saved to: " ++ output_path) ;;
  print "Done!".

(** [main] (lines 89-112) from [config_path = args.config] on: the
    operand of [--config], or [manifest_config.json]. The text of the
    file is decoded and parsed by [json.load]; where either fails the
    exception is a [ValueError], here [JSONDecodeError]. *)
Definition main (config_path : str) : M unit :=
  found <- ask (fun f => Ok (os.exists_ f config_path)) ;;
  if negb found then
    print ("설정 파일을 찾을 수 없습니다: " ++ config_path) ;;
    print "manifest_config.json 파일을 만들어주세요." ;;
    sys_exit 1
  else
    f <- ask (fun fsy => os.open_r fsy config_path) ;;
    text <- ask (fun _ => os.read f None) ;;
    config <- match json_load (fst text) with
              | Some v => ret v
              | None => raise JSONDecodeError
              end ;;
    for_ required (fun key _ =>
      has <- contains config key ;;
      if negb has then
        print ("설정 파일에 '" ++ key ++ "' 필드가 없습니다.") ;;
        sys_exit 1
      else ret tt) tt ;;
    generate config.

End Program.

Definition default_config_path : str := "manifest_config.json".

(** ** A concrete pack *)

Definition bytes (s : string) : list byte := list_byte_of_string s.

Definition pack_tree : node :=
  Dir [("srv", Dir [("pack", Dir [("mods", Dir [("a.jar", File (bytes "test") NoFault)]);
                                  ("config", Dir [("settings.txt", File [] NoFault)])])])].

Definition pack_fs : fsys := FS pack_tree ["srv"].

(** The pack with a file that cannot be read to its end: the second
    [read] on [mods/big.bin] fails. *)
Definition broken_pack : fsys :=
  FS (Dir [("srv", Dir [("pack", Dir [("mods", Dir [("a.jar", File (bytes "test") NoFault);
                                                    ("big.bin", File (repeat x00 9000) (ReadFails 1))])]);
                        ("manifest_config.json", File [x20; x20] NoFault)])])
     ["srv"].

(** A pack on a POSIX host with a file whose name holds a backslash. *)
Definition clash_pack : fsys :=
  FS (Dir [("srv", Dir [("pack", Dir [("mods",
        Dir [("a\b", File (bytes "one") NoFault);
             ("a", Dir [("b", File (bytes "two") NoFault)])])])])])
     ["srv"].

(** A pack with two mods, and the same pack with the directory [mods]
    listed in the other order. *)
Definition two_mods : fsys :=
  FS (Dir [("srv", Dir [("pack", Dir [("mods", Dir [("a.jar", File (bytes "test") NoFault);
                                                    ("b.jar", File (bytes "more") NoFault)])])])])
     ["srv"].

Definition two_mods_reordered : fsys :=
  FS (Dir [("srv", Dir [("pack", Dir [("mods", Dir [("b.jar", File (bytes "more") NoFault);
                                                    ("a.jar", File (bytes "test") NoFault)])])])])
     ["srv"].

(** The configuration of the example. *)
Definition pack_config : json :=
  JObject [("dir", JString "pack");
           ("base_url", JString "http://example.com/pack");
           ("mc_version", JString "1.20.1")].

(** A runtime for the examples. Its [json.load] tells texts apart by
    their length only: no byte is no JSON, one byte is a dict without
    [base_url] and [mc_version], more bytes are [pack_config]. Its
    [json.dump] writes a value on one line, a float as [?]. *)
Definition quote : ascii := "034"%char.

Fixpoint toy_dump (v : json) : str :=
  match v with
  | JNull => "null"
  | JBool true => "true"
  | JBool false => "false"
  | JInt z => decimal z
  | JFloat _ => "?"
  | JString s => quote :: s ++ [quote]
  | JList items =>
      "[" ++ (fix each (l : list json) : str :=
                match l with
                | [] => []
                | x :: l' => toy_dump x ++ "," ++ each l'
                end) items ++ "]"
  | JObject items =>
      "{" ++ (fix each (l : list (str * json)) : str :=
                match l with
                | [] => []
                | (k, x) :: l' => quote :: k ++ [quote] ++ ":" ++ toy_dump x ++ "," ++ each l'
                end) items ++ "}"
  end.

Definition toy_runtime : Runtime :=
  {| json_load := fun data =>
       match data with
       | [] => None
       | [_] => Some (JObject [("dir", JString "pack")])
       | _ :: _ :: _ => Some pack_config
       end;
     json_dump := toy_dump;
     py_str := toy_dump |}.

(** The pack with a configuration file of [n] bytes in the working
    directory. *)
Definition pack_with_config (n : nat) : fsys :=
  FS (Dir [("srv", Dir [("pack", Dir [("mods", Dir [("a.jar", File (bytes "test") NoFault)]);
                                      ("config", Dir [("settings.txt", File [] NoFault)])]);
                        ("manifest_config.json", File (repeat x20 n) NoFault)])])
     ["srv"].

(** A pack whose [mods] is a regular file, not a directory. *)
Definition mods_file_pack : fsys :=
  FS (Dir [("srv", Dir [("pack", Dir [("mods", File (bytes "not a directory") NoFault);
                                      ("readme.txt", File (bytes "hello") NoFault)])])])
     ["srv"].

(** A working directory without the directory of the pack. *)
Definition no_pack : fsys :=
  FS (Dir [("srv", Dir [("notes.txt", File (bytes "later") NoFault)])]) ["srv"].

(** A runtime whose [json.load] returns [v] for every text. *)
Definition const_runtime (v : json) : Runtime :=
  {| json_load := fun _ => Some v;
     json_dump := toy_dump;
     py_str := toy_dump |}.

(** ** The scan as a list of visits

    [scan_files] changes no file, so what it returns is a function of the
    file system: the list of the files it visits, and for each what it
    computes from the file system. The properties below are proved on
    this description, and [scan_files_visits] shows it is what
    [scan_files] does. *)

Definition rbind {A B : Type} (r : res A) (k : A -> res B) : res B :=
  match r with
  | Ok a => k a
  | Raise e => Raise e
  | Exit code => Exit code
  | OutOfFuel => OutOfFuel
  end.

(** The files visited under one scan directory: its name, the directory
    [os.walk] reports, and the name of the file. *)
Definition scanned_in (f : fsys) (dir scan_dir : str) : list (str * str * str) :=
  if os.isdir f (os.path.join dir scan_dir)
  then flat_map (fun item => map (fun filename => (scan_dir, fst (fst item), filename)) (snd item))
                (os.walk f (os.path.join dir scan_dir))
  else [].

Definition scanned (f : fsys) (dir : str) : list (str * str * str) :=
  flat_map (scanned_in f dir) SCAN_DIRS.

Definition hash_of (f : fsys) (size : nat) (filepath : str) : res str :=
  rbind (os.open_r f filepath) (fun h =>
  rbind (read_chunks (S (length (os.rest h))) size h SHA256.new) (fun x =>
  Ok (SHA256.hexdigest x))).

(** The record and the printed line of one visit. *)
Definition visit (f : fsys) (dir : str) (base_url : json) (it : str * str * str)
  : res (json * str) :=
  let '(scan_dir, root, filename) := it in
  let filepath := os.path.join root filename in
  rbind (os.path.relpath (os.getcwd f) filepath dir) (fun rel =>
  let rel_path := replace_backslash rel in
  rbind (os.getsize f filepath) (fun size =>
  rbind (hash_of f 8192 filepath) (fun sha256 =>
  rbind (match base_url with
         | JString s => Ok (rstrip_slash s)
         | _ => Raise AttributeError
         end) (fun stripped =>
  Ok (file_record rel_path sha256 (stripped ++ "/" ++ rel_path) size,
      "  [" ++ scan_dir ++ "] " ++ filename ++ " (" ++ thousands size ++ " bytes)"))))).

(** The visits in order, up to the first that does not return: the
    outcome and the lines printed. *)
Fixpoint visits (f : fsys) (dir : str) (base_url : json) (items : list (str * str * str))
  (files : list json) : res (list json) * list str :=
  match items with
  | [] => (Ok files, [])
  | it :: items' =>
      match visit f dir base_url it with
      | Ok (r, line) =>
          let (out, lines) := visits f dir base_url items' (files ++ [r]) in
          (out, line :: lines)
      | Raise e => (Raise e, [])
      | Exit code => (Exit code, [])
      | OutOfFuel => (OutOfFuel, [])
      end
  end.

(** The body of the innermost loop of [scan_files] (lines 33-46). *)
Definition visit_body (dir : str) (base_url : json) (scan_dir root filename : str)
  (files : list json) : M (list json) :=
  let filepath := os.path.join root filename in
  rel <- ask (fun f => os.path.relpath (os.getcwd f) filepath dir) ;;
  let rel_path := replace_backslash rel in
  size <- ask (fun f => os.getsize f filepath) ;;
  sha256 <- sha256_file filepath ;;
  stripped <- rstrip_of base_url ;;
  let url := stripped ++ "/" ++ rel_path in
  let files := files ++ [file_record rel_path sha256 url size] in
  print ("  [" ++ scan_dir ++ "] " ++ filename ++ " (" ++ thousands size ++ " bytes)") ;;
  ret files.

(** The body of the loop over [os.walk] (lines 31-46) and of the loop
    over [SCAN_DIRS] (lines 27-46). *)
Definition walk_body (dir : str) (base_url : json) (scan_dir : str)
  (item : str * list str * list str) (files : list json) : M (list json) :=
  let '(root, _, filenames) := item in
  for_ filenames (visit_body dir base_url scan_dir root) files.

Definition scan_body (base_dir base_url : json) (scan_dir : str) (files : list json)
  : M (list json) :=
  dir <- as_path base_dir ;;
  let full_dir := os.path.join dir scan_dir in
  is_dir <- ask (fun f => Ok (os.isdir f full_dir)) ;;
  if negb is_dir then ret files
  else
    tree <- ask (fun f => Ok (os.walk f full_dir)) ;;
    for_ tree (walk_body dir base_url scan_dir) files.

(** ** [generate] in two parts

    What [generate] reads from a dict that has the required keys, what it
    prints before the scan (lines 58-66), and what it does with the files
    the scan returned (lines 68-87). *)

Definition setting (items : list (str * json)) (key : str) (default : json) : json :=
  match assoc key items with
  | Some x => x
  | None => default
  end.

Definition loader_type_of (items : list (str * json)) : json :=
  setting items "loader_type" (JString "vanilla").

Definition loader_version_of (items : list (str * json)) : json :=
  setting items "loader_version" (JString []).

Definition java_args_of (items : list (str * json)) : json :=
  setting items "java_args" (JString "-Xmx4G -Xms2G").

Definition server_address_of (items : list (str * json)) : json :=
  py_or (setting items "server_address" (JString [])) JNull.

Section Parts.

Context {RT : Runtime}.

Definition header (items : list (str * json)) (base_dir base_url mc_version : json)
  : list str :=
  ["=== Manifest Generator ===";
   "Directory : " ++ fmt base_dir;
   "Base URL  : " ++ fmt base_url;
   "MC Version: " ++ fmt mc_version;
   "Loader    : " ++ fmt (loader_type_of items) ++ " " ++ fmt (loader_version_of items);
   "Server    : " ++ fmt (py_or (server_address_of items) (JString "(none)"));
   [];
   "Scanning files..."].

(** The manifest [generate] builds from the dict and the scanned files. *)
Definition manifest_for (items : list (str * json)) (mc_version : json) (files : list json)
  : json :=
  manifest_of mc_version (loader_type_of items) (loader_version_of items) files
    (java_args_of items) (server_address_of items).

Definition finish (items : list (str * json)) (base_dir mc_version : json)
  (files : list json) : M unit :=
  print (newline :: "Found " ++ decimal (Z.of_nat (length files)) ++ " file(s)" ++ [newline]) ;;
  let manifest := manifest_for items mc_version files in
  dir <- as_path base_dir ;;
  act (fun f => os.makedirs f dir) ;;
  let output_path := os.path.join dir "manifest.json" in
  act (fun f => os.write_file f output_path (encode (json_dump manifest))) ;;
  print ("manifest.json saved to: " ++ output_path) ;;
  print "Done!".

End Parts.

(** An outcome that is a value or an [IOError]. *)
Definition io_outcome {A : Type} (r : res A) : Prop :=
  match r with
  | Ok _ => True
  | Raise (OSError _) => True
  | _ => False
  end.

(** A name a directory can hold: not empty, no slash, neither [.] nor
    [..]. *)
Definition plain (name : str) : Prop :=
  name <> [] /\ ~ In os.path.sep name /\ name <> os.path.dot /\ name <> os.path.dotdot.

(** ** Well-formed trees

    A directory of a file system holds each name once, and its names are
    plain. The checks are boolean, so that they run on a given tree. *)

Definition plainb (name : str) : bool :=
  os.path.nonempty name
  && negb (existsb os.path.is_sep name)
  && negb (str_eqb name os.path.dot)
  && negb (str_eqb name os.path.dotdot).

Definition no_backslash (name : str) : bool :=
  negb (existsb (fun c => if ascii_dec c "\"%char then true else false) name).

Fixpoint distinctb (names : list str) : bool :=
  match names with
  | [] => true
  | x :: rest => negb (existsb (str_eqb x) rest) && distinctb rest
  end.

(** Every name in the tree passes [ok]. *)
Fixpoint names_ok (ok : str -> bool) (n : node) : bool :=
  match n with
  | File _ _ => true
  | Dir es => forallb (fun e => ok (fst e) && names_ok ok (snd e)) es
  end.

(** No directory of the tree holds a name twice. *)
Fixpoint distinct_names (n : node) : bool :=
  match n with
  | File _ _ => true
  | Dir es => distinctb (map fst es) && forallb (fun e => distinct_names (snd e)) es
  end.

Definition well_formed (n : node) : bool := names_ok plainb n && distinct_names n.

(** The files of a tree as lists of names from its top, in the order
    [os.walk] reports them. *)
Fixpoint tree_files (n : node) : list (list str) :=
  match n with
  | File _ _ => []
  | Dir es =>
      map (fun name => [name]) (os.filenames es) ++
      (fix below (l : list (str * node)) : list (list str) :=
         match l with
         | [] => []
         | (name, child) :: l' => map (cons name) (tree_files child) ++ below l'
         end) es
  end.

(** [os.path.join(top, *names)] *)
Definition joins (top : str) (names : list str) : str := fold_left os.path.join names top.

(** The names of a path: its components that are not empty. *)
Definition names_of (p : str) : list str :=
  filter os.path.nonempty (os.path.split_sep p).

(** [r["path"]] *)
Definition path_of (r : json) : option json :=
  match r with
  | JObject items => assoc "path" items
  | _ => None
  end.

(** [r[key]] for a dict [r]; [None] where [r] has no such key or is no
    dict. *)
Definition field (r : json) (key : str) : option json :=
  match r with
  | JObject items => assoc key items
  | _ => None
  end.

(** A component of a normalised path: not empty and without slash. *)
Definition clean (c : str) : Prop := c <> [] /\ ~ In os.path.sep c.

(** The files under one scan directory, as names from it. *)
Definition files_under (f : fsys) (dir scan_dir : str) : list (list str) :=
  if os.isdir f (os.path.join dir scan_dir)
  then match os.stat f (os.path.join dir scan_dir) with
       | Some n => tree_files n
       | None => []
       end
  else [].

(** The files of the scan, as names from the base directory. *)
Definition scanned_names (f : fsys) (dir : str) : list (list str) :=
  flat_map (fun d => map (cons d) (files_under f dir d)) SCAN_DIRS.

(** The trees under the scan directories are well formed and no name in
    them holds a backslash. *)
Definition scan_trees_ok (f : fsys) (dir : str) : bool :=
  forallb (fun d => match os.stat f (os.path.join dir d) with
                    | Some n => well_formed n && names_ok no_backslash n
                    | None => true
                    end) SCAN_DIRS.

(** ** The same tree in another listing order

    The order in which a directory lists its entries is the order of
    [entries]. Two trees are the same up to that order when their
    directories hold the same entries, in any order, down the tree. *)

Inductive same_tree : node -> node -> Prop :=
| same_file (content : list byte) (flt : fault) :
    same_tree (File content flt) (File content flt)
| same_dir (es es' : list (str * node)) :
    same_entries es es' -> same_tree (Dir es) (Dir es')
with same_entries : list (str * node) -> list (str * node) -> Prop :=
| same_nil : same_entries [] []
| same_skip (name : str) (a b : node) (l l' : list (str * node)) :
    same_tree a b -> same_entries l l' ->
    same_entries ((name, a) :: l) ((name, b) :: l')
| same_swap (x y : str * node) (l : list (str * node)) :
    same_entries (x :: y :: l) (y :: x :: l)
| same_trans (l1 l2 l3 : list (str * node)) :
    same_entries l1 l2 -> same_entries l2 l3 -> same_entries l1 l3.

Scheme same_tree_min := Minimality for same_tree Sort Prop
  with same_entries_min := Minimality for same_entries Sort Prop.

Combined Scheme same_tree_entries_ind from same_tree_min, same_entries_min.

(** Two file systems hold the same trees under the scan directories of
    [dir], up to the listing order, and have the same working
    directory. *)
Definition same_scan (f1 f2 : fsys) (dir : str) : Prop :=
  os.getcwd f1 = os.getcwd f2 /\
  forall d, In d SCAN_DIRS ->
    match os.stat f1 (os.path.join dir d), os.stat f2 (os.path.join dir d) with
    | Some n1, Some n2 => same_tree n1 n2
    | None, None => True
    | _, _ => False
    end.

(** The trees under the scan directories are well formed. *)
Definition scan_trees_wf (f : fsys) (dir : str) : bool :=
  forallb (fun d => match os.stat f (os.path.join dir d) with
                    | Some n => well_formed n
                    | None => true
                    end) SCAN_DIRS.

(** The record of the file at [filepath]. *)
Definition record_of (f : fsys) (dir : str) (base_url : json) (filepath : str) : res json :=
  rbind (os.path.relpath (os.getcwd f) filepath dir) (fun rel =>
  let rel_path := replace_backslash rel in
  rbind (os.getsize f filepath) (fun size =>
  rbind (hash_of f 8192 filepath) (fun sha256 =>
  rbind (match base_url with
         | JString s => Ok (rstrip_slash s)
         | _ => Raise AttributeError
         end) (fun stripped =>
  Ok (file_record rel_path sha256 (stripped ++ "/" ++ rel_path) size))))).

Definition ok_of {A : Type} (r : res A) : option A :=
  match r with
  | Ok a => Some a
  | _ => None
  end.

(** The entries of a directory, one block of files each. *)
Definition block (e : str * node) : list (list str) :=
  match snd e with
  | File _ _ => [[fst e]]
  | Dir _ => []
  end ++ map (cons (fst e)) (tree_files (snd e)).

(** A call that ends: it returns, raises or exits, and is never cut off
    for want of fuel. *)
Definition ends {A : Type} (c : M A) : Prop := forall w, fst (c w) <> OutOfFuel.

(** The characters of a digest in hexadecimal. *)
Definition hex_digits : str := "0123456789abcdef".

(** A call that, where it exits, exits with a status [P] holds of. *)
Definition exits_in {A : Type} (P : Z -> Prop) (c : M A) : Prop :=
  forall w code, fst (c w) = Exit code -> P code.

(** The keys [generate] reads from the configuration (lines 50-56). *)
Definition known_keys : list str :=
  ["dir"; "base_url"; "mc_version"; "loader_type"; "loader_version"; "java_args";
   "server_address"].

(** ** Conditions the properties speak of *)

(** The first of the required keys that the dict lacks. *)
Definition first_missing (items : list (str * json)) : option str :=
  find (fun key => match assoc key items with Some _ => false | None => true end) required.

(** The configuration file does not exist. *)
Definition config_not_found (w : world) (config_path : str) : Prop :=
  os.exists_ (fs w) config_path = false.

(** The configuration file is read and parses to [config]. *)
Definition config_loads {RT : Runtime} (w : world) (config_path : str) (config : json) : Prop :=
  exists f text f',
    os.open_r (fs w) config_path = Ok f /\
    os.read f None = Ok (text, f') /\
    json_load text = Some config.

(** The configuration file is read and parses to a dict that lacks the
    required key [key], and has the required keys before it. *)
Definition config_lacks {RT : Runtime} (w : world) (config_path : str) (key : str) : Prop :=
  exists items,
    config_loads w config_path (JObject items) /\ first_missing items = Some key.

(** The configuration file is read and is not valid JSON. *)
Definition config_invalid {RT : Runtime} (w : world) (config_path : str) : Prop :=
  exists f text f',
    os.open_r (fs w) config_path = Ok f /\
    os.read f None = Ok (text, f') /\
    json_load text = None.

Definition not_found_lines (config_path : str) : list str :=
  ["설정 파일을 찾을 수 없습니다: " ++ config_path;
   "manifest_config.json 파일을 만들어주세요."].

Definition missing_field_line (key : str) : str :=
  "설정 파일에 '" ++ key ++ "' 필드가 없습니다.".

(** * Properties *)

Unset Implicit Arguments.

(** ** The run monad *)

Lemma bind_ok {A B : Type} (c : M A) (k : A -> M B) (w w' : world) (b : B) :
  bind c k w = (Ok b, w') ->
  exists a w1, c w = (Ok a, w1) /\ k a w1 = (Ok b, w').
Proof.
  unfold bind. destruct (c w) as [[a | e | code | ] w1]; try discriminate.
  intros E. exists a, w1. split; [reflexivity | exact E].
Qed.

Lemma bind_step {A B : Type} (c : M A) (k : A -> M B) (w w1 : world) (a : A) :
  c w = (Ok a, w1) -> bind c k w = k a w1.
Proof. intros E. unfold bind. rewrite E. reflexivity. Qed.

Lemma bind_raise {A B : Type} (c : M A) (k : A -> M B) (w w1 : world) (e : exn) :
  c w = (Raise e, w1) -> bind c k w = (Raise e, w1).
Proof. intros E. unfold bind. rewrite E. reflexivity. Qed.

(** ** SHA-256 in chunks *)

Lemma update_app (h : SHA256.hasher) (a b : list byte) :
  SHA256.update (SHA256.update h a) b = SHA256.update h (a ++ b).
Proof. unfold SHA256.update. rewrite fold_left_app. reflexivity. Qed.

Lemma firstn_nil_inv {A : Type} (n : nat) (l : list A) :
  1 <= n -> firstn n l = [] -> l = [].
Proof. destruct n; [lia |]. destruct l; [reflexivity | discriminate]. Qed.

Lemma skipn_shorter {A : Type} (n : nat) (l : list A) :
  1 <= n -> l <> [] -> length (skipn n l) < length l.
Proof.
  intros Hn Hl. rewrite length_skipn. destruct l; [congruence |]. cbn [length]. lia.
Qed.

(** Reading a file that has no fault in chunks of [size >= 1] bytes
    absorbs exactly its bytes, whatever the size. *)
Lemma read_chunks_all (size : nat) :
  1 <= size ->
  forall fuel data k h,
    length data < fuel ->
    read_chunks fuel size (os.RFile data NoFault k) h = Ok (SHA256.update h data).
Proof.
  intros Hsize. induction fuel as [| fuel IH]; intros data k h Hfuel; [lia |].
  simpl. destruct (firstn size data) as [| b chunk] eqn:Echunk.
  - apply firstn_nil_inv in Echunk; [| exact Hsize]. subst data. reflexivity.
  - rewrite IH.
    + rewrite update_app, <- Echunk, firstn_skipn. reflexivity.
    + assert (data <> []) by (intros ->; rewrite firstn_nil in Echunk; discriminate).
      pose proof (skipn_shorter size data Hsize H) as Hs. simpl in Hfuel. lia.
Qed.

Lemma open_r_plain (f : fsys) (p : str) (content : list byte) :
  os.stat f p = Some (File content NoFault) ->
  os.open_r f p = Ok (os.RFile content NoFault 0).
Proof. intros E. unfold os.open_r. rewrite E. reflexivity. Qed.

(** C4. The digest [sha256_file] streams in chunks of 8192 bytes is the
    SHA-256 digest of the whole content of the file taken in one pass,
    and so is the digest streamed in chunks of any size of at least one
    byte: the size of the chunks does not show in the result. *)
Theorem sha256_file_chunk_size (w : world) (filepath : str) (content : list byte) :
  os.stat (fs w) filepath = Some (File content NoFault) ->
  sha256_file filepath w = (Ok (SHA256.sha256_hex content), w) /\
  forall size, 1 <= size ->
    sha256_file_by size filepath w = (Ok (SHA256.sha256_hex content), w).
Proof.
  intros Hstat.
  assert (Hany : forall size, 1 <= size ->
            sha256_file_by size filepath w = (Ok (SHA256.sha256_hex content), w)).
  { intros size Hsize. unfold sha256_file_by, bind, ask.
    rewrite (open_r_plain _ _ _ Hstat). cbn [os.rest].
    rewrite (read_chunks_all size Hsize); [reflexivity | lia]. }
  split; [| exact Hany].
  unfold sha256_file. apply Hany. apply Nat.lt_0_succ.
Qed.

Lemma sha256_file_chunk_size_witness :
  os.stat pack_fs "pack/mods/a.jar" = Some (File (bytes "test") NoFault) /\
  sha256_file "pack/mods/a.jar" (World pack_fs []) =
    (Ok (SHA256.sha256_hex (bytes "test")), World pack_fs []) /\
  forall size, 1 <= size ->
    sha256_file_by size "pack/mods/a.jar" (World pack_fs []) =
      (Ok (SHA256.sha256_hex (bytes "test")), World pack_fs []).
Proof.
  split; [reflexivity |].
  apply (sha256_file_chunk_size (World pack_fs []) "pack/mods/a.jar" (bytes "test")).
  reflexivity.
Defined.

(** A chunk size of zero is not a size: the first [read] returns no byte
    and the loop ends at once, with the digest of no input. *)
Example sha256_abc :
  SHA256.sha256_hex (bytes "abc") =
  "ba7816bf8f01cfea414140de5dae2223b00361a396177a9cb410ff61f20015ad".
Proof. vm_compute. reflexivity. Qed.

(** A message that, padded, fills two blocks. *)
Example sha256_two_blocks :
  SHA256.sha256_hex (bytes "abcdbcdecdefdefgefghfghighijhijkijkljklmklmnlmnomnopnopq") =
  "248d6a61d20638b8e5c026930c3e6039a33ce45964ff2167f6ecedd419db06c1".
Proof. vm_compute. reflexivity. Qed.

Example sha256_file_by_zero :
  fst (sha256_file_by 0 "pack/mods/a.jar" (World pack_fs [])) = Ok (SHA256.sha256_hex []).
Proof. reflexivity. Qed.

(** C1. For the base directory [pack] that holds [mods/a.jar] with the
    four bytes [test] and the empty [config/settings.txt], and the base
    URL [http://example.com/pack], [scan_files] returns exactly two
    records: [mods/a.jar] with the digest 9f86d0...0a08 of [test], size 4
    and URL [http://example.com/pack/mods/a.jar], and
    [config/settings.txt] with size 0 and the digest of the empty input.
    With [mc_version] 1.20.1 the manifest [generate] writes holds these
    two records. The records and the manifest are given key by key. *)
Theorem example_pack_records :
  exists r1 r2,
    scan_files (JString "pack") (JString "http://example.com/pack") (World pack_fs []) =
      (Ok [r1; r2],
       World pack_fs ["  [mods] a.jar (4 bytes)"; "  [config] settings.txt (0 bytes)"]) /\
    r1 = JObject [("path", JString "mods/a.jar");
                  ("sha256",
                   JString "9f86d081884c7d659a2feaa0c55ad015a3bf4f1b2b0b822cd15d6c15b0f00a08");
                  ("url", JString "http://example.com/pack/mods/a.jar");
                  ("size", JInt 4);
                  ("required", JBool true)] /\
    r2 = JObject [("path", JString "config/settings.txt");
                  ("sha256",
                   JString "e3b0c44298fc1c149afbf4c8996fb92427ae41e4649b934ca495991b7852b855");
                  ("url", JString "http://example.com/pack/config/settings.txt");
                  ("size", JInt 0);
                  ("required", JBool true)] /\
    field r1 "path" = Some (JString "mods/a.jar") /\
    field r1 "sha256" = Some (JString (SHA256.sha256_hex (bytes "test"))) /\
    field r1 "size" = Some (JInt 4) /\
    field r1 "url" = Some (JString "http://example.com/pack/mods/a.jar") /\
    field r2 "path" = Some (JString "config/settings.txt") /\
    field r2 "sha256" = Some (JString (SHA256.sha256_hex [])) /\
    field r2 "size" = Some (JInt 0) /\
    SHA256.sha256_hex (bytes "test") =
      "9f86d081884c7d659a2feaa0c55ad015a3bf4f1b2b0b822cd15d6c15b0f00a08" /\
    forall RT : Runtime,
    exists manifest,
      os.stat (fs (snd (generate pack_config (World pack_fs [])))) "pack/manifest.json" =
        Some (File (encode (json_dump manifest)) NoFault) /\
      manifest =
        JObject [("mc_version", JString "1.20.1");
                 ("mod_loader", JObject [("type", JString "vanilla"); ("version", JString [])]);
                 ("files", JList [r1; r2]);
                 ("java_args", JString "-Xmx4G -Xms2G");
                 ("server_address", JNull)] /\
      field manifest "mc_version" = Some (JString "1.20.1") /\
      field manifest "files" = Some (JList [r1; r2]).
Proof.
  exists (file_record "mods/a.jar"
            "9f86d081884c7d659a2feaa0c55ad015a3bf4f1b2b0b822cd15d6c15b0f00a08"
            "http://example.com/pack/mods/a.jar" 4),
         (file_record "config/settings.txt" (SHA256.sha256_hex [])
            "http://example.com/pack/config/settings.txt" 0).
  split; [vm_compute; reflexivity |].
  split; [reflexivity |].
  split; [vm_compute; reflexivity |].
  split; [reflexivity |].
  split; [vm_compute; reflexivity |].
  split; [reflexivity |].
  split; [reflexivity |].
  split; [reflexivity |].
  split; [reflexivity |].
  split; [reflexivity |].
  split; [vm_compute; reflexivity |].
  intros RT.
  exists (manifest_of (JString "1.20.1") (JString "vanilla") (JString [])
            [file_record "mods/a.jar"
               "9f86d081884c7d659a2feaa0c55ad015a3bf4f1b2b0b822cd15d6c15b0f00a08"
               "http://example.com/pack/mods/a.jar" 4;
             file_record "config/settings.txt" (SHA256.sha256_hex [])
               "http://example.com/pack/config/settings.txt" 0]
            (JString "-Xmx4G -Xms2G") JNull).
  split; [vm_compute; reflexivity |].
  split; [reflexivity |].
  split; reflexivity.
Qed.

(** ** Loading the configuration *)

Lemma open_r_exists (f : fsys) (p : str) (h : os.rfile) :
  os.open_r f p = Ok h -> os.exists_ f p = true.
Proof.
  unfold os.open_r, os.exists_. destruct (os.stat f p) as [[c flt | es] |];
    [reflexivity | discriminate | discriminate].
Qed.

Lemma first_missing_lacks (items : list (str * json)) (key : str) :
  first_missing items = Some key -> In key required /\ assoc key items = None.
Proof.
  intros E. unfold first_missing in E. apply find_some in E. destruct E as [Hin Hnone].
  split; [exact Hin |]. destruct (assoc key items); [discriminate | reflexivity].
Qed.

Lemma lacks_first_missing (items : list (str * json)) (key : str) :
  In key required -> assoc key items = None -> exists key', first_missing items = Some key'.
Proof.
  intros Hin Hnone. unfold first_missing.
  destruct (find _ required) as [key' |] eqn:E; [exists key'; reflexivity |].
  pose proof (find_none _ _ E key Hin) as Hk. cbv beta in Hk. rewrite Hnone in Hk. discriminate.
Qed.

Section Loading.

Context {RT : Runtime}.

(** The check of the required fields (lines 106-110). *)
Lemma required_check (items : list (str * json)) (w : world) :
  for_ required (fun key _ =>
      has <- contains (JObject items) key ;;
      if negb has then
        print ("설정 파일에 '" ++ key ++ "' 필드가 없습니다.") ;;
        sys_exit 1
      else ret tt) tt w =
  match first_missing items with
  | Some key => (Exit 1, World (fs w) (stdout w ++ [missing_field_line key]))
  | None => (Ok tt, w)
  end.
Proof.
  unfold first_missing, required, missing_field_line. cbn [for_ find].
  unfold bind, contains, ret, print, sys_exit.
  destruct (assoc "dir" items); cbn [negb]; [| reflexivity].
  destruct (assoc "base_url" items); cbn [negb]; [| reflexivity].
  destruct (assoc "mc_version" items); cbn [negb]; reflexivity.
Qed.

Lemma main_loaded (p : str) (w : world) (config : json) :
  config_loads w p config ->
  main p w =
  (for_ required (fun key _ =>
      has <- contains config key ;;
      if negb has then
        print ("설정 파일에 '" ++ key ++ "' 필드가 없습니다.") ;;
        sys_exit 1
      else ret tt) tt ;;
   generate config) w.
Proof.
  intros (f & text & f' & Hopen & Hread & Hload).
  unfold main. unfold bind at 1. unfold ask at 1.
  rewrite (open_r_exists _ _ _ Hopen). cbn [negb].
  unfold bind at 1. unfold ask at 1. rewrite Hopen.
  unfold bind at 1. unfold ask at 1. rewrite Hread. cbn [fst].
  unfold bind at 1. rewrite Hload. reflexivity.
Qed.

Lemma main_not_found (p : str) (w : world) :
  config_not_found w p ->
  main p w = (Exit 1, World (fs w) (stdout w ++ not_found_lines p)).
Proof.
  unfold config_not_found. intros E. unfold main, bind, ask. rewrite E. cbn.
  rewrite <- app_assoc. reflexivity.
Qed.

Lemma main_lacks (p : str) (w : world) (key : str) :
  config_lacks w p key ->
  main p w = (Exit 1, World (fs w) (stdout w ++ [missing_field_line key])).
Proof.
  intros (items & Hload & Hmiss). rewrite (main_loaded _ _ _ Hload).
  unfold bind at 1. rewrite required_check, Hmiss. reflexivity.
Qed.

Lemma main_invalid (p : str) (w : world) :
  config_invalid w p -> main p w = (Raise JSONDecodeError, w).
Proof.
  intros (f & text & f' & Hopen & Hread & Hload).
  unfold main. unfold bind at 1. unfold ask at 1.
  rewrite (open_r_exists _ _ _ Hopen). cbn [negb].
  unfold bind at 1. unfold ask at 1. rewrite Hopen.
  unfold bind at 1. unfold ask at 1. rewrite Hread. cbn [fst].
  unfold bind at 1. rewrite Hload. reflexivity.
Qed.

End Loading.

(** C3. Where the configuration file does not exist, or is read and
    parses to a dict that lacks one of [dir], [base_url], [mc_version],
    the run prints a diagnostic and ends with exit status 1, and the file
    system is as it was: no manifest is written or changed. A run that
    ends normally has exit status 0. *)
Theorem config_errors_exit_1 {RT : Runtime} (p : str) (w : world) :
  (config_not_found w p ->
     main p w = (Exit 1, World (fs w) (stdout w ++ not_found_lines p)) /\
     exit_status (fst (main p w)) = Some 1%Z /\
     fs (snd (main p w)) = fs w) /\
  (forall items key,
     config_loads w p (JObject items) -> In key required -> assoc key items = None ->
     exists key',
       In key' required /\ assoc key' items = None /\
       main p w = (Exit 1, World (fs w) (stdout w ++ [missing_field_line key'])) /\
       exit_status (fst (main p w)) = Some 1%Z /\
       fs (snd (main p w)) = fs w) /\
  (forall w', main p w = (Ok tt, w') -> exit_status (fst (main p w)) = Some 0%Z).
Proof.
  split; [| split].
  - intros Hnone. rewrite (main_not_found p w Hnone). repeat split.
  - intros items key Hload Hin Hnone.
    destruct (lacks_first_missing items key Hin Hnone) as [key' Hfirst].
    destruct (first_missing_lacks items key' Hfirst) as [Hin' Hnone'].
    exists key'. split; [exact Hin' |]. split; [exact Hnone' |].
    assert (Hlacks : config_lacks w p key') by (exists items; split; assumption).
    rewrite (main_lacks p w key' Hlacks). repeat split.
  - intros w' E. rewrite E. reflexivity.
Qed.

Lemma config_errors_exit_1_witness :
  (main (RT := toy_runtime) "nowhere.json" (World pack_fs []) =
     (Exit 1, World pack_fs (not_found_lines "nowhere.json"))) /\
  (exists key',
     main (RT := toy_runtime) default_config_path (World (pack_with_config 1) []) =
       (Exit 1, World (pack_with_config 1) [missing_field_line key'])) /\
  exit_status (fst (main (RT := toy_runtime) default_config_path
                      (World (pack_with_config 2) []))) = Some 0%Z.
Proof.
  split; [| split].
  - apply (config_errors_exit_1 (RT := toy_runtime) "nowhere.json" (World pack_fs [])).
    reflexivity.
  - destruct (config_errors_exit_1 (RT := toy_runtime) default_config_path
                (World (pack_with_config 1) [])) as (_ & Hlack & _).
    destruct (Hlack [("dir", JString "pack")] "mc_version") as (key' & _ & _ & E & _).
    + exists (os.RFile [x20] NoFault 0), [x20], (os.RFile [] NoFault 1).
      repeat split.
    + right. right. left. reflexivity.
    + reflexivity.
    + exists key'. exact E.
  - destruct (config_errors_exit_1 (RT := toy_runtime) default_config_path
                (World (pack_with_config 2) [])) as (_ & _ & Hok).
    apply (Hok (snd (main (RT := toy_runtime) default_config_path
                       (World (pack_with_config 2) [])))).
    vm_compute. reflexivity.
Defined.

(** C10. Where the configuration file is read and is not valid JSON, the
    run ends with the parse exception under way, before the check of the
    required fields and before anything is written: nothing was printed,
    the file system is as it was, and the exception is no [IOError] and
    no exit of the run's own. *)
Theorem invalid_json_uncaught {RT : Runtime} (p : str) (w : world) :
  config_invalid w p ->
  main p w = (Raise JSONDecodeError, w) /\
  exit_status (fst (main p w)) = Some 1%Z /\
  stdout (snd (main p w)) = stdout w /\
  fs (snd (main p w)) = fs w /\
  (forall e, JSONDecodeError <> IOError e) /\
  (forall code, fst (main p w) <> Exit code).
Proof.
  intros Hbad. rewrite (main_invalid p w Hbad). repeat split.
  - intros e; discriminate.
  - intros code; discriminate.
Qed.

Lemma invalid_json_uncaught_witness :
  main (RT := toy_runtime) default_config_path (World (pack_with_config 0) []) =
    (Raise JSONDecodeError, World (pack_with_config 0) []) /\
  exit_status (fst (main (RT := toy_runtime) default_config_path
                      (World (pack_with_config 0) []))) = Some 1%Z.
Proof.
  destruct (invalid_json_uncaught (RT := toy_runtime) default_config_path
              (World (pack_with_config 0) [])) as (E & Hstatus & _).
  - exists (os.RFile [] NoFault 0), [], (os.RFile [] NoFault 1). repeat split.
  - split; [exact E | exact Hstatus].
Defined.

(** ** The scan is the list of its visits *)

Lemma sha256_file_hash_of (filepath : str) (w : world) :
  sha256_file filepath w = (hash_of (fs w) 8192 filepath, w).
Proof.
  unfold sha256_file, sha256_file_by, hash_of, bind, ask, ret, rbind.
  destruct (os.open_r (fs w) filepath) as [h | e | code |]; try reflexivity.
  destruct (read_chunks _ _ h SHA256.new); reflexivity.
Qed.

Lemma visit_body_visit (dir : str) (base_url : json) (scan_dir root filename : str)
  (files : list json) (w : world) :
  visit_body dir base_url scan_dir root filename files w =
  match visit (fs w) dir base_url (scan_dir, root, filename) with
  | Ok (r, line) => (Ok (files ++ [r]), World (fs w) (stdout w ++ [line]))
  | Raise e => (Raise e, w)
  | Exit code => (Exit code, w)
  | OutOfFuel => (OutOfFuel, w)
  end.
Proof.
  unfold visit_body, visit.
  unfold bind at 1. unfold ask at 1.
  destruct (os.path.relpath _ _ dir) as [rel | e | code |]; try reflexivity.
  unfold bind at 1. unfold ask at 1. cbn [rbind].
  destruct (os.getsize (fs w) _) as [size | e | code |]; try reflexivity.
  unfold bind at 1. rewrite sha256_file_hash_of. cbn [rbind].
  destruct (hash_of (fs w) 8192 _) as [sha | e | code |]; try reflexivity.
  unfold bind at 1. cbn [rbind].
  destruct base_url; try reflexivity.
Qed.

Lemma for_visits (dir : str) (base_url : json) (scan_dir root : str) :
  forall (filenames : list str) (files : list json) (w : world),
    for_ filenames (visit_body dir base_url scan_dir root) files w =
    (fst (visits (fs w) dir base_url (map (fun fn => (scan_dir, root, fn)) filenames) files),
     World (fs w)
       (stdout w ++
        snd (visits (fs w) dir base_url (map (fun fn => (scan_dir, root, fn)) filenames) files))).
Proof.
  induction filenames as [| fn fns IH]; intros files w.
  - cbn. rewrite app_nil_r. destruct w; reflexivity.
  - cbn [for_ map visits]. unfold bind. rewrite visit_body_visit.
    destruct (visit (fs w) dir base_url (scan_dir, root, fn)) as [[r line] | e | code |];
      try (cbn; rewrite app_nil_r; destruct w; reflexivity).
    rewrite IH. cbn [fs stdout].
    destruct (visits (fs w) dir base_url _ (files ++ [r])) as [out lines].
    cbn [fst snd]. rewrite <- app_assoc. reflexivity.
Qed.

Lemma visits_app (f : fsys) (dir : str) (base_url : json) :
  forall (l1 l2 : list (str * str * str)) (files : list json),
    visits f dir base_url (l1 ++ l2) files =
    match visits f dir base_url l1 files with
    | (Ok files1, lines1) =>
        (fst (visits f dir base_url l2 files1),
         lines1 ++ snd (visits f dir base_url l2 files1))
    | other => other
    end.
Proof.
  induction l1 as [| it l1 IH]; intros l2 files.
  - cbn. destruct (visits f dir base_url l2 files); reflexivity.
  - cbn [app visits].
    destruct (visit f dir base_url it) as [[r line] | e | code |]; try reflexivity.
    rewrite IH.
    destruct (visits f dir base_url l1 (files ++ [r])) as [[files1 | e | code |] lines1];
      reflexivity.
Qed.

Lemma scan_files_unfold (base_dir base_url : json) :
  scan_files base_dir base_url = for_ SCAN_DIRS (scan_body base_dir base_url) [].
Proof. reflexivity. Qed.

Lemma walk_loop_visits (dir : str) (base_url : json) (scan_dir : str) :
  forall (tree : list (str * list str * list str)) (files : list json) (w : world),
    for_ tree (walk_body dir base_url scan_dir) files w =
    (fst (visits (fs w) dir base_url
            (flat_map (fun item => map (fun fn => (scan_dir, fst (fst item), fn)) (snd item)) tree)
            files),
     World (fs w)
       (stdout w ++
        snd (visits (fs w) dir base_url
               (flat_map (fun item => map (fun fn => (scan_dir, fst (fst item), fn)) (snd item)) tree)
               files))).
Proof.
  induction tree as [| [[root dirs] fns] tree IH]; intros files w.
  - cbn. rewrite app_nil_r. destruct w; reflexivity.
  - cbn [for_ flat_map fst snd]. unfold bind. unfold walk_body at 1.
    rewrite for_visits, visits_app.
    destruct (visits (fs w) dir base_url (map _ fns) files) as [[files1 | e | code |] lines1];
      try reflexivity.
    cbn [fst snd]. rewrite IH. cbn [fs stdout]. rewrite <- app_assoc. reflexivity.
Qed.

Lemma scan_loop_visits (dir : str) (base_url : json) :
  forall (dirs : list str) (files : list json) (w : world),
    for_ dirs (scan_body (JString dir) base_url) files w =
    (fst (visits (fs w) dir base_url (flat_map (scanned_in (fs w) dir) dirs) files),
     World (fs w)
       (stdout w ++
        snd (visits (fs w) dir base_url (flat_map (scanned_in (fs w) dir) dirs) files))).
Proof.
  induction dirs as [| d dirs IH]; intros files w.
  - cbn. rewrite app_nil_r. destruct w; reflexivity.
  - cbn [for_ flat_map]. unfold bind at 1. unfold scan_body at 1.
    unfold as_path, bind at 1, ret at 1. unfold bind at 1, ask at 1.
    unfold scanned_in at 1 3.
    destruct (os.isdir (fs w) (os.path.join dir d)); cbn [negb].
    + unfold bind at 1, ask at 1. rewrite walk_loop_visits, visits_app.
      destruct (visits (fs w) dir base_url (flat_map _ (os.walk _ _)) files)
        as [[files1 | e | code |] lines1]; try reflexivity.
      cbn [fst snd]. rewrite IH. cbn [fs stdout]. rewrite <- app_assoc. reflexivity.
    + unfold ret at 1. rewrite IH. reflexivity.
Qed.

(** What [scan_files] returns and prints is what the visits of the
    scanned files give; the file system is as before. *)
Lemma scan_files_visits (dir : str) (base_url : json) (w : world) :
  scan_files (JString dir) base_url w =
  (fst (visits (fs w) dir base_url (scanned (fs w) dir) []),
   World (fs w) (stdout w ++ snd (visits (fs w) dir base_url (scanned (fs w) dir) []))).
Proof. rewrite scan_files_unfold. apply scan_loop_visits. Qed.

(** With a base directory that is no string, the first [os.path.join]
    raises. *)
Lemma scan_files_not_a_path (base_dir base_url : json) (w : world) :
  (forall s, base_dir <> JString s) ->
  scan_files base_dir base_url w = (Raise TypeError, w).
Proof.
  intros Hns. rewrite scan_files_unfold. cbn [SCAN_DIRS for_].
  unfold bind at 1. unfold scan_body at 1. unfold bind at 1.
  destruct base_dir; try reflexivity. exfalso. apply (Hns s). reflexivity.
Qed.

(** ** The URL and the path of a record *)

Lemma rstrip_slash_split (s : str) :
  exists k, s = rstrip_slash s ++ repeat "/"%char k.
Proof.
  induction s as [| c s IH].
  - exists 0. reflexivity.
  - destruct IH as [k IH]. cbn [rstrip_slash].
    destruct (rstrip_slash s) as [| c' r] eqn:E.
    + unfold os.path.is_sep, os.path.sep. destruct (ascii_dec c "/"%char) as [-> | Hne].
      * exists (S k). cbn. rewrite IH at 1. reflexivity.
      * exists k. cbn. rewrite IH at 1. reflexivity.
    + exists k. cbn. rewrite IH at 1. reflexivity.
Qed.

Lemma rstrip_slash_end (s : str) : os.path.ends_with_sep (rstrip_slash s) = false.
Proof.
  induction s as [| c s IH]; [reflexivity |].
  cbn [rstrip_slash]. destruct (rstrip_slash s) as [| c' r] eqn:E.
  - destruct (os.path.is_sep c) eqn:Ec; [reflexivity |]. cbn. exact Ec.
  - exact IH.
Qed.

Lemma replace_backslash_clean (s : str) : ~ In "\"%char (replace_backslash s).
Proof.
  unfold replace_backslash. rewrite in_map_iff. intros [c [E _]].
  destruct (ascii_dec c "\"%char); [discriminate | congruence].
Qed.

Lemma visits_records (f : fsys) (dir : str) (base_url : json) :
  forall (items : list (str * str * str)) (files0 files : list json) (lines : list str),
    visits f dir base_url items files0 = (Ok files, lines) ->
    exists recs,
      files = files0 ++ recs /\
      Forall2 (fun it r => exists line, visit f dir base_url it = Ok (r, line)) items recs.
Proof.
  induction items as [| it items IH]; intros files0 files lines E.
  - cbn in E. inversion E. exists []. rewrite app_nil_r. split; constructor.
  - cbn [visits] in E.
    destruct (visit f dir base_url it) as [[r line] | e | code |] eqn:Ev; try discriminate.
    destruct (visits f dir base_url items (files0 ++ [r])) as [out lines'] eqn:Er.
    inversion E; subst out lines. destruct (IH _ _ _ Er) as (recs & -> & Hall).
    exists (r :: recs). rewrite <- app_assoc. split; [reflexivity |].
    constructor; [exists line; exact Ev | exact Hall].
Qed.

Lemma visit_ok_shape (f : fsys) (dir : str) (base_url : json) (it : str * str * str)
  (r : json) (line : str) :
  visit f dir base_url it = Ok (r, line) ->
  exists u rel sha256 size,
    base_url = JString u /\
    os.path.relpath (os.getcwd f) (os.path.join (snd (fst it)) (snd it)) dir = Ok rel /\
    os.getsize f (os.path.join (snd (fst it)) (snd it)) = Ok size /\
    hash_of f 8192 (os.path.join (snd (fst it)) (snd it)) = Ok sha256 /\
    r = file_record (replace_backslash rel) sha256
          (rstrip_slash u ++ "/" ++ replace_backslash rel) size.
Proof.
  destruct it as [[scan_dir root] filename]. unfold visit. cbn [fst snd].
  destruct (os.path.relpath _ _ dir) as [rel | e | code |]; try discriminate.
  cbn [rbind]. destruct (os.getsize f _) as [size | e | code |]; try discriminate.
  cbn [rbind]. destruct (hash_of f 8192 _) as [sha | e | code |]; try discriminate.
  cbn [rbind]. destruct base_url; try discriminate.
  cbn [rbind]. intros E. inversion E. exists s, rel, sha, size. repeat split.
Qed.

Lemma scan_files_ok_dir (base_dir base_url : json) (w w' : world) (files : list json) :
  scan_files base_dir base_url w = (Ok files, w') -> exists dir, base_dir = JString dir.
Proof.
  intros E. destruct base_dir; try (rewrite scan_files_not_a_path in E;
    [discriminate | intros ? ?; discriminate]).
  exists s. reflexivity.
Qed.

Lemma Forall2_pick_r {A B : Type} (R : A -> B -> Prop) (l : list A) (l' : list B) :
  Forall2 R l l' -> forall y, In y l' -> exists x, In x l /\ R x y.
Proof.
  induction 1 as [| x y0 l l' Hxy _ IH]; intros y Hin; [contradiction |].
  destruct Hin as [<- | Hin].
  - exists x. split; [left; reflexivity | exact Hxy].
  - destruct (IH y Hin) as (x' & Hx' & HR). exists x'. split; [right; exact Hx' | exact HR].
Qed.

(** The records of a scan that returns, one per visited file. *)
Lemma scan_files_records (dir : str) (base_url : json) (w w' : world) (files : list json) :
  scan_files (JString dir) base_url w = (Ok files, w') ->
  Forall2 (fun it r => exists line, visit (fs w) dir base_url it = Ok (r, line))
          (scanned (fs w) dir) files /\ fs w' = fs w.
Proof.
  rewrite scan_files_visits. intros E.
  destruct (visits (fs w) dir base_url (scanned (fs w) dir) []) as [out lines] eqn:Ev.
  cbn [fst snd] in E. inversion E; subst out. cbn [fs]. split; [| reflexivity].
  destruct (visits_records _ _ _ _ _ _ _ Ev) as (recs & -> & Hall). exact Hall.
Qed.

(** ** The keys of a record and of a manifest *)

Lemma file_record_fields (rel_path sha256 url : str) (size : Z) :
  field (file_record rel_path sha256 url size) "path" = Some (JString rel_path) /\
  field (file_record rel_path sha256 url size) "sha256" = Some (JString sha256) /\
  field (file_record rel_path sha256 url size) "url" = Some (JString url) /\
  field (file_record rel_path sha256 url size) "size" = Some (JInt size) /\
  field (file_record rel_path sha256 url size) "required" = Some (JBool true).
Proof. repeat split. Qed.


(** C2. In every record [scan_files] returns, the value of [url] is the
    base URL without its trailing slashes, one slash, and the value of
    [path] of the same record; and that [path] holds no backslash: its
    separators are forward slashes, whatever the separator of the
    host. *)
Theorem record_url_and_path (base_dir base_url : json) (w w' : world) (files : list json) :
  scan_files base_dir base_url w = (Ok files, w') ->
  forall r, In r files ->
  exists u rel_path k,
    base_url = JString u /\
    field r "path" = Some (JString rel_path) /\
    field r "url" = Some (JString (rstrip_slash u ++ "/" ++ rel_path)) /\
    u = rstrip_slash u ++ repeat "/"%char k /\
    os.path.ends_with_sep (rstrip_slash u) = false /\
    ~ In "\"%char rel_path.
Proof.
  intros E r Hin.
  destruct (scan_files_ok_dir _ _ _ _ _ E) as [dir ->].
  destruct (scan_files_records _ _ _ _ _ E) as [Hall _].
  destruct (Forall2_pick_r _ _ _ Hall r Hin) as (it & _ & line & Hv).
  destruct (visit_ok_shape _ _ _ _ _ _ Hv) as (u & rel & sha & size & -> & _ & _ & _ & ->).
  destruct (rstrip_slash_split u) as [k Hk].
  destruct (file_record_fields (replace_backslash rel) sha
              (rstrip_slash u ++ "/" ++ replace_backslash rel) size)
    as (Hpath & _ & Hurl & _).
  exists u, (replace_backslash rel), k.
  split; [reflexivity |]. split; [exact Hpath |]. split; [exact Hurl |].
  split; [exact Hk |].
  split; [apply rstrip_slash_end | apply replace_backslash_clean].
Qed.

(** ** Reading back what was written *)

Lemma str_eqb_refl (a : str) : str_eqb a a = true.
Proof. unfold str_eqb. destruct (list_eq_dec ascii_dec a a); congruence. Qed.

Lemma str_eqb_eq (a b : str) : str_eqb a b = true -> a = b.
Proof. unfold str_eqb. destruct (list_eq_dec ascii_dec a b); [trivial | discriminate]. Qed.

Lemma str_eqb_neq (a b : str) : a <> b -> str_eqb a b = false.
Proof. unfold str_eqb. destruct (list_eq_dec ascii_dec a b); [contradiction | reflexivity]. Qed.

Lemma assoc_set_entry_same (k : str) (v0 v : node) (es : list (str * node)) :
  assoc k es = Some v0 -> assoc k (set_entry k v es) = Some v.
Proof.
  induction es as [| [k' v'] es IH]; [discriminate |]. cbn [assoc set_entry].
  destruct (str_eqb k k') eqn:E; cbn [assoc]; rewrite E; [reflexivity | exact IH].
Qed.

Lemma assoc_set_entry_other (k k' : str) (v : node) (es : list (str * node)) :
  k' <> k -> assoc k' (set_entry k v es) = assoc k' es.
Proof.
  intros Hne. induction es as [| [k0 v0] es IH]; [reflexivity |]. cbn [assoc set_entry].
  destruct (str_eqb k k0) eqn:E; cbn [assoc].
  - apply str_eqb_eq in E. subst k0. rewrite (str_eqb_neq _ _ Hne). reflexivity.
  - rewrite IH. reflexivity.
Qed.

Lemma assoc_app_new {A : Type} (k : str) (v : A) (es : list (str * A)) :
  assoc k es = None -> assoc k (es ++ [(k, v)]) = Some v.
Proof.
  induction es as [| [k' v'] es IH]; cbn [assoc app].
  - rewrite str_eqb_refl. reflexivity.
  - destruct (str_eqb k k'); [discriminate | exact IH].
Qed.

Lemma assoc_app_other {A : Type} (k k' : str) (v : A) (es : list (str * A)) :
  k' <> k -> assoc k' (es ++ [(k, v)]) = assoc k' es.
Proof.
  intros Hne. induction es as [| [k0 v0] es IH]; cbn [assoc app].
  - rewrite (str_eqb_neq _ _ Hne). reflexivity.
  - destruct (str_eqb k' k0); [reflexivity | exact IH].
Qed.

Lemma get_put_same (new : node) :
  forall (comps : list str) (n n' : node),
    put n comps new = Some n' -> get n' comps = Some new.
Proof.
  induction comps as [| c cs IH]; intros n n' E.
  - cbn in E. inversion E. reflexivity.
  - cbn [put] in E. destruct n as [d flt | es]; [discriminate |].
    destruct (assoc c es) as [child |] eqn:Ec.
    + destruct (put child cs new) as [child' |] eqn:Ep; [| discriminate].
      inversion E. cbn [get]. rewrite (assoc_set_entry_same c child child' es Ec).
      apply (IH child child' Ep).
    + destruct cs; [| discriminate]. inversion E. cbn [get].
      rewrite (assoc_app_new c new es Ec). reflexivity.
Qed.

(** Putting a regular file where no directory was leaves every
    directory a directory and makes no new one. *)
Lemma is_dir_put_file (data : list byte) (flt : fault) :
  forall (comps : list str) (n n' : node),
    put n comps (File data flt) = Some n' ->
    is_dir_at n comps = false ->
    forall q, is_dir_at n' q = is_dir_at n q.
Proof.
  induction comps as [| c cs IH]; intros n n' E Hnd q.
  - cbn in E. inversion E. unfold is_dir_at in Hnd. cbn in Hnd.
    destruct n as [d f | es]; [| discriminate]. unfold is_dir_at. destruct q; reflexivity.
  - cbn [put] in E. destruct n as [d f | es]; [discriminate |].
    destruct q as [| c' qs]; [destruct (assoc c es) as [child |];
      [destruct (put child cs (File data flt)); [inversion E; reflexivity | discriminate]
      | destruct cs; [inversion E; reflexivity | discriminate]] |].
    unfold is_dir_at in *. cbn [get] in *.
    destruct (list_eq_dec ascii_dec c' c) as [-> | Hne].
    + destruct (assoc c es) as [child |] eqn:Ec.
      * destruct (put child cs (File data flt)) as [child' |] eqn:Ep; [| discriminate].
        inversion E. cbn [get].
        rewrite (assoc_set_entry_same c child child' es Ec).
        apply (IH child child' Ep Hnd qs).
      * destruct cs; [| discriminate]. inversion E. cbn [get].
        rewrite (assoc_app_new c (File data flt) es Ec). destruct qs; reflexivity.
    + destruct (assoc c es) as [child |] eqn:Ec.
      * destruct (put child cs (File data flt)) as [child' |] eqn:Ep; [| discriminate].
        inversion E. cbn [get]. rewrite (assoc_set_entry_other c c' child' es Hne). reflexivity.
      * destruct cs; [| discriminate]. inversion E. cbn [get].
        rewrite (assoc_app_other c c' (File data flt) es Hne). reflexivity.
Qed.

Lemma resolve_same_dirs (n n' : node) :
  (forall q, is_dir_at n' q = is_dir_at n q) ->
  forall comps cur, os.resolve n' cur comps = os.resolve n cur comps.
Proof.
  intros Hd. induction comps as [| c cs IH]; intros cur; [reflexivity |].
  cbn [os.resolve]. rewrite Hd. destruct (is_dir_at n cur); [| reflexivity].
  rewrite !IH. reflexivity.
Qed.

(** A file that was written is there to be read. *)
Lemma write_file_stat (f f' : fsys) (p : str) (data : list byte) :
  os.write_file f p data = Ok f' ->
  os.stat f' p = Some (File data NoFault) /\ cwd f' = cwd f.
Proof.
  unfold os.write_file, os.stat. destruct (os.locate f p) as [comps |] eqn:El; [| discriminate].
  intros E.
  assert (Hnd : is_dir_at (root f) comps = false).
  { unfold is_dir_at. destruct (get (root f) comps) as [[? ? | ?] |];
      [reflexivity | discriminate | reflexivity]. }
  destruct (put (root f) comps (File data NoFault)) as [r |] eqn:Ep;
    [| destruct (get (root f) comps) as [[? ? | ?] |]; discriminate].
  assert (Ef : f' = FS r (cwd f)).
  { destruct (get (root f) comps) as [[? ? | ?] |]; inversion E; reflexivity. }
  subst f'. cbn [cwd]. split; [| reflexivity].
  assert (El' : os.locate (FS r (cwd f)) p = Some comps).
  { unfold os.locate in *. destruct p; [discriminate |]. cbn [root cwd].
    rewrite (resolve_same_dirs (root f) r (is_dir_put_file _ _ _ _ _ Ep Hnd)). exact El. }
  rewrite El'. cbn [root]. apply (get_put_same _ _ _ _ Ep).
Qed.

(** ** [generate], part by part *)

Section Generate.

Context {RT : Runtime}.

Lemma generate_unfold (items : list (str * json)) (base_dir base_url mc_version : json)
  (w : world) :
  assoc "dir" items = Some base_dir ->
  assoc "base_url" items = Some base_url ->
  assoc "mc_version" items = Some mc_version ->
  generate (JObject items) w =
  bind (scan_files base_dir base_url) (finish items base_dir mc_version)
       (World (fs w) (stdout w ++ header items base_dir base_url mc_version)).
Proof.
  intros Hd Hu Hv.
  unfold generate, finish, manifest_for, header, bind, getitem, get_or, print, ret.
  unfold loader_type_of, loader_version_of, java_args_of, server_address_of, setting.
  rewrite Hd, Hu, Hv. cbn [fs stdout].
  repeat rewrite <- app_assoc. cbn [app]. reflexivity.
Qed.

Lemma generate_ok_config (config : json) (w w' : world) :
  generate config w = (Ok tt, w') ->
  exists items base_dir base_url mc_version,
    config = JObject items /\
    assoc "dir" items = Some base_dir /\
    assoc "base_url" items = Some base_url /\
    assoc "mc_version" items = Some mc_version.
Proof.
  intros E. destruct config as [| b | z | x | s | l | items]; try discriminate E.
  exists items. unfold generate in E.
  unfold bind at 1 in E. unfold getitem at 1 in E.
  destruct (assoc "dir" items) as [base_dir |]; [| discriminate E].
  unfold bind at 1 in E. unfold getitem at 1 in E.
  destruct (assoc "base_url" items) as [base_url |]; [| discriminate E].
  unfold bind at 1 in E. unfold getitem at 1 in E.
  destruct (assoc "mc_version" items) as [mc_version |]; [| discriminate E].
  exists base_dir, base_url, mc_version. repeat split.
Qed.

Lemma finish_ok (items : list (str * json)) (base_dir mc_version : json)
  (files : list json) (w w' : world) :
  finish items base_dir mc_version files w = (Ok tt, w') ->
  exists dir f1,
    base_dir = JString dir /\
    os.makedirs (fs w) dir = Ok f1 /\
    os.write_file f1 (os.path.join dir "manifest.json")
      (encode (json_dump (manifest_for items mc_version files))) = Ok (fs w').
Proof.
  intros E. unfold finish in E.
  apply bind_ok in E. destruct E as (u0 & w0 & E0 & E).
  unfold print in E0. inversion E0; subst u0 w0. clear E0.
  apply bind_ok in E. destruct E as (dir & w1 & E1 & E).
  destruct base_dir as [| b | z | x | s | l | l]; try discriminate E1.
  unfold as_path, ret in E1. inversion E1; subst dir w1. clear E1.
  apply bind_ok in E. destruct E as (u2 & w2 & E2 & E).
  unfold act in E2. cbn [fs stdout] in E2.
  destruct (os.makedirs (fs w) s) as [f1 | e | code |] eqn:Emk; try discriminate E2.
  inversion E2; subst u2 w2. clear E2.
  apply bind_ok in E. destruct E as (u3 & w3 & E3 & E).
  unfold act in E3. cbn [fs stdout] in E3.
  match type of E3 with
  | context [os.write_file f1 ?p ?d] =>
      destruct (os.write_file f1 p d) as [f2 | e | code |] eqn:Ew; try discriminate E3
  end.
  inversion E3; subst u3 w3. clear E3.
  unfold bind, print in E. cbn [fs stdout] in E. inversion E. cbn [fs].
  exists s, f1. repeat split; [exact Emk | exact Ew].
Qed.

(** A run of [generate] that returns has scanned the base directory and
    left the manifest of the scanned files in [manifest.json]. *)
Lemma generate_ok_manifest (config : json) (w w' : world) :
  generate config w = (Ok tt, w') ->
  exists items dir base_url mc_version files,
    config = JObject items /\
    assoc "dir" items = Some (JString dir) /\
    assoc "base_url" items = Some base_url /\
    assoc "mc_version" items = Some mc_version /\
    Forall2 (fun it r => exists line, visit (fs w) dir base_url it = Ok (r, line))
            (scanned (fs w) dir) files /\
    os.stat (fs w') (os.path.join dir "manifest.json") =
      Some (File (encode (json_dump (manifest_for items mc_version files))) NoFault).
Proof.
  intros E.
  destruct (generate_ok_config _ _ _ E) as (items & base_dir & base_url & mc & -> & Hd & Hu & Hv).
  rewrite (generate_unfold _ _ _ _ _ Hd Hu Hv) in E.
  apply bind_ok in E. destruct E as (files & w1 & Escan & Efin).
  destruct (finish_ok _ _ _ _ _ _ Efin) as (dir & f1 & -> & Hmk & Hwr).
  destruct (scan_files_records _ _ _ _ _ Escan) as [Hall Hfs]. cbn [fs] in Hall.
  exists items, dir, base_url, mc, files. repeat split; try assumption.
  apply (write_file_stat _ _ _ _ Hwr).
Qed.

End Generate.

(** ** Defaults *)



Lemma record_url_and_path_witness :
  exists u rel_path k,
    JString "http://example.com/pack//" = JString u /\
    field (JObject [("path", JString "mods/a.jar");
                    ("sha256", JString (SHA256.sha256_hex (bytes "test")));
                    ("url", JString "http://example.com/pack/mods/a.jar");
                    ("size", JInt 4);
                    ("required", JBool true)]) "path" = Some (JString rel_path) /\
    field (JObject [("path", JString "mods/a.jar");
                    ("sha256", JString (SHA256.sha256_hex (bytes "test")));
                    ("url", JString "http://example.com/pack/mods/a.jar");
                    ("size", JInt 4);
                    ("required", JBool true)]) "url" =
      Some (JString (rstrip_slash u ++ "/" ++ rel_path)) /\
    u = rstrip_slash u ++ repeat "/"%char k /\
    os.path.ends_with_sep (rstrip_slash u) = false /\
    ~ In "\"%char rel_path.
Proof.
  apply (record_url_and_path (JString "pack") (JString "http://example.com/pack//")
           (World pack_fs [])
           (World pack_fs ["  [mods] a.jar (4 bytes)"; "  [config] settings.txt (0 bytes)"])
           [JObject [("path", JString "mods/a.jar");
                     ("sha256", JString (SHA256.sha256_hex (bytes "test")));
                     ("url", JString "http://example.com/pack/mods/a.jar");
                     ("size", JInt 4);
                     ("required", JBool true)];
            JObject [("path", JString "config/settings.txt");
                     ("sha256", JString (SHA256.sha256_hex []));
                     ("url", JString "http://example.com/pack/config/settings.txt");
                     ("size", JInt 0);
                     ("required", JBool true)]]).
  - vm_compute. reflexivity.
  - left. reflexivity.
Defined.

(** ** Trees *)

Lemma node_induction (P : node -> Prop) :
  (forall content flt, P (File content flt)) ->
  (forall es, Forall (fun e => P (snd e)) es -> P (Dir es)) ->
  forall n, P n.
Proof.
  intros Hfile Hdir. fix IH 1. intros [content flt | es].
  - apply Hfile.
  - apply Hdir. induction es as [| [name child] es IHes]; constructor.
    + apply IH.
    + exact IHes.
Qed.

Lemma walk_node_dir (top : str) (es : list (str * node)) :
  os.walk_node top (Dir es) =
  (top, os.dirnames es, os.filenames es) ::
  flat_map (fun e => os.walk_node (os.path.join top (fst e)) (snd e)) es.
Proof.
  cbn [os.walk_node]. f_equal.
  induction es as [| [name child] es IH]; [reflexivity |].
  cbn [flat_map fst snd]. rewrite IH. reflexivity.
Qed.

Lemma join_nonempty (a b : str) : a <> [] -> os.path.join a b <> [].
Proof.
  intros Ha. unfold os.path.join. destruct (os.path.isabs b) eqn:Eb.
  - destruct b; [discriminate | discriminate].
  - destruct a; [congruence |].
    destruct (negb (os.path.nonempty (a :: a0)) || os.path.ends_with_sep (a :: a0));
      discriminate.
Qed.

Lemma walk_node_roots :
  forall n top, top <> [] -> Forall (fun item => fst (fst item) <> []) (os.walk_node top n).
Proof.
  induction n as [content flt | es IH] using node_induction; intros top Htop.
  - constructor.
  - rewrite walk_node_dir. constructor; [exact Htop |].
    rewrite Forall_forall. intros item Hin. rewrite in_flat_map in Hin.
    destruct Hin as (e & He & Hitem). rewrite Forall_forall in IH.
    pose proof (IH e He (os.path.join top (fst e)) (join_nonempty top (fst e) Htop)) as Hall.
    rewrite Forall_forall in Hall. apply (Hall item Hitem).
Qed.

Lemma scan_dir_nonempty (d : str) : In d SCAN_DIRS -> d <> [].
Proof. cbn. intros [<- | [<- | [<- | [<- | []]]]]; discriminate. Qed.

Lemma join_name_nonempty (a b : str) : b <> [] -> os.path.join a b <> [].
Proof.
  intros Hb. unfold os.path.join. destruct (os.path.isabs b); [exact Hb |].
  destruct (negb (os.path.nonempty a) || os.path.ends_with_sep a);
    destruct a; destruct b; try congruence; discriminate.
Qed.

(** The directories [os.walk] reports to the scan have names. *)
Lemma scanned_roots (f : fsys) (dir : str) (it : str * str * str) :
  In it (scanned f dir) -> snd (fst it) <> [].
Proof.
  unfold scanned. rewrite in_flat_map. intros (d & Hd & Hin).
  unfold scanned_in in Hin. destruct (os.isdir f (os.path.join dir d)); [| contradiction].
  rewrite in_flat_map in Hin. destruct Hin as (item & Hitem & Hin).
  rewrite in_map_iff in Hin. destruct Hin as (fn & <- & _). cbn [fst snd].
  unfold os.walk in Hitem. destruct (os.stat f (os.path.join dir d)) as [n |]; [| contradiction].
  pose proof (walk_node_roots n (os.path.join dir d)
                (join_name_nonempty dir d (scan_dir_nonempty d Hd))) as Hall.
  rewrite Forall_forall in Hall. apply (Hall item Hitem).
Qed.

(** ** Errors of reading *)

Lemma read_chunks_io (size : nat) :
  forall fuel h x, length (os.rest h) < fuel -> io_outcome (read_chunks fuel size h x).
Proof.
  induction fuel as [| fuel IH]; intros h x Hfuel; [lia |].
  cbn [read_chunks]. unfold os.read.
  assert (Hstep : io_outcome
            match firstn size (os.rest h) with
            | [] => Ok x
            | _ :: _ =>
                read_chunks fuel size
                  (os.RFile (skipn size (os.rest h)) (os.rflt h) (S (os.nreads h)))
                  (SHA256.update x (firstn size (os.rest h)))
            end).
  { destruct (firstn size (os.rest h)) as [| b chunk] eqn:Echunk; [exact I |].
    rewrite <- Echunk. apply IH. cbn [os.rest].
    assert (Hsize : 1 <= size) by (destruct size; [discriminate | lia]).
    assert (Hrest : os.rest h <> []) by (intros E; rewrite E, firstn_nil in Echunk; discriminate).
    pose proof (skipn_shorter size (os.rest h) Hsize Hrest). lia. }
  destruct (os.rflt h) as [| | k]; try exact Hstep.
  destruct (Nat.eqb k (os.nreads h)); [exact I | exact Hstep].
Qed.

Lemma hash_of_io (f : fsys) (size : nat) (p : str) : io_outcome (hash_of f size p).
Proof.
  unfold hash_of, os.open_r.
  destruct (os.stat f p) as [[content flt | es] |]; try exact I.
  assert (Hrun : forall h : os.rfile, os.rest h = content ->
            io_outcome (rbind (read_chunks (S (length (os.rest h))) size h SHA256.new)
                          (fun x => Ok (SHA256.hexdigest x)))).
  { intros h _. pose proof (read_chunks_io size (S (length (os.rest h))) h SHA256.new
                              (Nat.lt_succ_diag_r _)) as Hio.
    destruct (read_chunks _ size h SHA256.new) as [x | [n | | | | |] | code |];
      try exact I; try contradiction. }
  destruct flt; cbn [rbind]; try exact I; apply Hrun; reflexivity.
Qed.

Lemma relpath_ok (cwd p start : str) :
  p <> [] -> exists rel, os.path.relpath cwd p start = Ok rel.
Proof.
  intros Hp. unfold os.path.relpath. destruct p as [| c p]; [congruence |].
  match goal with
  | |- context [match ?l with [] => _ | _ :: _ => _ end] => destruct l
  end; eexists; reflexivity.
Qed.

Lemma getsize_io (f : fsys) (p : str) : io_outcome (os.getsize f p).
Proof. unfold os.getsize. destruct (os.stat f p) as [[? ? | ?] |]; exact I. Qed.

Lemma visit_io (f : fsys) (dir u : str) (it : str * str * str) :
  snd (fst it) <> [] -> io_outcome (visit f dir (JString u) it).
Proof.
  destruct it as [[d root] fn]. cbn [fst snd]. intros Hroot. unfold visit.
  destruct (relpath_ok (os.getcwd f) (os.path.join root fn) dir (join_nonempty root fn Hroot))
    as [rel ->]. cbn [rbind].
  pose proof (getsize_io f (os.path.join root fn)) as Hsize.
  destruct (os.getsize f (os.path.join root fn)) as [size | e | code |];
    try exact Hsize. cbn [rbind].
  pose proof (hash_of_io f 8192 (os.path.join root fn)) as Hhash.
  destruct (hash_of f 8192 (os.path.join root fn)) as [sha | e | code |];
    exact Hhash.
Qed.

Lemma visit_hash_raises (f : fsys) (dir u : str) (it : str * str * str) (e : exn) :
  snd (fst it) <> [] ->
  hash_of f 8192 (os.path.join (snd (fst it)) (snd it)) = Raise e ->
  exists n, visit f dir (JString u) it = Raise (OSError n).
Proof.
  intros Hroot Hhash. pose proof (visit_io f dir u it Hroot) as Hio.
  destruct it as [[d root] fn]. cbn [fst snd] in *. unfold visit in *.
  destruct (os.path.relpath (os.getcwd f) (os.path.join root fn) dir) as [rel | e0 | code |];
    cbn [rbind] in *; try contradiction;
    [| destruct e0; try contradiction; eexists; reflexivity].
  destruct (os.getsize f (os.path.join root fn)) as [size | e0 | code |];
    cbn [rbind] in *; try contradiction;
    [| destruct e0; try contradiction; eexists; reflexivity].
  rewrite Hhash in *. cbn [rbind] in *.
  destruct e; try contradiction. eexists; reflexivity.
Qed.

Lemma visits_raise (f : fsys) (dir u : str) :
  forall (items : list (str * str * str)) (files : list json),
    (forall it, In it items -> io_outcome (visit f dir (JString u) it)) ->
    (exists it n, In it items /\ visit f dir (JString u) it = Raise (OSError n)) ->
    exists n lines, visits f dir (JString u) items files = (Raise (OSError n), lines).
Proof.
  induction items as [| it items IH]; intros files Hio (it0 & n0 & Hin & Hraise).
  - contradiction.
  - cbn [visits]. pose proof (Hio it (or_introl eq_refl)) as Hit.
    destruct (visit f dir (JString u) it) as [[r line] | e | code |] eqn:Ev;
      try contradiction.
    + destruct Hin as [-> | Hin]; [rewrite Hraise in Ev; discriminate |].
      destruct (IH (files ++ [r]) (fun x Hx => Hio x (or_intror Hx)))
        as (n & lines & E).
      { exists it0, n0. split; assumption. }
      rewrite E. exists n, (line :: lines). reflexivity.
    + destruct e; try contradiction. exists e, []. reflexivity.
Qed.

(** A file of the scan whose hashing raises makes the scan raise an
    [IOError], whatever was printed before; the file system is as it
    was. *)
Lemma scan_files_raises (dir u : str) (it : str * str * str) (e : exn) (w : world) :
  In it (scanned (fs w) dir) ->
  fst (sha256_file (os.path.join (snd (fst it)) (snd it)) w) = Raise e ->
  exists n,
    forall w0, fs w0 = fs w ->
      exists lines,
        scan_files (JString dir) (JString u) w0 =
          (Raise (IOError n), World (fs w) (stdout w0 ++ lines)).
Proof.
  intros Hin Hraise. rewrite sha256_file_hash_of in Hraise. cbn [fst] in Hraise.
  destruct (visits_raise (fs w) dir u (scanned (fs w) dir) []) as (n & lines & E).
  - intros x Hx. apply visit_io. apply (scanned_roots (fs w) dir x Hx).
  - destruct (visit_hash_raises (fs w) dir u it e (scanned_roots (fs w) dir it Hin) Hraise)
      as [n Hn].
    exists it, n. split; assumption.
  - exists n. intros w0 Hfs. exists lines.
    rewrite scan_files_visits, Hfs, E. reflexivity.
Qed.

(** C5. Where the hashing of a file of the scan raises an [IOError] (the
    file cannot be opened, or a read fails), nothing catches it:
    [scan_files], [generate] and [main] end with an [IOError] under way,
    the exit status is 1, and the file system is as it was, so no
    manifest was written. *)
Theorem io_error_aborts_run {RT : Runtime} (p : str) (w : world)
  (items : list (str * json)) (dir u : str) (mc_version : json)
  (it : str * str * str) (e : exn) :
  config_loads w p (JObject items) ->
  assoc "dir" items = Some (JString dir) ->
  assoc "base_url" items = Some (JString u) ->
  assoc "mc_version" items = Some mc_version ->
  In it (scanned (fs w) dir) ->
  fst (sha256_file (os.path.join (snd (fst it)) (snd it)) w) = Raise e ->
  exists n,
    fst (scan_files (JString dir) (JString u) w) = Raise (IOError n) /\
    fst (generate (JObject items) w) = Raise (IOError n) /\
    fs (snd (generate (JObject items) w)) = fs w /\
    fst (main p w) = Raise (IOError n) /\
    fs (snd (main p w)) = fs w /\
    exit_status (fst (main p w)) = Some 1%Z.
Proof.
  intros Hload Hd Hu Hv Hin Hraise.
  destruct (scan_files_raises dir u it e w Hin Hraise) as [n Hscan].
  exists n.
  destruct (Hscan w eq_refl) as [lines0 E0].
  destruct (Hscan (World (fs w) (stdout w ++ header items (JString dir) (JString u) mc_version))
              eq_refl) as [lines1 E1].
  assert (Egen : generate (JObject items) w =
                 (Raise (IOError n),
                  World (fs w)
                    (stdout (World (fs w)
                       (stdout w ++ header items (JString dir) (JString u) mc_version))
                     ++ lines1))).
  { rewrite (generate_unfold items _ _ _ w Hd Hu Hv). apply (bind_raise _ _ _ _ _ E1). }
  assert (Emain : main p w = generate (JObject items) w).
  { rewrite (main_loaded p w _ Hload). unfold bind at 1. rewrite required_check.
    unfold first_missing, required. cbn [find]. rewrite Hd, Hu, Hv. reflexivity. }
  rewrite Emain, Egen, E0. repeat split.
Qed.

Lemma io_error_aborts_run_witness :
  exists n,
    fst (main (RT := toy_runtime) default_config_path (World broken_pack [])) =
      Raise (IOError n) /\
    fs (snd (main (RT := toy_runtime) default_config_path (World broken_pack []))) =
      broken_pack /\
    exit_status (fst (main (RT := toy_runtime) default_config_path (World broken_pack []))) =
      Some 1%Z.
Proof.
  destruct (io_error_aborts_run (RT := toy_runtime) default_config_path (World broken_pack [])
              [("dir", JString "pack");
               ("base_url", JString "http://example.com/pack");
               ("mc_version", JString "1.20.1")]
              "pack" "http://example.com/pack" (JString "1.20.1")
              ("mods", "pack/mods", "big.bin") (OSError EIO))
    as (n & _ & _ & _ & E & Hfs & Hstatus).
  - exists (os.RFile [x20; x20] NoFault 0), [x20; x20], (os.RFile [] NoFault 1).
    repeat split.
  - reflexivity.
  - reflexivity.
  - reflexivity.
  - vm_compute. right. left. reflexivity.
  - vm_compute. reflexivity.
  - exists n. split; [exact E |]. split; [exact Hfs | exact Hstatus].
Defined.

(** ** Paths as lists of names *)

Lemma is_sep_true (c : ascii) : os.path.is_sep c = true -> c = os.path.sep.
Proof. unfold os.path.is_sep. destruct (ascii_dec c os.path.sep); [trivial | discriminate]. Qed.

Lemma is_sep_false (c : ascii) : c <> os.path.sep -> os.path.is_sep c = false.
Proof. unfold os.path.is_sep. destruct (ascii_dec c os.path.sep); [contradiction | reflexivity]. Qed.

Lemma split_sep_cons (s : str) : exists h t, os.path.split_sep s = h :: t.
Proof.
  induction s as [| c s (h & t & IH)]; cbn [os.path.split_sep].
  - exists [], []. reflexivity.
  - destruct (os.path.is_sep c); [eexists; eexists; reflexivity |].
    rewrite IH. eexists; eexists; reflexivity.
Qed.

Lemma split_sep_plain (s : str) : ~ In os.path.sep s -> os.path.split_sep s = [s].
Proof.
  induction s as [| c s IH]; intros Hno; [reflexivity |]. cbn [os.path.split_sep].
  rewrite is_sep_false by (intros ->; apply Hno; left; reflexivity).
  rewrite IH by (intros Hin; apply Hno; right; exact Hin). reflexivity.
Qed.

Lemma split_sep_app_sep (a b : str) :
  os.path.split_sep (a ++ os.path.sep :: b) = os.path.split_sep a ++ os.path.split_sep b.
Proof.
  induction a as [| c a IH]; [reflexivity |]. cbn [app os.path.split_sep].
  destruct (os.path.is_sep c); [rewrite IH; reflexivity |].
  rewrite IH. destruct (split_sep_cons a) as (h & t & ->). reflexivity.
Qed.

Lemma ends_with_sep_inv (a : str) :
  os.path.ends_with_sep a = true -> exists a', a = a' ++ [os.path.sep].
Proof.
  unfold os.path.ends_with_sep. destruct a as [| c a]; [discriminate |]. intros E.
  apply is_sep_true in E. exists (removelast (c :: a)).
  pose proof (@app_removelast_last _ (c :: a) os.path.sep ltac:(discriminate)) as Hl.
  rewrite E in Hl. exact Hl.
Qed.

Lemma plain_not_abs (name : str) : plain name -> os.path.isabs name = false.
Proof.
  intros (Hne & Hno & _). destruct name as [| c name]; [reflexivity |]. cbn.
  apply is_sep_false. intros ->. apply Hno. left. reflexivity.
Qed.

(** The names of [join a name] are the names of [a] and then [name]. *)
Lemma split_sep_join (a name : str) :
  plain name ->
  exists X,
    os.path.split_sep (os.path.join a name) = X ++ [name] /\
    (os.path.split_sep a = X \/ os.path.split_sep a = X ++ [[]]).
Proof.
  intros Hp. pose proof Hp as (Hne & Hno & _). unfold os.path.join.
  rewrite (plain_not_abs name Hp). destruct a as [| c a].
  - exists []. cbn [os.path.nonempty negb orb app]. rewrite (split_sep_plain name Hno).
    split; [reflexivity | right; reflexivity].
  - cbn [os.path.nonempty negb orb]. destruct (os.path.ends_with_sep (c :: a)) eqn:Ee.
    + destruct (ends_with_sep_inv _ Ee) as [a' ->]. exists (os.path.split_sep a').
      rewrite <- app_assoc. cbn [app]. rewrite !split_sep_app_sep.
      rewrite (split_sep_plain name Hno). split; [reflexivity | right; reflexivity].
    + exists (os.path.split_sep (c :: a)). rewrite split_sep_app_sep.
      rewrite (split_sep_plain name Hno). split; [reflexivity | left; reflexivity].
Qed.

Lemma isabs_join (a name : str) :
  a <> [] -> plain name -> os.path.isabs (os.path.join a name) = os.path.isabs a.
Proof.
  intros Ha Hp. unfold os.path.join. rewrite (plain_not_abs name Hp).
  destruct a as [| c a]; [congruence |].
  destruct (negb (os.path.nonempty (c :: a)) || os.path.ends_with_sep (c :: a)); reflexivity.
Qed.

Lemma resolve_app (r : node) :
  forall X Y cur,
    os.resolve r cur (X ++ Y) =
    match os.resolve r cur X with
    | Some c => os.resolve r c Y
    | None => None
    end.
Proof.
  induction X as [| x X IH]; intros Y cur; [reflexivity |]. cbn [app os.resolve].
  destruct (is_dir_at r cur); [| reflexivity]. rewrite !IH.
  destruct (str_eqb x [] || str_eqb x os.path.dot); [reflexivity |].
  destruct (str_eqb x os.path.dotdot); reflexivity.
Qed.

Lemma resolve_name (r : node) (cur : list str) (name : str) :
  plain name ->
  os.resolve r cur [name] = if is_dir_at r cur then Some (cur ++ [name]) else None.
Proof.
  intros (Hne & _ & Hdot & Hdd). cbn [os.resolve].
  rewrite (str_eqb_neq _ _ Hne), (str_eqb_neq _ _ Hdot), (str_eqb_neq _ _ Hdd). reflexivity.
Qed.

(** Where [a] is a directory, [join a name] is [name] in it. *)
Lemma locate_join (f : fsys) (a name : str) (B : list str) :
  plain name ->
  os.locate f a = Some B -> is_dir_at (root f) B = true ->
  os.locate f (os.path.join a name) = Some (B ++ [name]).
Proof.
  intros Hp Hloc Hdir. unfold os.locate in *. destruct a as [| c a]; [discriminate |].
  pose proof (join_nonempty (c :: a) name ltac:(discriminate)) as Hj.
  pose proof (isabs_join (c :: a) name ltac:(discriminate) Hp) as Habs.
  destruct (os.path.join (c :: a) name) as [| c' j] eqn:Ej; [congruence |].
  rewrite Habs. rewrite <- Ej.
  destruct (split_sep_join (c :: a) name Hp) as (X & -> & [HX | HX]); rewrite HX in Hloc.
  - rewrite resolve_app, Hloc, (resolve_name _ _ _ Hp), Hdir. reflexivity.
  - rewrite resolve_app in Hloc. rewrite resolve_app.
    destruct (os.resolve (root f) _ X) as [B' |]; [| discriminate].
    cbn [os.resolve] in Hloc. destruct (is_dir_at (root f) B') eqn:Ed; [| discriminate].
    cbn in Hloc. inversion Hloc; subst B'.
    rewrite (resolve_name _ _ _ Hp), Hdir. reflexivity.
Qed.

Lemma put_in_dir (new : node) (name : str) :
  forall (B : list str) (n : node),
    is_dir_at n B = true -> exists n', put n (B ++ [name]) new = Some n'.
Proof.
  induction B as [| c B IH]; intros n Hd; unfold is_dir_at in Hd; cbn [get] in Hd.
  - destruct n as [d flt | es]; [discriminate |]. cbn [app put].
    destruct (assoc name es); eexists; reflexivity.
  - destruct n as [d flt | es]; [discriminate |]. cbn [app put].
    destruct (assoc c es) as [child |]; [| discriminate].
    destruct (IH child Hd) as [child' ->]. eexists; reflexivity.
Qed.

(** A file can be written in a directory under a name that is no
    directory. *)
Lemma write_file_in_dir (f : fsys) (a name : str) (data : list byte) :
  plain name ->
  os.isdir f a = true ->
  os.isdir f (os.path.join a name) = false ->
  exists f', os.write_file f (os.path.join a name) data = Ok f'.
Proof.
  intros Hp Hdir Hnd. unfold os.isdir, os.stat in Hdir.
  destruct (os.locate f a) as [B |] eqn:Hloc; [| discriminate].
  assert (HB : is_dir_at (root f) B = true).
  { unfold is_dir_at. destruct (get (root f) B) as [[? ? | ?] |]; [discriminate | reflexivity | discriminate]. }
  pose proof (locate_join f a name B Hp Hloc HB) as Hj.
  unfold os.write_file. unfold os.isdir, os.stat in Hnd. rewrite Hj in *.
  destruct (put_in_dir (File data NoFault) name B (root f) HB) as [r Hput]. rewrite Hput.
  destruct (get (root f) (B ++ [name])) as [[? ? | ?] |]; [| discriminate |];
    eexists; reflexivity.
Qed.

(** ** Scan directories that are absent *)

Lemma plain_manifest_json : plain "manifest.json".
Proof.
  repeat split; try discriminate.
  intros H. cbn in H. repeat (destruct H as [H | H]; [discriminate H |]). exact H.
Qed.



Lemma scanned_none (f : fsys) (dir : str) :
  (forall d, In d SCAN_DIRS -> os.isdir f (os.path.join dir d) = false) ->
  scanned f dir = [].
Proof.
  intros Hnone. unfold scanned. induction SCAN_DIRS as [| d ds IH]; [reflexivity |].
  cbn [flat_map]. unfold scanned_in at 1. rewrite (Hnone d (or_introl eq_refl)).
  apply IH. intros d' Hd'. apply Hnone. right. exact Hd'.
Qed.

Section Absent.

Context {RT : Runtime}.

Lemma finish_in_dir (items : list (str * json)) (dir : str) (mc_version : json)
  (files : list json) (w : world) :
  os.isdir (fs w) dir = true ->
  os.isdir (fs w) (os.path.join dir "manifest.json") = false ->
  exists w',
    finish items (JString dir) mc_version files w = (Ok tt, w') /\
    os.stat (fs w') (os.path.join dir "manifest.json") =
      Some (File (encode (json_dump (manifest_for items mc_version files))) NoFault).
Proof.
  intros Hdir Hnd.
  destruct (write_file_in_dir (fs w) dir "manifest.json"
              (encode (json_dump (manifest_for items mc_version files)))
              plain_manifest_json Hdir Hnd) as [f' Hw].
  exists (World f' (((stdout w ++
            [newline :: "Found " ++ decimal (Z.of_nat (length files)) ++ " file(s)" ++ [newline]])
            ++ ["manifest.json saved to: " ++ os.path.join dir "manifest.json"]) ++ ["Done!"])).
  split; [| cbn [fs]; apply (write_file_stat _ _ _ _ Hw)].
  unfold finish, bind, print, as_path, ret, act. cbn [fs stdout].
  unfold os.makedirs. rewrite Hdir. cbn [fs stdout]. rewrite Hw. reflexivity.
Qed.


End Absent.



(** ** Paths of the records *)

Example clash_pack_paths :
  exists files w',
    scan_files (JString "pack") (JString "http://example.com/pack") (World clash_pack []) =
      (Ok files, w') /\
    map path_of files = [Some (JString "mods/a/b"); Some (JString "mods/a/b")].
Proof. eexists. eexists. split; vm_compute; reflexivity. Qed.

Lemma names_of_app_sep (a b : str) :
  names_of (a ++ os.path.sep :: b) = names_of a ++ names_of b.
Proof. unfold names_of. rewrite split_sep_app_sep, filter_app. reflexivity. Qed.

Lemma names_of_snoc_sep (a : str) : names_of (a ++ [os.path.sep]) = names_of a.
Proof. rewrite names_of_app_sep. cbn. apply app_nil_r. Qed.

Lemma names_of_join (a b : str) :
  os.path.isabs b = false -> names_of (os.path.join a b) = names_of a ++ names_of b.
Proof.
  intros Hb. unfold os.path.join. rewrite Hb. destruct a as [| c a]; [reflexivity |].
  cbn [os.path.nonempty negb orb]. destruct (os.path.ends_with_sep (c :: a)) eqn:Ee.
  - destruct (ends_with_sep_inv _ Ee) as [a' ->]. rewrite <- app_assoc. cbn [app].
    rewrite names_of_app_sep, names_of_snoc_sep. reflexivity.
  - apply names_of_app_sep.
Qed.

Lemma names_of_plain (c : str) : plain c -> names_of c = [c].
Proof.
  intros (Hne & Hno & _). unfold names_of. rewrite (split_sep_plain c Hno).
  destruct c; [congruence | reflexivity].
Qed.

Lemma names_of_joins (cs : list str) :
  Forall plain cs -> forall a, names_of (joins a cs) = names_of a ++ cs.
Proof.
  unfold joins. induction 1 as [| c cs Hc _ IH]; intros a; cbn [fold_left].
  - symmetry. apply app_nil_r.
  - rewrite IH, (names_of_join a c (plain_not_abs c Hc)), (names_of_plain c Hc).
    rewrite <- app_assoc. reflexivity.
Qed.

Lemma isabs_join_rel (a b : str) :
  a <> [] -> os.path.isabs b = false -> os.path.isabs (os.path.join a b) = os.path.isabs a.
Proof.
  intros Ha Hb. unfold os.path.join. rewrite Hb. destruct a as [| c a]; [congruence |].
  destruct (negb (os.path.nonempty (c :: a)) || os.path.ends_with_sep (c :: a)); reflexivity.
Qed.

Lemma isabs_joins (cs : list str) :
  Forall plain cs -> forall a, a <> [] -> os.path.isabs (joins a cs) = os.path.isabs a.
Proof.
  unfold joins. induction 1 as [| c cs Hc _ IH]; intros a Ha; cbn [fold_left]; [reflexivity |].
  rewrite (IH _ (join_nonempty a c Ha)). apply (isabs_join_rel a c Ha (plain_not_abs c Hc)).
Qed.

Lemma joins_nonempty (cs : list str) : forall a, a <> [] -> joins a cs <> [].
Proof.
  unfold joins. induction cs as [| c cs IH]; intros a Ha; cbn [fold_left]; [exact Ha |].
  apply IH. apply (join_nonempty a c Ha).
Qed.

(** *** [normpath] on the names *)

Lemma rooted_isabs (p : str) :
  negb (Nat.eqb (os.path.initial_slashes p) 0) = os.path.isabs p.
Proof.
  unfold os.path.initial_slashes, os.path.isabs.
  destruct p as [| c1 p]; [reflexivity |]. cbn [starts_with].
  unfold os.path.is_sep. destruct (ascii_dec os.path.sep c1) as [<- | Hne].
  - destruct (ascii_dec os.path.sep os.path.sep); [| congruence].
    destruct p as [| c2 p]; [reflexivity |].
    destruct (ascii_dec os.path.sep c2); [| reflexivity].
    destruct p as [| c3 p]; [reflexivity |].
    destruct (ascii_dec os.path.sep c3); reflexivity.
  - destruct (ascii_dec c1 os.path.sep); [congruence | reflexivity].
Qed.

Lemma norm_fold_names (b : bool) (l : list str) :
  forall acc,
    fold_left (os.path.norm_step b) l acc =
    fold_left (os.path.norm_step b) (filter os.path.nonempty l) acc.
Proof.
  induction l as [| c l IH]; intros acc; [reflexivity |]. cbn [fold_left filter].
  destruct c as [| x c]; cbn [os.path.nonempty].
  - unfold os.path.norm_step at 2. rewrite str_eqb_refl. cbn [orb]. apply IH.
  - cbn [fold_left]. apply IH.
Qed.

Lemma norm_step_plain (b : bool) (acc : list str) (c : str) :
  plain c -> os.path.norm_step b acc c = acc ++ [c].
Proof.
  intros (Hne & _ & Hdot & Hdd). unfold os.path.norm_step.
  rewrite (str_eqb_neq _ _ Hne), (str_eqb_neq _ _ Hdot), (str_eqb_neq _ _ Hdd). reflexivity.
Qed.

Lemma norm_fold_plain (b : bool) (cs : list str) :
  Forall plain cs ->
  forall l acc,
    fold_left (os.path.norm_step b) (l ++ cs) acc =
    fold_left (os.path.norm_step b) l acc ++ cs.
Proof.
  intros Hcs l acc. rewrite fold_left_app.
  generalize (fold_left (os.path.norm_step b) l acc). clear l acc.
  induction Hcs as [| c cs Hc _ IH]; intros acc; cbn [fold_left].
  - symmetry. apply app_nil_r.
  - rewrite (norm_step_plain b acc c Hc), IH, <- app_assoc. reflexivity.
Qed.

Lemma plain_clean (c : str) : plain c -> clean c.
Proof. intros (Hne & Hno & _). split; assumption. Qed.

Lemma split_sep_no_sep (s : str) :
  Forall (fun c => ~ In os.path.sep c) (os.path.split_sep s).
Proof.
  induction s as [| c s IH]; cbn [os.path.split_sep].
  - constructor; [intros [] | constructor].
  - destruct (os.path.is_sep c) eqn:Ec.
    + constructor; [intros [] | exact IH].
    + destruct (os.path.split_sep s) as [| h t]; [constructor; [| constructor] |].
      * intros [-> | []]. discriminate Ec.
      * inversion IH as [| ? ? Hh Ht]; subst. constructor; [| exact Ht].
        intros [-> | Hin]; [discriminate Ec | exact (Hh Hin)].
Qed.

Lemma names_of_clean (s : str) : Forall clean (names_of s).
Proof.
  unfold names_of. rewrite Forall_forall. intros c Hin. apply filter_In in Hin.
  destruct Hin as [Hin Hne]. pose proof (split_sep_no_sep s) as Hall.
  rewrite Forall_forall in Hall. split; [| exact (Hall c Hin)].
  destruct c; [discriminate | discriminate].
Qed.

Lemma Forall_removelast {A : Type} (P : A -> Prop) (l : list A) :
  Forall P l -> Forall P (removelast l).
Proof.
  induction 1 as [| x l Hx Hl IH]; [constructor |]. cbn [removelast].
  destruct l; [constructor | constructor; assumption].
Qed.

Lemma norm_step_clean (b : bool) (acc : list str) (c : str) :
  Forall clean acc -> clean c -> Forall clean (os.path.norm_step b acc c).
Proof.
  intros Hacc Hc. unfold os.path.norm_step.
  destruct (str_eqb c [] || str_eqb c os.path.dot); [exact Hacc |].
  match goal with |- context [if ?t then _ else _] => destruct t end.
  - apply Forall_app. split; [exact Hacc | constructor; [exact Hc | constructor]].
  - apply Forall_removelast. exact Hacc.
Qed.

Lemma norm_fold_clean (b : bool) (l : list str) :
  Forall clean l -> forall acc, Forall clean acc ->
  Forall clean (fold_left (os.path.norm_step b) l acc).
Proof.
  induction 1 as [| c l Hc _ IH]; intros acc Hacc; cbn [fold_left]; [exact Hacc |].
  apply IH. apply norm_step_clean; assumption.
Qed.

Lemma names_of_clean_one (c : str) : clean c -> names_of c = [c].
Proof.
  intros (Hne & Hno). unfold names_of. rewrite (split_sep_plain c Hno).
  destruct c; [congruence | reflexivity].
Qed.

Lemma names_of_sep_join (L : list str) : Forall clean L -> names_of (os.path.sep_join L) = L.
Proof.
  induction 1 as [| c L Hc HL IH]; [reflexivity |]. cbn [os.path.sep_join].
  destruct L as [| c2 L]; [apply (names_of_clean_one c Hc) |].
  rewrite names_of_app_sep, (names_of_clean_one c Hc), IH. reflexivity.
Qed.

Lemma names_of_slashes (k : nat) (x : str) :
  names_of (repeat os.path.sep k ++ x) = names_of x.
Proof.
  induction k as [| k IH]; [reflexivity |]. cbn [repeat app].
  change (os.path.sep :: repeat os.path.sep k ++ x)
    with ([] ++ os.path.sep :: (repeat os.path.sep k ++ x)).
  rewrite names_of_app_sep. exact IH.
Qed.

Lemma names_of_normpath (p : str) :
  os.path.isabs p = true ->
  names_of (os.path.normpath p) =
  fold_left (os.path.norm_step true) (names_of p) [].
Proof.
  intros Habs. pose proof (rooted_isabs p) as Hr. rewrite Habs in Hr.
  unfold os.path.normpath. destruct p as [| c p]; [discriminate |].
  unfold os.path.norm_comps. rewrite Hr.
  destruct (os.path.initial_slashes (c :: p)) as [| k]; [discriminate |].
  cbn [repeat app]. rewrite norm_fold_names. fold (names_of (c :: p)).
  change (os.path.sep :: repeat os.path.sep k ++
          os.path.sep_join (fold_left (os.path.norm_step true) (names_of (c :: p)) []))
    with (repeat os.path.sep (S k) ++
          os.path.sep_join (fold_left (os.path.norm_step true) (names_of (c :: p)) [])).
  rewrite names_of_slashes. apply names_of_sep_join.
  apply norm_fold_clean; [apply names_of_clean | constructor].
Qed.

(** The names of [abspath(p)] are the normalised names of the working
    directory, where [p] is relative, and of [p]. *)
Lemma names_of_abspath (cwd p : str) :
  os.path.isabs cwd = true ->
  names_of (os.path.abspath cwd p) =
  fold_left (os.path.norm_step true)
    (if os.path.isabs p then names_of p else names_of cwd ++ names_of p) [].
Proof.
  intros Hcwd. unfold os.path.abspath. destruct (os.path.isabs p) eqn:Hp.
  - apply (names_of_normpath p Hp).
  - assert (Hne : cwd <> []) by (intros ->; discriminate).
    rewrite names_of_normpath by (rewrite (isabs_join_rel cwd p Hne Hp); exact Hcwd).
    rewrite (names_of_join cwd p Hp). reflexivity.
Qed.

Lemma commonprefix_app (N X : list str) : os.path.commonprefix N (N ++ X) = N.
Proof.
  induction N as [| x N IH]; [destruct X; reflexivity |].
  cbn [app os.path.commonprefix]. rewrite str_eqb_refl, IH. reflexivity.
Qed.

Lemma ends_with_sep_app (a b : str) :
  b <> [] -> os.path.ends_with_sep (a ++ b) = os.path.ends_with_sep b.
Proof.
  intros Hb. induction a as [| x a IH]; [reflexivity |].
  rewrite <- IH. cbn [app]. unfold os.path.ends_with_sep.
  destruct (a ++ b) as [| y l] eqn:E; [| reflexivity].
  destruct a; [cbn in E; congruence | discriminate E].
Qed.

Lemma clean_no_end_sep (c : str) : clean c -> os.path.ends_with_sep c = false.
Proof.
  intros (Hne & Hno). unfold os.path.ends_with_sep. destruct c as [| x c]; [reflexivity |].
  apply is_sep_false. intros E. apply Hno. rewrite <- E.
  destruct (exists_last (l := x :: c) ltac:(discriminate)) as (l0 & y & El).
  rewrite El, last_last. apply in_or_app. right. left. reflexivity.
Qed.

Lemma sep_join_cons (c : str) (L : list str) :
  L <> [] -> os.path.sep_join (c :: L) = c ++ os.path.sep :: os.path.sep_join L.
Proof. destruct L; [congruence | reflexivity]. Qed.

Lemma sep_join_shape (L : list str) :
  L <> [] -> Forall clean L ->
  os.path.sep_join L <> [] /\ os.path.ends_with_sep (os.path.sep_join L) = false.
Proof.
  intros Hne Hall. induction Hall as [| c L Hc HL IH]; [congruence |].
  destruct L as [| c2 L].
  - cbn [os.path.sep_join]. split; [apply Hc | apply (clean_no_end_sep c Hc)].
  - rewrite sep_join_cons by discriminate. split; [destruct c; discriminate |].
    destruct (IH ltac:(discriminate)) as [Hj He].
    change (c ++ os.path.sep :: os.path.sep_join (c2 :: L))
      with (c ++ ([os.path.sep] ++ os.path.sep_join (c2 :: L))).
    rewrite app_assoc, ends_with_sep_app; assumption.
Qed.

Lemma sep_join_snoc (L : list str) (c : str) :
  L <> [] -> os.path.sep_join (L ++ [c]) = os.path.sep_join L ++ os.path.sep :: c.
Proof.
  induction L as [| x L IH]; [congruence |]. intros _. destruct L as [| y L].
  - reflexivity.
  - change ((x :: y :: L) ++ [c]) with (x :: ((y :: L) ++ [c])).
    rewrite (sep_join_cons x ((y :: L) ++ [c])) by discriminate.
    rewrite IH by discriminate.
    rewrite (sep_join_cons x (y :: L)) by discriminate.
    rewrite <- app_assoc. reflexivity.
Qed.

Lemma joins_sep_join (cs : list str) :
  Forall plain cs ->
  forall L, L <> [] -> Forall clean L ->
    joins (os.path.sep_join L) cs = os.path.sep_join (L ++ cs).
Proof.
  unfold joins. induction 1 as [| c cs Hc _ IH]; intros L Hne HL; cbn [fold_left].
  - rewrite app_nil_r. reflexivity.
  - destruct (sep_join_shape L Hne HL) as [Hj He].
    assert (Ej : os.path.join (os.path.sep_join L) c = os.path.sep_join (L ++ [c])).
    { rewrite (sep_join_snoc L c Hne). unfold os.path.join.
      rewrite (plain_not_abs c Hc), He.
      destruct (os.path.sep_join L); [congruence | reflexivity]. }
    rewrite Ej, IH.
    + rewrite <- app_assoc. reflexivity.
    + destruct L; discriminate.
    + apply Forall_app. split; [exact HL | constructor; [apply (plain_clean c Hc) | constructor]].
Qed.

Lemma skipn_length_app {A : Type} (N Y : list A) : skipn (length N) (N ++ Y) = Y.
Proof. induction N as [| x N IH]; [reflexivity | exact IH]. Qed.

Lemma isabs_join_name (a c : str) :
  plain c -> os.path.isabs (os.path.join a c) = os.path.isabs a.
Proof.
  intros Hc. destruct a as [| x a].
  - unfold os.path.join. rewrite (plain_not_abs c Hc). cbn. apply (plain_not_abs c Hc).
  - apply isabs_join_rel; [discriminate | apply (plain_not_abs c Hc)].
Qed.

(** The path of a file under a scan directory, relative to the base
    directory, is the scan directory and the names below it, joined by
    slashes: whatever the base directory and the working directory
    are. *)
Lemma relpath_joins (cwd dir d : str) (cs : list str) :
  os.path.isabs cwd = true -> plain d -> Forall plain cs ->
  os.path.relpath cwd (joins (os.path.join dir d) cs) dir = Ok (os.path.sep_join (d :: cs)).
Proof.
  intros Hcwd Hd Hcs.
  pose proof (join_name_nonempty dir d (proj1 Hd)) as Htop.
  pose proof (joins_nonempty cs _ Htop) as HF.
  assert (Habs : os.path.isabs (joins (os.path.join dir d) cs) = os.path.isabs dir).
  { rewrite (isabs_joins cs Hcs _ Htop). apply (isabs_join_name dir d Hd). }
  assert (Hnames : names_of (joins (os.path.join dir d) cs) = names_of dir ++ d :: cs).
  { rewrite (names_of_joins cs Hcs), (names_of_join dir d (plain_not_abs d Hd)).
    rewrite (names_of_plain d Hd), <- app_assoc. reflexivity. }
  unfold os.path.relpath.
  destruct (joins (os.path.join dir d) cs) as [| c0 F0] eqn:EF; [congruence |].
  fold (names_of (os.path.abspath cwd dir)).
  fold (names_of (os.path.abspath cwd (c0 :: F0))).
  rewrite !(names_of_abspath cwd _ Hcwd). rewrite Habs, Hnames.
  assert (Hpath : (if os.path.isabs dir then names_of dir ++ d :: cs
                   else names_of cwd ++ names_of dir ++ d :: cs) =
                  (if os.path.isabs dir then names_of dir else names_of cwd ++ names_of dir)
                  ++ d :: cs).
  { destruct (os.path.isabs dir); [reflexivity | apply app_assoc]. }
  rewrite Hpath.
  rewrite (norm_fold_plain true (d :: cs) (Forall_cons d Hd Hcs)).
  rewrite commonprefix_app, Nat.sub_diag, skipn_length_app. cbn [repeat app].
  f_equal. change (fold_left os.path.join cs d) with (joins (os.path.sep_join [d]) cs).
  apply (joins_sep_join cs Hcs [d]); [discriminate |].
  constructor; [apply (plain_clean d Hd) | constructor].
Qed.

(** *** The files [os.walk] reports *)

Lemma tree_files_dir (es : list (str * node)) :
  tree_files (Dir es) =
  map (fun name => [name]) (os.filenames es) ++
  flat_map (fun e => map (cons (fst e)) (tree_files (snd e))) es.
Proof.
  cbn [tree_files]. f_equal.
  induction es as [| [name child] es IH]; [reflexivity |].
  cbn [flat_map fst snd]. rewrite IH. reflexivity.
Qed.

Lemma flat_map_flat_map {A B C : Type} (f : A -> list B) (g : B -> list C) (l : list A) :
  flat_map g (flat_map f l) = flat_map (fun x => flat_map g (f x)) l.
Proof.
  induction l as [| x l IH]; [reflexivity |]. cbn [flat_map].
  rewrite flat_map_app, IH. reflexivity.
Qed.

Lemma flat_map_ext_in {A B : Type} (f g : A -> list B) (l : list A) :
  (forall x, In x l -> f x = g x) -> flat_map f l = flat_map g l.
Proof.
  induction l as [| x l IH]; intros H; [reflexivity |]. cbn [flat_map].
  rewrite (H x (or_introl eq_refl)), IH; [reflexivity |].
  intros y Hy. apply H. right. exact Hy.
Qed.

Lemma map_flat_map {A B C : Type} (f : A -> list B) (g : B -> C) (l : list A) :
  map g (flat_map f l) = flat_map (fun x => map g (f x)) l.
Proof.
  induction l as [| x l IH]; [reflexivity |]. cbn [flat_map].
  rewrite map_app, IH. reflexivity.
Qed.

(** The paths of the files [os.walk] reports from [top] are [top] joined
    with the names of the files of the tree. *)
Lemma walk_node_paths :
  forall n top,
    flat_map (fun item => map (os.path.join (fst (fst item))) (snd item)) (os.walk_node top n) =
    map (joins top) (tree_files n).
Proof.
  induction n as [content flt | es IH] using node_induction; intros top; [reflexivity |].
  rewrite walk_node_dir, tree_files_dir. cbn [flat_map fst snd].
  rewrite map_app, map_map. cbn [joins fold_left]. f_equal.
  rewrite flat_map_flat_map, map_flat_map. apply flat_map_ext_in.
  intros e He. rewrite Forall_forall in IH. rewrite (IH e He), map_map. reflexivity.
Qed.

(** ** Well-formed trees and distinct paths *)

Lemma str_eqb_false (a b : str) : str_eqb a b = false -> a <> b.
Proof. intros E ->. rewrite str_eqb_refl in E. discriminate. Qed.

Lemma plainb_plain (c : str) : plainb c = true -> plain c.
Proof.
  unfold plainb. rewrite !andb_true_iff, !negb_true_iff.
  intros (((Hne & Hno) & Hdot) & Hdd). repeat split.
  - intros ->. discriminate.
  - intros Hin. assert (E : existsb os.path.is_sep c = true).
    { apply existsb_exists. exists os.path.sep. split; [exact Hin | reflexivity]. }
    rewrite E in Hno. discriminate.
  - apply (str_eqb_false _ _ Hdot).
  - apply (str_eqb_false _ _ Hdd).
Qed.

Lemma no_backslash_spec (c : str) : no_backslash c = true -> ~ In "\"%char c.
Proof.
  unfold no_backslash. rewrite negb_true_iff. intros E Hin.
  assert (E' : existsb (fun x => if ascii_dec x "\"%char then true else false) c = true).
  { apply existsb_exists. exists "\"%char. split; [exact Hin |].
    destruct (ascii_dec "\"%char "\"%char); congruence. }
  rewrite E' in E. discriminate.
Qed.

Lemma distinctb_NoDup (l : list str) : distinctb l = true -> NoDup l.
Proof.
  induction l as [| x l IH]; [constructor |]. cbn [distinctb].
  rewrite andb_true_iff, negb_true_iff. intros [Hx Hl]. constructor; [| apply (IH Hl)].
  intros Hin. assert (E : existsb (str_eqb x) l = true).
  { apply existsb_exists. exists x. split; [exact Hin | apply str_eqb_refl]. }
  rewrite E in Hx. discriminate.
Qed.

Lemma names_ok_dir (ok : str -> bool) (es : list (str * node)) :
  names_ok ok (Dir es) = true ->
  forall e, In e es -> ok (fst e) = true /\ names_ok ok (snd e) = true.
Proof.
  cbn [names_ok]. rewrite forallb_forall. intros H e He.
  apply andb_true_iff. apply (H e He).
Qed.

Lemma distinct_names_dir (es : list (str * node)) :
  distinct_names (Dir es) = true ->
  NoDup (map fst es) /\ forall e, In e es -> distinct_names (snd e) = true.
Proof.
  cbn [distinct_names]. rewrite andb_true_iff, forallb_forall. intros [Hd Hall].
  split; [apply (distinctb_NoDup _ Hd) | exact Hall].
Qed.

Lemma filenames_in (es : list (str * node)) (name : str) :
  In name (os.filenames es) -> In name (map fst es).
Proof.
  unfold os.filenames. rewrite in_flat_map, in_map_iff. intros (e & He & Hin).
  exists e. split; [| exact He]. destruct (snd e); [| contradiction].
  destruct Hin as [E | []]. exact E.
Qed.

Lemma filenames_NoDup (es : list (str * node)) :
  NoDup (map fst es) -> NoDup (os.filenames es).
Proof.
  induction es as [| [name child] es IH]; [constructor |]. cbn [map fst].
  intros Hnd. inversion Hnd as [| ? ? Hout Hrest]; subst.
  unfold os.filenames. cbn [flat_map fst snd]. destruct child; cbn [app].
  - constructor; [| apply (IH Hrest)]. intros Hin. apply Hout. apply (filenames_in es name Hin).
  - apply (IH Hrest).
Qed.

Lemma tree_files_names (ok : str -> bool) :
  forall n, names_ok ok n = true ->
    forall cs, In cs (tree_files n) -> Forall (fun c => ok c = true) cs.
Proof.
  induction n as [content flt | es IH] using node_induction; intros Hok cs Hin.
  - contradiction.
  - rewrite tree_files_dir in Hin. apply in_app_or in Hin. destruct Hin as [Hin | Hin].
    + rewrite in_map_iff in Hin. destruct Hin as (name & <- & Hname).
      apply filenames_in in Hname. rewrite in_map_iff in Hname.
      destruct Hname as (e & <- & He).
      constructor; [apply (names_ok_dir ok es Hok e He) | constructor].
    + rewrite in_flat_map in Hin. destruct Hin as (e & He & Hin).
      rewrite in_map_iff in Hin. destruct Hin as (cs' & <- & Hcs').
      destruct (names_ok_dir ok es Hok e He) as [Hname Hchild].
      rewrite Forall_forall in IH. constructor; [exact Hname |].
      apply (IH e He Hchild cs' Hcs').
Qed.

Lemma tree_files_nonempty :
  forall n cs, In cs (tree_files n) -> cs <> [].
Proof.
  intros [content flt | es] cs Hin; [contradiction |].
  rewrite tree_files_dir in Hin. apply in_app_or in Hin. destruct Hin as [Hin | Hin].
  - rewrite in_map_iff in Hin. destruct Hin as (name & <- & _). discriminate.
  - rewrite in_flat_map in Hin. destruct Hin as (e & _ & Hin).
    rewrite in_map_iff in Hin. destruct Hin as (cs' & <- & _). discriminate.
Qed.

Lemma NoDup_map_cons {A : Type} (x : A) (l : list (list A)) :
  NoDup l -> NoDup (map (cons x) l).
Proof.
  intros Hl. apply NoDup_map_NoDup_ForallPairs; [| exact Hl].
  intros a b _ _ E. inversion E. reflexivity.
Qed.

(** Lists that start with distinct keys are distinct. *)
Lemma NoDup_keyed {A : Type} (key : A -> str) (h : A -> list (list str)) (l : list A) :
  NoDup (map key l) ->
  (forall x, In x l -> NoDup (h x)) ->
  NoDup (flat_map (fun x => map (cons (key x)) (h x)) l).
Proof.
  induction l as [| x l IH]; intros Hkeys Hh; [constructor |]. cbn [flat_map].
  cbn [map] in Hkeys. inversion Hkeys as [| ? ? Hout Hrest]; subst.
  apply NoDup_app.
  - apply NoDup_map_cons. apply Hh. left. reflexivity.
  - apply (IH Hrest). intros y Hy. apply Hh. right. exact Hy.
  - intros p Hp Hq. rewrite in_map_iff in Hp. destruct Hp as (cs & <- & _).
    rewrite in_flat_map in Hq. destruct Hq as (y & Hy & Hq).
    rewrite in_map_iff in Hq. destruct Hq as (cs' & E & _). inversion E as [[Ek Ecs]].
    apply Hout. rewrite <- Ek. apply in_map. exact Hy.
Qed.

Lemma tree_files_NoDup :
  forall n, distinct_names n = true -> NoDup (tree_files n).
Proof.
  induction n as [content flt | es IH] using node_induction; intros Hd; [constructor |].
  destruct (distinct_names_dir es Hd) as [Hnames Hchildren].
  rewrite tree_files_dir. apply NoDup_app.
  - apply NoDup_map_NoDup_ForallPairs; [| apply (filenames_NoDup es Hnames)].
    intros a b _ _ E. inversion E. reflexivity.
  - apply (NoDup_keyed fst (fun e => tree_files (snd e)) es Hnames).
    intros e He. rewrite Forall_forall in IH. apply (IH e He (Hchildren e He)).
  - intros p Hp Hq. rewrite in_map_iff in Hp. destruct Hp as (name & <- & _).
    rewrite in_flat_map in Hq. destruct Hq as (e & _ & Hq).
    rewrite in_map_iff in Hq. destruct Hq as (cs & E & Hcs). inversion E as [[Ek Ecs]].
    apply (tree_files_nonempty (snd e) cs Hcs Ecs).
Qed.

Lemma scanned_in_filepaths (f : fsys) (dir d : str) :
  map (fun it => os.path.join (snd (fst it)) (snd it)) (scanned_in f dir d) =
  map (joins (os.path.join dir d)) (files_under f dir d).
Proof.
  unfold scanned_in, files_under, os.walk.
  destruct (os.isdir f (os.path.join dir d)); [| reflexivity].
  destruct (os.stat f (os.path.join dir d)) as [n |]; [| reflexivity].
  rewrite <- walk_node_paths, map_flat_map. apply flat_map_ext_in.
  intros item _. rewrite map_map. reflexivity.
Qed.

Lemma scan_dirs_plain (d : str) :
  In d SCAN_DIRS -> plain d /\ ~ In "\"%char d.
Proof.
  intros Hin.
  assert (H : forallb (fun x => plainb x && no_backslash x) SCAN_DIRS = true) by reflexivity.
  rewrite forallb_forall in H. specialize (H d Hin). apply andb_true_iff in H.
  split; [apply plainb_plain | apply no_backslash_spec]; apply H.
Qed.

Lemma files_under_ok (f : fsys) (dir d : str) (cs : list str) :
  scan_trees_ok f dir = true -> In d SCAN_DIRS -> In cs (files_under f dir d) ->
  Forall plain cs /\ Forall (fun c => ~ In "\"%char c) cs.
Proof.
  unfold scan_trees_ok, files_under. rewrite forallb_forall. intros Hok Hd Hin.
  specialize (Hok d Hd). destruct (os.isdir f (os.path.join dir d)); [| contradiction].
  destruct (os.stat f (os.path.join dir d)) as [n |]; [| contradiction].
  apply andb_true_iff in Hok. destruct Hok as [Hwf Hbs].
  unfold well_formed in Hwf. apply andb_true_iff in Hwf. destruct Hwf as [Hplain _].
  split.
  - pose proof (tree_files_names plainb n Hplain cs Hin) as H.
    rewrite Forall_forall in *. intros c Hc. apply plainb_plain. apply (H c Hc).
  - pose proof (tree_files_names no_backslash n Hbs cs Hin) as H.
    rewrite Forall_forall in *. intros c Hc. apply no_backslash_spec. apply (H c Hc).
Qed.

Lemma files_under_NoDup (f : fsys) (dir d : str) :
  scan_trees_ok f dir = true -> In d SCAN_DIRS -> NoDup (files_under f dir d).
Proof.
  unfold scan_trees_ok, files_under. rewrite forallb_forall. intros Hok Hd.
  specialize (Hok d Hd). destruct (os.isdir f (os.path.join dir d)); [| constructor].
  destruct (os.stat f (os.path.join dir d)) as [n |]; [| constructor].
  apply andb_true_iff in Hok. destruct Hok as [Hwf _].
  unfold well_formed in Hwf. apply andb_true_iff in Hwf. apply tree_files_NoDup. apply Hwf.
Qed.

Lemma in_sep_join (c : ascii) (L : list str) :
  In c (os.path.sep_join L) -> c = os.path.sep \/ exists x, In x L /\ In c x.
Proof.
  induction L as [| x L IH]; [contradiction |]. destruct L as [| y L].
  - cbn [os.path.sep_join]. intros Hin. right. exists x. split; [left; reflexivity | exact Hin].
  - rewrite sep_join_cons by discriminate. intros Hin. apply in_app_or in Hin.
    destruct Hin as [Hin | [<- | Hin]].
    + right. exists x. split; [left; reflexivity | exact Hin].
    + left. reflexivity.
    + destruct (IH Hin) as [-> | (z & Hz & Hc)]; [left; reflexivity |].
      right. exists z. split; [right; exact Hz | exact Hc].
Qed.

Lemma replace_backslash_id (s : str) : ~ In "\"%char s -> replace_backslash s = s.
Proof.
  unfold replace_backslash. induction s as [| c s IH]; intros Hno; [reflexivity |].
  cbn [map]. destruct (ascii_dec c "\"%char) as [-> | _].
  - exfalso. apply Hno. left. reflexivity.
  - rewrite IH; [reflexivity |]. intros Hin. apply Hno. right. exact Hin.
Qed.

Lemma sep_join_no_backslash (L : list str) :
  Forall (fun c => ~ In "\"%char c) L -> replace_backslash (os.path.sep_join L) = os.path.sep_join L.
Proof.
  intros Hall. apply replace_backslash_id. intros Hin.
  destruct (in_sep_join _ _ Hin) as [E | (x & Hx & Hc)]; [discriminate E |].
  rewrite Forall_forall in Hall. apply (Hall x Hx Hc).
Qed.

Lemma Forall2_map_eq {A B C : Type} (g : A -> C) (h : B -> C) (l : list A) (l' : list B) :
  Forall2 (fun x y => g x = h y) l l' -> map g l = map h l'.
Proof. induction 1 as [| x y l l' E _ IH]; [reflexivity |]. cbn [map]. rewrite E, IH. reflexivity. Qed.

Lemma sep_join_injective (p q : list str) :
  Forall clean p -> Forall clean q -> os.path.sep_join p = os.path.sep_join q -> p = q.
Proof.
  intros Hp Hq E. rewrite <- (names_of_sep_join p Hp), <- (names_of_sep_join q Hq), E.
  reflexivity.
Qed.

(** The paths of the records are the names of the scanned files joined
    by slashes, where the scanned trees are well formed and free of
    backslashes. *)
Lemma scan_paths (dir : str) (base_url : json) (w w' : world) (files : list json) :
  scan_trees_ok (fs w) dir = true ->
  scan_files (JString dir) base_url w = (Ok files, w') ->
  map path_of files =
  map (fun p => Some (JString (os.path.sep_join p))) (scanned_names (fs w) dir).
Proof.
  intros Hok E. destruct (scan_files_records _ _ _ _ _ E) as [Hall _].
  set (G := fun p : str =>
              match os.path.relpath (os.getcwd (fs w)) p dir with
              | Ok rel => Some (JString (replace_backslash rel))
              | _ => None
              end).
  assert (Hrec : map path_of files =
                 map G (map (fun it => os.path.join (snd (fst it)) (snd it))
                          (scanned (fs w) dir))).
  { rewrite map_map. symmetry. apply Forall2_map_eq.
    apply (Forall2_impl _ (R1 := fun it r =>
                      exists line, visit (fs w) dir base_url it = Ok (r, line)));
      [| exact Hall].
    intros it r [line Hv].
    destruct (visit_ok_shape _ _ _ _ _ _ Hv) as (u & rel & sha & size & _ & Hrel & _ & _ & ->).
    unfold G. rewrite Hrel. reflexivity. }
  rewrite Hrec. unfold scanned, scanned_names.
  rewrite !map_flat_map. apply flat_map_ext_in. intros d Hd.
  rewrite scanned_in_filepaths, !map_map. apply map_ext_in. intros cs Hcs.
  destruct (files_under_ok _ _ _ _ Hok Hd Hcs) as [Hplain Hbs].
  destruct (scan_dirs_plain d Hd) as [Hdp Hdb].
  unfold G. rewrite (relpath_joins (os.getcwd (fs w)) dir d cs eq_refl Hdp Hplain).
  rewrite (sep_join_no_backslash (d :: cs) (Forall_cons d Hdb Hbs)). reflexivity.
Qed.

Lemma scanned_names_NoDup (f : fsys) (dir : str) :
  scan_trees_ok f dir = true -> NoDup (scanned_names f dir).
Proof.
  intros Hok. unfold scanned_names.
  apply (NoDup_keyed (fun d => d) (files_under f dir) SCAN_DIRS).
  - rewrite map_id. apply distinctb_NoDup. reflexivity.
  - intros d Hd. apply (files_under_NoDup f dir d Hok Hd).
Qed.

Lemma scanned_names_clean (f : fsys) (dir : str) (p : list str) :
  scan_trees_ok f dir = true -> In p (scanned_names f dir) -> Forall clean p.
Proof.
  intros Hok Hin. unfold scanned_names in Hin. rewrite in_flat_map in Hin.
  destruct Hin as (d & Hd & Hin). rewrite in_map_iff in Hin. destruct Hin as (cs & <- & Hcs).
  destruct (files_under_ok _ _ _ _ Hok Hd Hcs) as [Hplain _].
  constructor; [apply plain_clean; apply (scan_dirs_plain d Hd) |].
  rewrite Forall_forall in *. intros c Hc. apply plain_clean. apply (Hplain c Hc).
Qed.

(** C9, as the code has it. Where the trees under the scan directories
    are well formed (each directory holds a name once, names are plain)
    and no name in them holds a backslash, the paths of the records of
    one scan are pairwise distinct: they are the names of the scanned
    files from the base directory, joined by slashes. *)
Theorem distinct_paths (dir : str) (base_url : json) (w w' : world) (files : list json) :
  scan_trees_ok (fs w) dir = true ->
  scan_files (JString dir) base_url w = (Ok files, w') ->
  NoDup (map path_of files) /\
  map path_of files =
    map (fun p => Some (JString (os.path.sep_join p))) (scanned_names (fs w) dir).
Proof.
  intros Hok E. pose proof (scan_paths dir base_url w w' files Hok E) as Hpaths.
  split; [| exact Hpaths]. rewrite Hpaths.
  apply NoDup_map_NoDup_ForallPairs; [| apply (scanned_names_NoDup _ _ Hok)].
  intros p q Hp Hq Epq. inversion Epq as [Ejoin].
  apply (sep_join_injective p q (scanned_names_clean _ _ p Hok Hp)
           (scanned_names_clean _ _ q Hok Hq) Ejoin).
Qed.

Lemma distinct_paths_witness :
  NoDup [Some (JString "mods/a.jar"); Some (JString "config/settings.txt")] /\
  [Some (JString "mods/a.jar"); Some (JString "config/settings.txt")] =
    map (fun p => Some (JString (os.path.sep_join p))) (scanned_names pack_fs "pack").
Proof.
  apply (distinct_paths "pack" (JString "http://example.com/pack")
           (World pack_fs [])
           (World pack_fs ["  [mods] a.jar (4 bytes)"; "  [config] settings.txt (0 bytes)"])
           [file_record "mods/a.jar" (SHA256.sha256_hex (bytes "test"))
              "http://example.com/pack/mods/a.jar" 4;
            file_record "config/settings.txt" (SHA256.sha256_hex [])
              "http://example.com/pack/config/settings.txt" 0]).
  - vm_compute. reflexivity.
  - vm_compute. reflexivity.
Defined.

(** C9, as the specification has it, fails on a POSIX host: a file named
    [a\b] and a file [b] in the directory [a] next to it are both
    recorded under the path [mods/a/b]. *)
Lemma distinct_paths_counterexample :
  ~ (forall base_dir base_url w w' files,
       scan_files base_dir base_url w = (Ok files, w') -> NoDup (map path_of files)).
Proof.
  intros Hclaim.
  assert (Hdup : NoDup [Some (JString "mods/a/b"); Some (JString "mods/a/b")]).
  { apply (Hclaim (JString "pack") (JString "http://example.com/pack")
             (World clash_pack [])
             (World clash_pack ["  [mods] a\b (3 bytes)"; "  [mods] b (3 bytes)"])
             [file_record "mods/a/b" (SHA256.sha256_hex (bytes "one"))
                "http://example.com/pack/mods/a/b" 3;
              file_record "mods/a/b" (SHA256.sha256_hex (bytes "two"))
                "http://example.com/pack/mods/a/b" 3]).
    vm_compute. reflexivity. }
  inversion Hdup as [| x l Hout _]. apply Hout. left. reflexivity.
Qed.

(** ** Listing order *)

Lemma same_entries_refl_with (es : list (str * node)) :
  Forall (fun e => same_tree (snd e) (snd e)) es -> same_entries es es.
Proof.
  induction 1 as [| [name child] es He _ IH]; [constructor |].
  apply same_skip; assumption.
Qed.

Lemma same_tree_refl : forall n, same_tree n n.
Proof.
  induction n as [content flt | es IH] using node_induction; [constructor |].
  apply same_dir. apply same_entries_refl_with. exact IH.
Qed.

Lemma same_entries_in (es es' : list (str * node)) :
  same_entries es es' ->
  forall k a, In (k, a) es -> exists b, In (k, b) es' /\ same_tree a b.
Proof.
  induction 1 as [| name a b l l' Hab Hl IH | x y l | l1 l2 l3 H12 IH12 H23 IH23];
    intros k a0 Hin.
  - contradiction.
  - destruct Hin as [E | Hin].
    + inversion E; subst. exists b. split; [left; reflexivity | exact Hab].
    + destruct (IH k a0 Hin) as (b0 & Hb0 & Hs). exists b0. split; [right; exact Hb0 | exact Hs].
  - exists a0. split; [| apply same_tree_refl].
    destruct Hin as [E | [E | Hin]];
      [right; left; exact E | left; exact E | right; right; exact Hin].
  - destruct (IH12 k a0 Hin) as (b & Hb & Hab). destruct (IH23 k b Hb) as (c & Hc & Hbc).
    exists c. split; [exact Hc |].
    clear - Hab Hbc. revert c Hbc.
    induction Hab as [content flt | es1 es2 He]; intros c Hbc.
    + exact Hbc.
    + inversion Hbc as [| ? es3 He']; subst. apply same_dir.
      apply (same_trans He He').
Qed.

Lemma same_entries_names (es es' : list (str * node)) :
  same_entries es es' -> Permutation (map fst es) (map fst es').
Proof.
  induction 1 as [| name a b l l' Hab Hl IH | x y l | l1 l2 l3 H12 IH12 H23 IH23].
  - constructor.
  - cbn [map fst]. constructor. exact IH.
  - cbn [map]. constructor.
  - apply (Permutation_trans IH12 IH23).
Qed.

Lemma assoc_in {A : Type} (k : str) (v : A) (es : list (str * A)) :
  assoc k es = Some v -> In (k, v) es.
Proof.
  induction es as [| [k0 v0] es IH]; [discriminate |]. cbn [assoc].
  destruct (str_eqb k k0) eqn:E.
  - intros Ev. inversion Ev; subst. apply str_eqb_eq in E. subst. left. reflexivity.
  - intros Ev. right. apply (IH Ev).
Qed.

Lemma in_assoc {A : Type} (k : str) (v : A) (es : list (str * A)) :
  NoDup (map fst es) -> In (k, v) es -> assoc k es = Some v.
Proof.
  induction es as [| [k0 v0] es IH]; [contradiction |]. cbn [map fst assoc].
  intros Hnd Hin. inversion Hnd as [| ? ? Hout Hrest]; subst.
  destruct Hin as [E | Hin].
  - inversion E; subst. rewrite str_eqb_refl. reflexivity.
  - destruct (str_eqb k k0) eqn:E; [| apply (IH Hrest Hin)].
    apply str_eqb_eq in E. subst k0. exfalso. apply Hout.
    apply (in_map fst es (k, v) Hin).
Qed.

(** Looking a path up in the same tree listed otherwise finds the same
    thing. *)
Lemma same_tree_get :
  forall cs n1 n2 m1,
    same_tree n1 n2 -> distinct_names n1 = true -> get n1 cs = Some m1 ->
    exists m2, get n2 cs = Some m2 /\ same_tree m1 m2 /\ distinct_names m1 = true.
Proof.
  induction cs as [| c cs IH]; intros n1 n2 m1 Hs Hd Hg.
  - cbn in Hg. inversion Hg; subst. exists n2. repeat split; assumption.
  - cbn [get] in Hg. destruct n1 as [content flt | es]; [discriminate |].
    inversion Hs as [| ? es' He]; subst.
    destruct (assoc c es) as [child |] eqn:Ec; [| discriminate].
    destruct (distinct_names_dir es Hd) as [Hnd Hchildren].
    pose proof (assoc_in c child es Ec) as Hin.
    destruct (same_entries_in es es' He c child Hin) as (child' & Hin' & Hsc).
    assert (Hnd' : NoDup (map fst es')).
    { apply (Permutation_NoDup (same_entries_names es es' He) Hnd). }
    cbn [get]. rewrite (in_assoc c child' es' Hnd' Hin').
    apply (IH child child' m1 Hsc (Hchildren (c, child) Hin) Hg).
Qed.

Lemma tree_files_blocks (es : list (str * node)) :
  Permutation (tree_files (Dir es)) (flat_map block es).
Proof.
  rewrite tree_files_dir. induction es as [| [name child] es IH]; [constructor |].
  cbn [flat_map]. unfold block at 1. cbn [fst snd]. unfold os.filenames. cbn [flat_map fst snd].
  fold (os.filenames es). rewrite map_app, <- !app_assoc.
  assert (Hhead : map (fun x : str => [x])
                    match child with File _ _ => [name] | Dir _ => [] end =
                  match child with File _ _ => [[name]] | Dir _ => [] end).
  { destruct child; reflexivity. }
  rewrite Hhead. apply Permutation_app_head.
  rewrite Permutation_app_swap_app. apply Permutation_app_head. exact IH.
Qed.

Lemma same_tree_files_both :
  (forall n1 n2, same_tree n1 n2 -> Permutation (tree_files n1) (tree_files n2)) /\
  (forall es es', same_entries es es' -> Permutation (flat_map block es) (flat_map block es')).
Proof.
  apply same_tree_entries_ind.
  - intros content flt. apply Permutation_refl.
  - intros es es' _ IH.
    rewrite (tree_files_blocks es), (tree_files_blocks es'). exact IH.
  - constructor.
  - intros name a b l l' Hab IHab _ IHl. cbn [flat_map].
    apply Permutation_app; [| exact IHl]. unfold block. cbn [fst snd].
    apply Permutation_app; [| apply Permutation_map; exact IHab].
    destruct Hab; apply Permutation_refl.
  - intros x y l. cbn [flat_map]. apply Permutation_app_swap_app.
  - intros l1 l2 l3 _ IH12 _ IH23. apply (Permutation_trans IH12 IH23).
Qed.

(** The same tree listed otherwise holds the same files. *)
Lemma same_tree_files (n1 n2 : node) :
  same_tree n1 n2 -> Permutation (tree_files n1) (tree_files n2).
Proof. apply same_tree_files_both. Qed.

(** ** Looking up the files of a walk *)

Lemma resolve_empty (r : node) (B : list str) :
  os.resolve r B [[]] = if is_dir_at r B then Some B else None.
Proof. cbn [os.resolve]. rewrite str_eqb_refl. reflexivity. Qed.

Lemma locate_join_any (f : fsys) (a c : str) :
  a <> [] -> plain c ->
  os.locate f (os.path.join a c) =
  match os.locate f a with
  | Some B => os.resolve (root f) B [c]
  | None => None
  end.
Proof.
  intros Ha Hc. unfold os.locate. destruct a as [| x a]; [congruence |].
  pose proof (join_nonempty (x :: a) c Ha) as Hj.
  pose proof (isabs_join (x :: a) c Ha Hc) as Habs.
  destruct (os.path.join (x :: a) c) as [| y j] eqn:Ej; [congruence |].
  rewrite Habs, <- Ej.
  destruct (split_sep_join (x :: a) c Hc) as (X & -> & [HX | HX]); rewrite HX.
  - apply resolve_app.
  - rewrite !resolve_app.
    destruct (os.resolve (root f) _ X) as [B |]; [| reflexivity].
    rewrite resolve_empty, (resolve_name (root f) B c Hc).
    destruct (is_dir_at (root f) B) eqn:Ed; [| reflexivity].
    rewrite (resolve_name (root f) B c Hc), Ed. reflexivity.
Qed.

Lemma locate_joins (f : fsys) (cs : list str) :
  Forall plain cs ->
  forall a, a <> [] ->
    os.locate f (joins a cs) =
    match os.locate f a with
    | Some B => os.resolve (root f) B cs
    | None => None
    end.
Proof.
  unfold joins. induction 1 as [| c cs Hc _ IH]; intros a Ha; cbn [fold_left].
  - destruct (os.locate f a); reflexivity.
  - rewrite (IH _ (join_nonempty a c Ha)), (locate_join_any f a c Ha Hc).
    destruct (os.locate f a) as [B |]; [| reflexivity].
    change (c :: cs) with ([c] ++ cs). rewrite resolve_app. reflexivity.
Qed.

Lemma get_app (r : node) (B C : list str) :
  get r (B ++ C) = match get r B with Some n => get n C | None => None end.
Proof.
  revert r. induction B as [| b B IH]; intros r; [reflexivity |]. cbn [app get].
  destruct r as [content flt | es]; [reflexivity |].
  destruct (assoc b es) as [child |]; [apply IH | reflexivity].
Qed.

Lemma resolve_missing (r : node) (cs : list str) :
  Forall plain cs ->
  forall B, get r B = None ->
    match os.resolve r B cs with Some C => get r C | None => None end = None.
Proof.
  destruct 1 as [| c cs Hc Hcs]; intros B HB; [exact HB |].
  cbn [os.resolve]. unfold is_dir_at. rewrite HB. reflexivity.
Qed.

Lemma resolve_get (r : node) (cs : list str) :
  Forall plain cs ->
  forall B n, get r B = Some n ->
    match os.resolve r B cs with Some C => get r C | None => None end = get n cs.
Proof.
  induction 1 as [| c cs Hc Hcs IH]; intros B n HB; [exact HB |].
  change (c :: cs) with ([c] ++ cs) at 1. rewrite resolve_app, (resolve_name r B c Hc).
  unfold is_dir_at. rewrite HB. destruct n as [content flt | es]; [reflexivity |].
  cbn [get]. destruct (assoc c es) as [child |] eqn:Ec.
  - apply IH. rewrite get_app, HB. cbn [get]. rewrite Ec. reflexivity.
  - apply (resolve_missing r cs Hcs). rewrite get_app, HB. cbn [get]. rewrite Ec. reflexivity.
Qed.

(** A path joined from a directory and plain names leads where the names
    lead in the tree of the directory. *)
Lemma stat_joins (f : fsys) (top : str) (n : node) (cs : list str) :
  top <> [] -> Forall plain cs -> os.stat f top = Some n ->
  os.stat f (joins top cs) = get n cs.
Proof.
  intros Htop Hcs Hstat. unfold os.stat in *. rewrite (locate_joins f cs Hcs top Htop).
  destruct (os.locate f top) as [B |]; [| discriminate].
  apply (resolve_get (root f) cs Hcs B n Hstat).
Qed.

Lemma filenames_file (es : list (str * node)) (name : str) :
  In name (os.filenames es) -> exists content flt, In (name, File content flt) es.
Proof.
  unfold os.filenames. rewrite in_flat_map. intros ([k child] & He & Hin). cbn [fst snd] in Hin.
  destruct child as [content flt | es']; [| contradiction].
  destruct Hin as [<- | []]. exists content, flt. exact He.
Qed.

Lemma tree_files_get :
  forall n cs, distinct_names n = true -> In cs (tree_files n) ->
    exists content flt, get n cs = Some (File content flt).
Proof.
  induction n as [content flt | es IH] using node_induction; intros cs Hd Hin; [contradiction |].
  destruct (distinct_names_dir es Hd) as [Hnd Hchildren].
  rewrite tree_files_dir in Hin. apply in_app_or in Hin. destruct Hin as [Hin | Hin].
  - rewrite in_map_iff in Hin. destruct Hin as (name & <- & Hname).
    destruct (filenames_file es name Hname) as (content & flt & He).
    exists content, flt. cbn [get]. rewrite (in_assoc name _ es Hnd He). reflexivity.
  - rewrite in_flat_map in Hin. destruct Hin as ([name child] & He & Hin).
    rewrite in_map_iff in Hin. destruct Hin as (cs' & <- & Hcs'). cbn [fst snd] in *.
    rewrite Forall_forall in IH.
    destruct (IH (name, child) He cs' (Hchildren (name, child) He) Hcs') as (content & flt & Hg).
    exists content, flt. cbn [get]. rewrite (in_assoc name child es Hnd He). exact Hg.
Qed.

(** ** Records of the same files *)

Lemma visit_record_of (f : fsys) (dir : str) (base_url : json) (it : str * str * str)
  (r : json) (line : str) :
  visit f dir base_url it = Ok (r, line) ->
  record_of f dir base_url (os.path.join (snd (fst it)) (snd it)) = Ok r.
Proof.
  destruct it as [[d top] fn]. unfold visit, record_of. cbn [fst snd].
  destruct (os.path.relpath _ _ dir) as [rel | e | code |]; try discriminate. cbn [rbind].
  destruct (os.getsize f _) as [size | e | code |]; try discriminate. cbn [rbind].
  destruct (hash_of f 8192 _) as [sha | e | code |]; try discriminate. cbn [rbind].
  destruct base_url; try discriminate. cbn [rbind]. intros E. inversion E. reflexivity.
Qed.

Lemma record_of_same (f1 f2 : fsys) (dir : str) (base_url : json) (filepath : str) :
  os.getcwd f1 = os.getcwd f2 -> os.stat f1 filepath = os.stat f2 filepath ->
  record_of f1 dir base_url filepath = record_of f2 dir base_url filepath.
Proof.
  intros Hcwd Hstat. unfold record_of, os.getsize, hash_of, os.open_r.
  rewrite Hcwd, Hstat. reflexivity.
Qed.

Lemma files_under_same (f1 f2 : fsys) (dir d : str) :
  same_scan f1 f2 dir -> In d SCAN_DIRS ->
  Permutation (files_under f1 dir d) (files_under f2 dir d).
Proof.
  intros [_ Hsame] Hd. specialize (Hsame d Hd). unfold files_under, os.isdir.
  destruct (os.stat f1 (os.path.join dir d)) as [n1 |];
    destruct (os.stat f2 (os.path.join dir d)) as [n2 |]; try contradiction.
  - destruct Hsame as [content flt | es es' He]; [constructor |].
    apply same_tree_files. apply same_dir. exact He.
  - constructor.
Qed.

Lemma files_under_record (f1 f2 : fsys) (dir : str) (base_url : json) (d : str)
  (cs : list str) :
  same_scan f1 f2 dir -> scan_trees_wf f1 dir = true ->
  In d SCAN_DIRS -> In cs (files_under f1 dir d) ->
  record_of f1 dir base_url (joins (os.path.join dir d) cs) =
  record_of f2 dir base_url (joins (os.path.join dir d) cs).
Proof.
  intros [Hcwd Hsame] Hwf Hd Hcs. apply (record_of_same f1 f2 dir base_url _ Hcwd).
  specialize (Hsame d Hd). unfold scan_trees_wf in Hwf. rewrite forallb_forall in Hwf.
  specialize (Hwf d Hd). unfold files_under in Hcs.
  destruct (os.isdir f1 (os.path.join dir d)); [| contradiction].
  destruct (os.stat f1 (os.path.join dir d)) as [n1 |] eqn:E1; [| contradiction].
  destruct (os.stat f2 (os.path.join dir d)) as [n2 |] eqn:E2; [| contradiction].
  unfold well_formed in Hwf. apply andb_true_iff in Hwf. destruct Hwf as [Hplain Hdistinct].
  assert (Hnames : Forall plain cs).
  { pose proof (tree_files_names plainb n1 Hplain cs Hcs) as H.
    rewrite Forall_forall in *. intros c Hc. apply plainb_plain. apply (H c Hc). }
  pose proof (join_name_nonempty dir d (proj1 (proj1 (scan_dirs_plain d Hd)))) as Htop.
  rewrite (stat_joins f1 _ n1 cs Htop Hnames E1), (stat_joins f2 _ n2 cs Htop Hnames E2).
  destruct (tree_files_get n1 cs Hdistinct Hcs) as (content & flt & Hg).
  destruct (same_tree_get cs n1 n2 _ Hsame Hdistinct Hg) as (m2 & Hg2 & Hm & _).
  rewrite Hg, Hg2. inversion Hm. reflexivity.
Qed.

(** The paths of the files of a scan. *)
Lemma scanned_filepaths (f : fsys) (dir : str) :
  map (fun it => os.path.join (snd (fst it)) (snd it)) (scanned f dir) =
  flat_map (fun d => map (joins (os.path.join dir d)) (files_under f dir d)) SCAN_DIRS.
Proof.
  unfold scanned. rewrite map_flat_map. apply flat_map_ext_in.
  intros d _. apply scanned_in_filepaths.
Qed.

Lemma records_of_scan (f : fsys) (dir : str) (base_url : json) (files : list json) :
  Forall2 (fun it r => exists line, visit f dir base_url it = Ok (r, line))
          (scanned f dir) files ->
  map (fun p => ok_of (record_of f dir base_url p))
      (flat_map (fun d => map (joins (os.path.join dir d)) (files_under f dir d)) SCAN_DIRS) =
  map Some files.
Proof.
  intros Hall. rewrite <- scanned_filepaths, map_map. apply Forall2_map_eq.
  apply (Forall2_impl _ (R1 := fun it r =>
                    exists line, visit f dir base_url it = Ok (r, line)));
    [| exact Hall].
  intros it r [line Hv]. rewrite (visit_record_of f dir base_url it r line Hv). reflexivity.
Qed.

Lemma Permutation_flat_map_pointwise {A B : Type} (g h : A -> list B) (l : list A) :
  (forall x, In x l -> Permutation (g x) (h x)) ->
  Permutation (flat_map g l) (flat_map h l).
Proof.
  induction l as [| x l IH]; intros H; [constructor |]. cbn [flat_map].
  apply Permutation_app; [apply H; left; reflexivity |].
  apply IH. intros y Hy. apply H. right. exact Hy.
Qed.

Lemma map_Some_injective {A : Type} (l l' : list A) : map Some l = map Some l' -> l = l'.
Proof.
  revert l'. induction l as [| x l IH]; intros [| y l'] E; try discriminate; [reflexivity |].
  cbn [map] in E. inversion E. f_equal. apply IH. assumption.
Qed.

(** Two scans of the same trees, listed in whatever order, that both
    return, return the same records up to their order. *)
Lemma scan_records_permutation (f1 f2 : fsys) (dir : str) (base_url : json)
  (files1 files2 : list json) :
  same_scan f1 f2 dir -> scan_trees_wf f1 dir = true ->
  Forall2 (fun it r => exists line, visit f1 dir base_url it = Ok (r, line))
          (scanned f1 dir) files1 ->
  Forall2 (fun it r => exists line, visit f2 dir base_url it = Ok (r, line))
          (scanned f2 dir) files2 ->
  Permutation files1 files2.
Proof.
  intros Hsame Hwf H1 H2.
  pose proof (records_of_scan f1 dir base_url files1 H1) as E1.
  pose proof (records_of_scan f2 dir base_url files2 H2) as E2.
  assert (Hperm : Permutation (map Some files2) (map Some files1)).
  { rewrite <- E1, <- E2.
    transitivity (map (fun p => ok_of (record_of f2 dir base_url p))
                    (flat_map (fun d => map (joins (os.path.join dir d)) (files_under f1 dir d))
                       SCAN_DIRS)).
    - apply Permutation_map. apply Permutation_flat_map_pointwise.
      intros d Hd. apply Permutation_map. symmetry. apply (files_under_same f1 f2 dir d Hsame Hd).
    - apply Permutation_refl'. apply map_ext_in. intros p Hp.
      rewrite in_flat_map in Hp. destruct Hp as (d & Hd & Hp).
      rewrite in_map_iff in Hp. destruct Hp as (cs & <- & Hcs).
      rewrite (files_under_record f1 f2 dir base_url d cs Hsame Hwf Hd Hcs). reflexivity. }
  apply Permutation_map_inv in Hperm. destruct Hperm as (l3 & E3 & Hp3).
  apply map_Some_injective in E3. subst l3. exact Hp3.
Qed.

(** ** What writing the manifest leaves alone *)

Lemma isdir_is_dir_at (f : fsys) (p : str) :
  os.isdir f p = match os.locate f p with
                 | Some comps => is_dir_at (root f) comps
                 | None => false
                 end.
Proof. unfold os.isdir, os.stat, is_dir_at. destruct (os.locate f p); reflexivity. Qed.

Lemma write_file_put (f f' : fsys) (p : str) (data : list byte) :
  os.write_file f p data = Ok f' ->
  exists comps,
    os.locate f p = Some comps /\
    is_dir_at (root f) comps = false /\
    put (root f) comps (File data NoFault) = Some (root f') /\
    cwd f' = cwd f.
Proof.
  unfold os.write_file. destruct (os.locate f p) as [comps |]; [| discriminate].
  intros E. exists comps. unfold is_dir_at.
  destruct (get (root f) comps) as [[content flt | es] |]; try discriminate E;
    (destruct (put (root f) comps (File data NoFault)) as [r |]; [| discriminate E];
     inversion E; repeat split).
Qed.

Lemma locate_same_dirs (f f' : fsys) (p : str) :
  (forall q, is_dir_at (root f') q = is_dir_at (root f) q) -> cwd f' = cwd f ->
  os.locate f' p = os.locate f p.
Proof.
  intros Hd Hc. unfold os.locate. destruct p as [| c p]; [reflexivity |].
  rewrite Hc. apply (resolve_same_dirs (root f) (root f') Hd).
Qed.

Lemma get_put_sibling (new : node) (x y : str) :
  x <> y ->
  forall B n n', put n (B ++ [y]) new = Some n' -> get n' (B ++ [x]) = get n (B ++ [x]).
Proof.
  intros Hxy. induction B as [| c B IH]; intros n n' E; cbn [app put get] in *.
  - destruct n as [content flt | es]; [discriminate |].
    destruct (assoc y es) as [child |]; inversion E; cbn [get].
    + rewrite (assoc_set_entry_other y x new es Hxy). reflexivity.
    + rewrite (assoc_app_other y x new es Hxy). reflexivity.
  - destruct n as [content flt | es]; [discriminate |].
    destruct (assoc c es) as [child |] eqn:Ec.
    + destruct (put child (B ++ [y]) new) as [child' |] eqn:Ep; [| discriminate].
      inversion E. cbn [get]. rewrite (assoc_set_entry_same c child child' es Ec).
      apply (IH child child' Ep).
    + destruct (B ++ [y]) eqn:Eb; [destruct B; discriminate | discriminate].
Qed.

(** Writing [name] in a directory leaves every other name of the
    directory as it was, and every directory a directory. *)
Lemma write_file_sibling (f f' : fsys) (a name d : str) (data : list byte) :
  plain name -> plain d -> d <> name -> os.isdir f a = true ->
  os.write_file f (os.path.join a name) data = Ok f' ->
  os.stat f' (os.path.join a d) = os.stat f (os.path.join a d) /\
  os.isdir f' a = true /\
  os.getcwd f' = os.getcwd f.
Proof.
  intros Hname Hd Hne Hdir Hw.
  destruct (write_file_put f f' _ data Hw) as (comps & Hloc & Hnd & Hput & Hcwd).
  pose proof (is_dir_put_file data NoFault comps (root f) (root f') Hput Hnd) as Hdirs.
  pose proof (fun p => locate_same_dirs f f' p Hdirs Hcwd) as Hlocs.
  rewrite isdir_is_dir_at in Hdir.
  destruct (os.locate f a) as [B |] eqn:Ha; [| discriminate].
  rewrite (locate_join f a name B Hname Ha Hdir) in Hloc. inversion Hloc; subst comps.
  split; [| split].
  - unfold os.stat. rewrite Hlocs, (locate_join f a d B Hd Ha Hdir).
    apply (get_put_sibling (File data NoFault) d name Hne B _ _ Hput).
  - rewrite isdir_is_dir_at, Hlocs, Ha, Hdirs. exact Hdir.
  - unfold os.getcwd. rewrite Hcwd. reflexivity.
Qed.

Lemma visit_same (f1 f2 : fsys) (dir : str) (base_url : json) (it : str * str * str) :
  os.getcwd f1 = os.getcwd f2 ->
  os.stat f1 (os.path.join (snd (fst it)) (snd it)) =
  os.stat f2 (os.path.join (snd (fst it)) (snd it)) ->
  visit f1 dir base_url it = visit f2 dir base_url it.
Proof.
  destruct it as [[d top] fn]. cbn [fst snd]. intros Hcwd Hstat.
  unfold visit, os.getsize, hash_of, os.open_r. rewrite Hcwd, Hstat. reflexivity.
Qed.

Lemma visits_same (f1 f2 : fsys) (dir : str) (base_url : json) :
  forall (items : list (str * str * str)) (files : list json),
    (forall it, In it items -> visit f1 dir base_url it = visit f2 dir base_url it) ->
    visits f1 dir base_url items files = visits f2 dir base_url items files.
Proof.
  induction items as [| it items IH]; intros files Hsame; [reflexivity |].
  cbn [visits]. rewrite (Hsame it (or_introl eq_refl)).
  destruct (visit f2 dir base_url it) as [[r line] | e | code |]; try reflexivity.
  rewrite (IH (files ++ [r]) (fun x Hx => Hsame x (or_intror Hx))). reflexivity.
Qed.

Lemma scanned_same (f1 f2 : fsys) (dir : str) :
  (forall d, In d SCAN_DIRS ->
     os.stat f1 (os.path.join dir d) = os.stat f2 (os.path.join dir d)) ->
  scanned f1 dir = scanned f2 dir.
Proof.
  intros Hsame. unfold scanned. apply flat_map_ext_in. intros d Hd.
  unfold scanned_in, os.isdir, os.walk. rewrite (Hsame d Hd). reflexivity.
Qed.

Lemma scanned_filepath (f : fsys) (dir : str) (it : str * str * str) :
  In it (scanned f dir) ->
  exists d cs,
    In d SCAN_DIRS /\ In cs (files_under f dir d) /\
    os.path.join (snd (fst it)) (snd it) = joins (os.path.join dir d) cs.
Proof.
  intros Hin.
  assert (Hfp : In (os.path.join (snd (fst it)) (snd it))
                  (map (fun it => os.path.join (snd (fst it)) (snd it)) (scanned f dir))).
  { apply (in_map (fun it => os.path.join (snd (fst it)) (snd it)) _ it Hin). }
  rewrite scanned_filepaths, in_flat_map in Hfp. destruct Hfp as (d & Hd & Hfp).
  rewrite in_map_iff in Hfp. destruct Hfp as (cs & E & Hcs).
  exists d, cs. repeat split; [exact Hd | exact Hcs | symmetry; exact E].
Qed.

(** The files of a scan are found where they were, in a file system that
    holds the same trees under the scan directories. *)
Lemma scanned_stat_same (f1 f2 : fsys) (dir : str) (it : str * str * str) :
  scan_trees_wf f1 dir = true ->
  (forall d, In d SCAN_DIRS ->
     os.stat f1 (os.path.join dir d) = os.stat f2 (os.path.join dir d)) ->
  In it (scanned f1 dir) ->
  os.stat f1 (os.path.join (snd (fst it)) (snd it)) =
  os.stat f2 (os.path.join (snd (fst it)) (snd it)).
Proof.
  intros Hwf Hsame Hin.
  destruct (scanned_filepath f1 dir it Hin) as (d & cs & Hd & Hcs & ->).
  unfold scan_trees_wf in Hwf. rewrite forallb_forall in Hwf. specialize (Hwf d Hd).
  pose proof (Hsame d Hd) as Htop. unfold files_under in Hcs.
  destruct (os.isdir f1 (os.path.join dir d)); [| contradiction].
  destruct (os.stat f1 (os.path.join dir d)) as [n |] eqn:E1; [| contradiction].
  unfold well_formed in Hwf. apply andb_true_iff in Hwf. destruct Hwf as [Hplain _].
  assert (Hnames : Forall plain cs).
  { pose proof (tree_files_names plainb n Hplain cs Hcs) as H.
    rewrite Forall_forall in *. intros c Hc. apply plainb_plain. apply (H c Hc). }
  pose proof (join_name_nonempty dir d (proj1 (proj1 (scan_dirs_plain d Hd)))) as Hne.
  rewrite (stat_joins f1 _ n cs Hne Hnames E1).
  rewrite (stat_joins f2 _ n cs Hne Hnames (eq_sym Htop)). reflexivity.
Qed.

Lemma scan_dirs_not_manifest (d : str) : In d SCAN_DIRS -> d <> "manifest.json".
Proof. cbn. intros [<- | [<- | [<- | [<- | []]]]]; discriminate. Qed.

Section NextRun.

Context {RT : Runtime}.

(** A run started in the state a run has left, in a base directory that
    was there before, returns too and leaves the same manifest. *)
Lemma next_run_same_manifest (items : list (str * json)) (dir : str) (w w' : world) :
  assoc "dir" items = Some (JString dir) ->
  scan_trees_wf (fs w) dir = true ->
  os.isdir (fs w) dir = true ->
  generate (JObject items) w = (Ok tt, w') ->
  same_scan (fs w) (fs w') dir /\
  exists w'',
    generate (JObject items) w' = (Ok tt, w'') /\
    os.stat (fs w'') (os.path.join dir "manifest.json") =
    os.stat (fs w') (os.path.join dir "manifest.json").
Proof.
  intros Hdir Hwf Hisdir E.
  destruct (generate_ok_config _ _ _ E) as (items0 & base_dir & base_url & mc & Hc & Hd & Hu & Hv).
  inversion Hc; subst items0. rewrite Hdir in Hd. inversion Hd; subst base_dir.
  rewrite (generate_unfold items _ _ _ w Hdir Hu Hv) in E.
  apply bind_ok in E. destruct E as (files & w1 & Escan & Efin).
  rewrite scan_files_visits in Escan. cbn [fs stdout] in Escan.
  destruct (visits (fs w) dir base_url (scanned (fs w) dir) []) as [out lines] eqn:Ev.
  cbn [fst snd] in Escan. inversion Escan; subst out w1. clear Escan.
  destruct (finish_ok _ _ _ _ _ _ Efin) as (dir0 & f1 & Hd0 & Hmk & Hwr).
  inversion Hd0; subst dir0. cbn [fs] in Hmk, Hwr.
  unfold os.makedirs in Hmk. rewrite Hisdir in Hmk. inversion Hmk; subst f1.
  assert (Hkeep : forall d, In d SCAN_DIRS ->
            os.stat (fs w) (os.path.join dir d) = os.stat (fs w') (os.path.join dir d)).
  { intros d Hd'. symmetry.
    apply (write_file_sibling (fs w) (fs w') dir "manifest.json" d _ plain_manifest_json
             (proj1 (scan_dirs_plain d Hd')) (scan_dirs_not_manifest d Hd') Hisdir Hwr). }
  destruct (write_file_sibling (fs w) (fs w') dir "manifest.json" "mods" _ plain_manifest_json
              (proj1 (scan_dirs_plain "mods" (or_introl eq_refl)))
              (scan_dirs_not_manifest "mods" (or_introl eq_refl)) Hisdir Hwr)
    as (_ & Hisdir' & Hcwd).
  pose proof (write_file_stat _ _ _ _ Hwr) as [Hstat _].
  split.
  - split; [symmetry; exact Hcwd |]. intros d Hd'. rewrite <- (Hkeep d Hd').
    destruct (os.stat (fs w) (os.path.join dir d)); [apply same_tree_refl | exact I].
  - assert (Hvisits : visits (fs w') dir base_url (scanned (fs w') dir) [] = (Ok files, lines)).
    { rewrite <- (scanned_same (fs w) (fs w') dir Hkeep), <- Ev. symmetry.
      apply visits_same. intros it Hit.
      apply (visit_same (fs w) (fs w') dir base_url it (eq_sym Hcwd)).
      apply (scanned_stat_same (fs w) (fs w') dir it Hwf Hkeep Hit). }
    assert (Hnd : os.isdir (fs w') (os.path.join dir "manifest.json") = false).
    { unfold os.isdir. rewrite Hstat. reflexivity. }
    destruct (finish_in_dir items dir mc files
                (World (fs w')
                   (stdout (World (fs w')
                      (stdout w' ++ header items (JString dir) base_url mc)) ++ lines))
                Hisdir' Hnd) as (w'' & Hfin & Hstat'').
    exists w''. split; [| rewrite Hstat'', Hstat; reflexivity].
    rewrite (generate_unfold items _ _ _ w' Hdir Hu Hv).
    rewrite (bind_step (scan_files (JString dir) base_url) _ _
               (World (fs w')
                  (stdout (World (fs w')
                     (stdout w' ++ header items (JString dir) base_url mc)) ++ lines))
               files); [exact Hfin |].
    rewrite scan_files_visits. cbn [fs stdout]. rewrite Hvisits. reflexivity.
Qed.

End NextRun.

(** C8. Two runs of [generate] with the same configuration, on file
    systems that hold the same trees under the scan directories, write
    manifests that agree in every field but the order of the file
    records: the records of one run are a permutation of those of the
    other, and where the directories list their entries in the same
    order, the records come in the same order. A run started in the
    state the first run left writes the same bytes again. *)
Theorem runs_agree_up_to_order {RT : Runtime} (items : list (str * json)) (dir : str)
  (w1 w1' : world) :
  assoc "dir" items = Some (JString dir) ->
  scan_trees_wf (fs w1) dir = true ->
  generate (JObject items) w1 = (Ok tt, w1') ->
  exists mc_version files1,
    os.stat (fs w1') (os.path.join dir "manifest.json") =
      Some (File (encode (json_dump
        (manifest_of mc_version (loader_type_of items) (loader_version_of items) files1
           (java_args_of items) (server_address_of items)))) NoFault) /\
    (forall w2 w2',
       same_scan (fs w1) (fs w2) dir ->
       generate (JObject items) w2 = (Ok tt, w2') ->
       exists files2,
         os.stat (fs w2') (os.path.join dir "manifest.json") =
           Some (File (encode (json_dump
             (manifest_of mc_version (loader_type_of items) (loader_version_of items) files2
                (java_args_of items) (server_address_of items)))) NoFault) /\
         Permutation files1 files2 /\
         (fs w1 = fs w2 -> files1 = files2)) /\
    (os.isdir (fs w1) dir = true ->
     exists w1'',
       generate (JObject items) w1' = (Ok tt, w1'') /\
       os.stat (fs w1'') (os.path.join dir "manifest.json") =
       os.stat (fs w1') (os.path.join dir "manifest.json")).
Proof.
  intros Hdir Hwf E1.
  destruct (generate_ok_manifest _ _ _ E1)
    as (items1 & dir1 & url1 & mc & files1 & Hc1 & Hd1 & Hu1 & Hv1 & Hall1 & Hstat1).
  inversion Hc1; subst items1. rewrite Hdir in Hd1. inversion Hd1; subst dir1.
  exists mc, files1. split; [exact Hstat1 |]. split.
  - intros w2 w2' Hscan E2.
    destruct (generate_ok_manifest _ _ _ E2)
      as (items2 & dir2 & url2 & mc2 & files2 & Hc2 & Hd2 & Hu2 & Hv2 & Hall2 & Hstat2).
    inversion Hc2; subst items2. rewrite Hdir in Hd2. inversion Hd2; subst dir2.
    rewrite Hu1 in Hu2. inversion Hu2; subst url2.
    rewrite Hv1 in Hv2. inversion Hv2; subst mc2.
    exists files2. split; [exact Hstat2 |]. split.
    + apply (scan_records_permutation _ _ _ _ _ _ Hscan Hwf Hall1 Hall2).
    + intros Hfs. apply map_Some_injective.
      rewrite <- (records_of_scan _ _ _ _ Hall1), <- (records_of_scan _ _ _ _ Hall2), Hfs.
      reflexivity.
  - intros Hisdir. apply (next_run_same_manifest items dir w1 w1' Hdir Hwf Hisdir E1).
Qed.

Lemma runs_agree_up_to_order_witness :
  exists mc_version files1 files2,
    os.stat (fs (snd (generate (RT := toy_runtime) pack_config (World two_mods []))))
      (os.path.join "pack" "manifest.json") =
      Some (File (encode (@json_dump toy_runtime
        (manifest_of mc_version (JString "vanilla") (JString []) files1
           (JString "-Xmx4G -Xms2G") JNull))) NoFault) /\
    os.stat (fs (snd (generate (RT := toy_runtime) pack_config (World two_mods_reordered []))))
      (os.path.join "pack" "manifest.json") =
      Some (File (encode (@json_dump toy_runtime
        (manifest_of mc_version (JString "vanilla") (JString []) files2
           (JString "-Xmx4G -Xms2G") JNull))) NoFault) /\
    Permutation files1 files2 /\
    exists w'',
      generate (RT := toy_runtime) pack_config
        (snd (generate (RT := toy_runtime) pack_config (World two_mods []))) = (Ok tt, w'').
Proof.
  destruct (runs_agree_up_to_order (RT := toy_runtime)
              [("dir", JString "pack");
               ("base_url", JString "http://example.com/pack");
               ("mc_version", JString "1.20.1")]
              "pack"
              (World two_mods [])
              (snd (generate (RT := toy_runtime) pack_config (World two_mods []))))
    as (mc & files1 & H1 & Hother & Hnext).
  - reflexivity.
  - vm_compute. reflexivity.
  - vm_compute. reflexivity.
  - destruct (Hother (World two_mods_reordered [])
                (snd (generate (RT := toy_runtime) pack_config (World two_mods_reordered []))))
      as (files2 & H2 & Hperm & _).
    + split; [reflexivity |]. intros d Hd. cbn in Hd.
      destruct Hd as [<- | [<- | [<- | [<- | []]]]]; vm_compute; try exact I.
      apply same_dir. apply same_swap.
    + vm_compute. reflexivity.
    + destruct Hnext as (w'' & Hrun & _); [vm_compute; reflexivity |].
      exists mc, files1, files2. split; [exact H1 |]. split; [exact H2 |].
      split; [exact Hperm |]. exists w''. exact Hrun.
Defined.

(** ** Every run ends

    The only loop of the program that is not a loop over a list is the
    loop of [sha256_file], and the fuel it is given is enough: no call
    is cut off. *)

Lemma ends_ret {A : Type} (a : A) : ends (ret a).
Proof. intros w. discriminate. Qed.

Lemma ends_raise {A : Type} (e : exn) : ends (raise (A := A) e).
Proof. intros w. discriminate. Qed.

Lemma ends_sys_exit {A : Type} (code : Z) : ends (sys_exit (A := A) code).
Proof. intros w. discriminate. Qed.

Lemma ends_print (line : str) : ends (print line).
Proof. intros w. discriminate. Qed.

Lemma ends_ask {A : Type} (q : fsys -> res A) :
  (forall f, q f <> OutOfFuel) -> ends (ask q).
Proof. intros Hq w. apply Hq. Qed.

Lemma ends_act (q : fsys -> res fsys) :
  (forall f, q f <> OutOfFuel) -> ends (act q).
Proof.
  intros Hq w. unfold act. pose proof (Hq (fs w)) as H.
  destruct (q (fs w)); [discriminate | discriminate | discriminate | congruence].
Qed.

Lemma ends_bind {A B : Type} (c : M A) (k : A -> M B) :
  ends c -> (forall a, ends (k a)) -> ends (bind c k).
Proof.
  intros Hc Hk w. unfold bind. pose proof (Hc w) as H.
  destruct (c w) as [[a | e | code |] w1]; cbn [fst] in *;
    [apply Hk | discriminate | discriminate | congruence].
Qed.

Lemma ends_for {A S : Type} (body : A -> S -> M S) (l : list A) :
  (forall x s, ends (body x s)) -> forall s, ends (for_ l body s).
Proof.
  intros Hbody. induction l as [| x l IH]; intros s; cbn [for_].
  - apply ends_ret.
  - apply ends_bind; [apply Hbody | exact IH].
Qed.

Lemma io_outcome_fueled {A : Type} (r : res A) : io_outcome r -> r <> OutOfFuel.
Proof. destruct r; [discriminate | discriminate | contradiction | contradiction]. Qed.

Lemma sha256_file_by_hash_of (size : nat) (filepath : str) (w : world) :
  sha256_file_by size filepath w = (hash_of (fs w) size filepath, w).
Proof.
  unfold sha256_file_by, hash_of, bind, ask, ret, rbind.
  destruct (os.open_r (fs w) filepath) as [h | e | code |]; try reflexivity.
  destruct (read_chunks _ _ h SHA256.new); reflexivity.
Qed.

(** [sha256_file] returns a digest or raises an [IOError], whatever the
    size of the chunks, and changes nothing. *)
Lemma sha256_file_by_ends (size : nat) (filepath : str) (w : world) :
  io_outcome (fst (sha256_file_by size filepath w)) /\
  snd (sha256_file_by size filepath w) = w.
Proof.
  rewrite sha256_file_by_hash_of. split; [apply hash_of_io | reflexivity].
Qed.

Lemma scan_files_ends (base_dir base_url : json) : ends (scan_files base_dir base_url).
Proof.
  unfold scan_files. apply ends_for. intros scan_dir files.
  apply ends_bind; [destruct base_dir; first [apply ends_ret | apply ends_raise] |].
  intros dir. apply ends_bind; [apply ends_ask; discriminate |].
  intros is_dir. destruct (negb is_dir); [apply ends_ret |].
  apply ends_bind; [apply ends_ask; discriminate |].
  intros tree. apply ends_for. intros [[top dirs] filenames] files1.
  apply ends_for. intros filename files2.
  apply ends_bind.
  { apply ends_ask. intros f. unfold os.path.relpath.
    destruct (os.path.join top filename); [discriminate |].
    match goal with
    | |- context [match ?l with [] => _ | _ :: _ => _ end] => destruct l
    end; discriminate. }
  intros rel. apply ends_bind.
  { apply ends_ask. intros f. apply io_outcome_fueled. apply getsize_io. }
  intros size. apply ends_bind.
  { intros w. apply io_outcome_fueled. apply sha256_file_by_ends. }
  intros sha. apply ends_bind; [destruct base_url; first [apply ends_ret | apply ends_raise] |].
  intros stripped. apply ends_bind; [apply ends_print | intros _; apply ends_ret].
Qed.

Lemma makedirs_fueled (f : fsys) (name : str) : os.makedirs f name <> OutOfFuel.
Proof.
  unfold os.makedirs. destruct (os.isdir f name); [discriminate |].
  destruct name; [discriminate |].
  match goal with |- context [mkdirs ?r ?c] => destruct (mkdirs r c) end; discriminate.
Qed.

Lemma write_file_fueled (f : fsys) (p : str) (data : list byte) :
  os.write_file f p data <> OutOfFuel.
Proof.
  unfold os.write_file. destruct (os.locate f p) as [comps |]; [| discriminate].
  destruct (get (root f) comps) as [[? ? | ?] |]; try discriminate;
    destruct (put (root f) comps (File data NoFault)); discriminate.
Qed.

Section Ends.

Context {RT : Runtime}.

Lemma generate_ends (config : json) : ends (generate config).
Proof.
  unfold generate.
  repeat (apply ends_bind;
          [first [ apply ends_print
                 | apply scan_files_ends
                 | apply ends_act; intros f; first [apply makedirs_fueled | apply write_file_fueled]
                 | unfold getitem; destruct config; try apply ends_raise;
                   match goal with
                   | |- context [assoc ?k ?l] => destruct (assoc k l)
                   end; first [apply ends_ret | apply ends_raise]
                 | unfold get_or; destruct config; first [apply ends_ret | apply ends_raise]
                 | match goal with
                   | |- ends (as_path ?v) => destruct v; first [apply ends_ret | apply ends_raise]
                   end ]
          | intros ? ]).
  apply ends_print.
Qed.

(** Every run of [main] ends with an exit status. *)
Lemma main_ends (config_path : str) (w : world) :
  exists status, exit_status (fst (main config_path w)) = Some status.
Proof.
  assert (Hends : ends (main config_path)).
  { unfold main. apply ends_bind; [apply ends_ask; discriminate |].
    intros found. destruct (negb found).
    - apply ends_bind; [apply ends_print | intros _].
      apply ends_bind; [apply ends_print | intros _; apply ends_sys_exit].
    - apply ends_bind.
      { apply ends_ask. intros f. unfold os.open_r.
        destruct (os.stat f config_path) as [[? [| |] | ?] |]; discriminate. }
      intros f. apply ends_bind.
      { apply ends_ask. intros _. unfold os.read.
        destruct (os.rflt f) as [| | k]; try discriminate.
        destruct (Nat.eqb k (os.nreads f)); discriminate. }
      intros text. apply ends_bind.
      { destruct (json_load (fst text)); [apply ends_ret | apply ends_raise]. }
      intros config. apply ends_bind; [| intros _; apply generate_ends].
      apply ends_for. intros key [].
      apply ends_bind.
      { unfold contains. destruct config; first [apply ends_ret | apply ends_raise]. }
      intros has. destruct (negb has); [| apply ends_ret].
      apply ends_bind; [apply ends_print | intros _; apply ends_sys_exit]. }
  specialize (Hends w). unfold exit_status.
  destruct (fst (main config_path w)); [eexists; reflexivity .. | congruence].
Qed.

End Ends.

(** * Further properties of the code *)

(** ** What a record says of its file *)

(** A loop of reads that returns has absorbed the whole file, whatever
    the fault of the file. *)
Lemma read_chunks_ok (size : nat) :
  1 <= size ->
  forall fuel h x y,
    length (os.rest h) < fuel ->
    read_chunks fuel size h x = Ok y -> y = SHA256.update x (os.rest h).
Proof.
  intros Hsize. induction fuel as [| fuel IH]; intros h x y Hfuel; [lia |].
  cbn [read_chunks]. unfold os.read.
  assert (Hstep :
            match firstn size (os.rest h) with
            | [] => Ok x
            | _ :: _ =>
                read_chunks fuel size
                  (os.RFile (skipn size (os.rest h)) (os.rflt h) (S (os.nreads h)))
                  (SHA256.update x (firstn size (os.rest h)))
            end = Ok y -> y = SHA256.update x (os.rest h)).
  { destruct (firstn size (os.rest h)) as [| b chunk] eqn:Echunk.
    - intros E. injection E as <-.
      rewrite (firstn_nil_inv size (os.rest h) Hsize Echunk). reflexivity.
    - rewrite <- Echunk. intros E. apply IH in E.
      + cbn [os.rest] in E. rewrite update_app, firstn_skipn in E. exact E.
      + cbn [os.rest].
        assert (Hrest : os.rest h <> [])
          by (intros E0; rewrite E0, firstn_nil in Echunk; discriminate).
        pose proof (skipn_shorter size (os.rest h) Hsize Hrest). lia. }
  destruct (os.rflt h) as [| | k]; try exact Hstep.
  destruct (Nat.eqb k (os.nreads h)); [discriminate | exact Hstep].
Qed.

Lemma hash_of_ok (f : fsys) (size : nat) (p sha256 : str) :
  1 <= size -> hash_of f size p = Ok sha256 ->
  exists content flt,
    os.stat f p = Some (File content flt) /\ sha256 = SHA256.sha256_hex content.
Proof.
  intros Hsize. unfold hash_of, os.open_r.
  destruct (os.stat f p) as [[content flt | es] |]; cbn [rbind]; try discriminate.
  intros E. exists content, flt. split; [reflexivity |].
  assert (Hrun : forall h : os.rfile, os.rest h = content ->
            rbind (read_chunks (S (length (os.rest h))) size h SHA256.new)
              (fun x => Ok (SHA256.hexdigest x)) = Ok sha256 ->
            sha256 = SHA256.sha256_hex content).
  { intros h Hrest Erun.
    destruct (read_chunks (S (length (os.rest h))) size h SHA256.new) as [x | | |] eqn:Er;
      cbn [rbind] in Erun; try discriminate.
    apply (read_chunks_ok size Hsize) in Er; [| lia].
    injection Erun as <-. rewrite Er, Hrest. reflexivity. }
  destruct flt; cbn [rbind] in E; try discriminate;
    (eapply Hrun; [| exact E]; reflexivity).
Qed.

Lemma getsize_file (f : fsys) (p : str) (content : list byte) (flt : fault) (size : Z) :
  os.stat f p = Some (File content flt) -> os.getsize f p = Ok size ->
  size = Z.of_nat (length content).
Proof. unfold os.getsize. intros ->. congruence. Qed.

(** X1. Every record a scan returns describes a regular file the scan
    visited: the value of [sha256] in the record is the SHA-256 digest
    of the whole content of that file, in hexadecimal, and the value of
    [size] is the number of bytes of that content. *)
Theorem record_hash_and_size (base_dir base_url : json) (w w' : world) (files : list json) :
  scan_files base_dir base_url w = (Ok files, w') ->
  forall r, In r files ->
  exists dir it content flt,
    base_dir = JString dir /\
    In it (scanned (fs w) dir) /\
    os.stat (fs w) (os.path.join (snd (fst it)) (snd it)) = Some (File content flt) /\
    field r "sha256" = Some (JString (SHA256.sha256_hex content)) /\
    field r "size" = Some (JInt (Z.of_nat (length content))).
Proof.
  intros Hscan r Hr.
  destruct (scan_files_ok_dir _ _ _ _ _ Hscan) as [dir ->].
  destruct (scan_files_records _ _ _ _ _ Hscan) as [Hall _].
  destruct (Forall2_pick_r _ _ _ Hall r Hr) as (it & Hit & line & Hvisit).
  destruct (visit_ok_shape _ _ _ _ _ _ Hvisit) as (u & rel & sha & size & _ & _ & Hsize & Hhash & ->).
  destruct (hash_of_ok _ _ _ _ (Nat.lt_0_succ _) Hhash) as (content & flt & Hstat & ->).
  rewrite (getsize_file _ _ _ _ _ Hstat Hsize).
  destruct (file_record_fields (replace_backslash rel) (SHA256.sha256_hex content)
              (rstrip_slash u ++ "/" ++ replace_backslash rel) (Z.of_nat (length content)))
    as (_ & Hsha & _ & Hlen & _).
  exists dir, it, content, flt.
  split; [reflexivity |]. split; [exact Hit |]. split; [exact Hstat |].
  split; [exact Hsha | exact Hlen].
Qed.

Lemma record_hash_and_size_witness :
  exists dir it content flt,
    JString "pack" = JString dir /\
    In it (scanned pack_fs dir) /\
    os.stat pack_fs (os.path.join (snd (fst it)) (snd it)) = Some (File content flt) /\
    field (JObject [("path", JString "mods/a.jar");
                    ("sha256", JString (SHA256.sha256_hex (bytes "test")));
                    ("url", JString "http://example.com/pack/mods/a.jar");
                    ("size", JInt 4);
                    ("required", JBool true)]) "sha256" =
      Some (JString (SHA256.sha256_hex content)) /\
    field (JObject [("path", JString "mods/a.jar");
                    ("sha256", JString (SHA256.sha256_hex (bytes "test")));
                    ("url", JString "http://example.com/pack/mods/a.jar");
                    ("size", JInt 4);
                    ("required", JBool true)]) "size" =
      Some (JInt (Z.of_nat (length content))).
Proof.
  apply (record_hash_and_size (JString "pack") (JString "http://example.com/pack")
           (World pack_fs [])
           (World pack_fs ["  [mods] a.jar (4 bytes)"; "  [config] settings.txt (0 bytes)"])
           [JObject [("path", JString "mods/a.jar");
                     ("sha256", JString (SHA256.sha256_hex (bytes "test")));
                     ("url", JString "http://example.com/pack/mods/a.jar");
                     ("size", JInt 4);
                     ("required", JBool true)];
            JObject [("path", JString "config/settings.txt");
                     ("sha256", JString (SHA256.sha256_hex []));
                     ("url", JString "http://example.com/pack/config/settings.txt");
                     ("size", JInt 0);
                     ("required", JBool true)]]).
  - vm_compute. reflexivity.
  - left. reflexivity.
Defined.

(** ** From the base directory and the recorded path back to the file *)

Lemma sep_join_not_abs (L : list str) :
  Forall clean L -> os.path.isabs (os.path.sep_join L) = false.
Proof.
  intros HL. destruct L as [| c L]; [reflexivity |].
  inversion HL as [| ? ? [Hne Hsep] _]; subst.
  assert (Hc : forall rest, os.path.isabs (c ++ rest) = false).
  { intros rest. destruct c as [| x c]; [congruence |]. cbn.
    apply is_sep_false. intros ->. apply Hsep. left. reflexivity. }
  destruct L as [| c' L].
  - cbn [os.path.sep_join]. rewrite <- (app_nil_r c). apply Hc.
  - rewrite sep_join_cons by discriminate. apply Hc.
Qed.

Lemma join_join (a x c : str) :
  x <> [] -> os.path.isabs x = false -> os.path.ends_with_sep x = false -> plain c ->
  os.path.join (os.path.join a x) c = os.path.join a (x ++ os.path.sep :: c).
Proof.
  intros Hx Habs Hend Hc.
  assert (Hxc : os.path.isabs (x ++ os.path.sep :: c) = false)
    by (destruct x; [congruence | exact Habs]).
  unfold os.path.join. rewrite Habs, Hxc, (plain_not_abs c Hc).
  destruct (negb (os.path.nonempty a) || os.path.ends_with_sep a).
  - rewrite (ends_with_sep_app a x Hx), Hend.
    replace (os.path.nonempty (a ++ x)) with true
      by (destruct a; destruct x; try reflexivity; congruence).
    cbn [negb orb]. rewrite <- app_assoc. reflexivity.
  - rewrite (ends_with_sep_app a (os.path.sep :: x)) by discriminate.
    change (os.path.sep :: x) with ([os.path.sep] ++ x) at 2.
    rewrite (ends_with_sep_app [os.path.sep] x Hx), Hend.
    replace (os.path.nonempty (a ++ os.path.sep :: x)) with true
      by (destruct a; reflexivity).
    cbn [negb orb]. rewrite <- app_assoc. reflexivity.
Qed.

(** Joining names one at a time is joining their path at once. *)
Lemma joins_join_sep_join (a : str) (cs : list str) :
  Forall plain cs ->
  forall L, L <> [] -> Forall clean L ->
    joins (os.path.join a (os.path.sep_join L)) cs =
    os.path.join a (os.path.sep_join (L ++ cs)).
Proof.
  induction 1 as [| c cs Hc Hcs IH]; intros L HL Hclean.
  - rewrite app_nil_r. reflexivity.
  - unfold joins. cbn [fold_left]. fold (joins (os.path.join (os.path.join a (os.path.sep_join L)) c) cs).
    destruct (sep_join_shape L HL Hclean) as [Hne Hend].
    rewrite (join_join a _ c Hne (sep_join_not_abs L Hclean) Hend Hc).
    rewrite <- (sep_join_snoc L c HL).
    rewrite IH.
    + rewrite <- app_assoc. reflexivity.
    + destruct L; discriminate.
    + apply Forall_app. split; [exact Hclean |].
      constructor; [apply plain_clean; exact Hc | constructor].
Qed.

(** X2. Where the trees under the scan directories are well formed and
    no name in them holds a backslash, the value of [path] in every
    record leads back to its file: [os.path.join(base_dir, path)] is a
    regular file, and the values of [sha256] and [size] in the record
    are the digest and the length of the content of that file. *)
Theorem record_path_leads_to_file (dir : str) (base_url : json) (w w' : world)
  (files : list json) :
  scan_trees_ok (fs w) dir = true ->
  scan_files (JString dir) base_url w = (Ok files, w') ->
  forall r, In r files ->
  exists rel_path content flt,
    field r "path" = Some (JString rel_path) /\
    os.stat (fs w) (os.path.join dir rel_path) = Some (File content flt) /\
    field r "sha256" = Some (JString (SHA256.sha256_hex content)) /\
    field r "size" = Some (JInt (Z.of_nat (length content))).
Proof.
  intros Hok Hscan r Hr.
  destruct (scan_files_records _ _ _ _ _ Hscan) as [Hall _].
  destruct (Forall2_pick_r _ _ _ Hall r Hr) as (it & Hit & line & Hvisit).
  destruct (visit_ok_shape _ _ _ _ _ _ Hvisit)
    as (u & rel & sha & size & _ & Hrel & Hsize & Hhash & ->).
  destruct (hash_of_ok _ _ _ _ (Nat.lt_0_succ _) Hhash) as (content & flt & Hstat & ->).
  rewrite (getsize_file _ _ _ _ _ Hstat Hsize).
  destruct (scanned_filepath _ _ _ Hit) as (d & cs & Hd & Hcs & Hpath).
  destruct (files_under_ok _ _ _ _ Hok Hd Hcs) as [Hplain Hback].
  destruct (scan_dirs_plain d Hd) as [Hdplain Hdback].
  rewrite Hpath in Hrel, Hstat.
  rewrite (relpath_joins (os.getcwd (fs w)) dir d cs eq_refl Hdplain Hplain) in Hrel.
  assert (Erel : rel = os.path.sep_join (d :: cs)) by congruence.
  rewrite Erel. clear Hrel Erel.
  rewrite (sep_join_no_backslash (d :: cs)) by (constructor; assumption).
  destruct (file_record_fields (os.path.sep_join (d :: cs)) (SHA256.sha256_hex content)
              (rstrip_slash u ++ "/" ++ os.path.sep_join (d :: cs))
              (Z.of_nat (length content)))
    as (Hfpath & Hfsha & _ & Hfsize & _).
  exists (os.path.sep_join (d :: cs)), content, flt.
  split; [exact Hfpath |]. split; [| split; [exact Hfsha | exact Hfsize]].
  rewrite <- Hstat. f_equal.
  change (d :: cs) with ([d] ++ cs).
  rewrite <- (joins_join_sep_join dir cs Hplain [d]).
  - reflexivity.
  - discriminate.
  - constructor; [apply plain_clean; exact Hdplain | constructor].
Qed.

Lemma record_path_leads_to_file_witness :
  exists rel_path content flt,
    field (JObject [("path", JString "mods/a.jar");
                    ("sha256", JString (SHA256.sha256_hex (bytes "test")));
                    ("url", JString "http://example.com/pack/mods/a.jar");
                    ("size", JInt 4);
                    ("required", JBool true)]) "path" = Some (JString rel_path) /\
    os.stat pack_fs (os.path.join "pack" rel_path) = Some (File content flt) /\
    field (JObject [("path", JString "mods/a.jar");
                    ("sha256", JString (SHA256.sha256_hex (bytes "test")));
                    ("url", JString "http://example.com/pack/mods/a.jar");
                    ("size", JInt 4);
                    ("required", JBool true)]) "sha256" =
      Some (JString (SHA256.sha256_hex content)) /\
    field (JObject [("path", JString "mods/a.jar");
                    ("sha256", JString (SHA256.sha256_hex (bytes "test")));
                    ("url", JString "http://example.com/pack/mods/a.jar");
                    ("size", JInt 4);
                    ("required", JBool true)]) "size" =
      Some (JInt (Z.of_nat (length content))).
Proof.
  apply (record_path_leads_to_file "pack" (JString "http://example.com/pack")
           (World pack_fs [])
           (World pack_fs ["  [mods] a.jar (4 bytes)"; "  [config] settings.txt (0 bytes)"])
           [JObject [("path", JString "mods/a.jar");
                     ("sha256", JString (SHA256.sha256_hex (bytes "test")));
                     ("url", JString "http://example.com/pack/mods/a.jar");
                     ("size", JInt 4);
                     ("required", JBool true)];
            JObject [("path", JString "config/settings.txt");
                     ("sha256", JString (SHA256.sha256_hex []));
                     ("url", JString "http://example.com/pack/config/settings.txt");
                     ("size", JInt 0);
                     ("required", JBool true)]]).
  - reflexivity.
  - vm_compute. reflexivity.
  - left. reflexivity.
Defined.

(** ** What a scan leaves behind *)

Lemma visits_lines (f : fsys) (dir : str) (base_url : json) :
  forall (items : list (str * str * str)) (files0 files : list json) (lines : list str),
    visits f dir base_url items files0 = (Ok files, lines) ->
    length files = length files0 + length lines.
Proof.
  induction items as [| it items IH]; intros files0 files lines E; cbn [visits] in E.
  - injection E as <- <-. cbn [length]. lia.
  - destruct (visit f dir base_url it) as [[r line] | e | code |]; try discriminate.
    destruct (visits f dir base_url items (files0 ++ [r])) as [out lines'] eqn:Erest.
    injection E as -> <-. apply IH in Erest.
    rewrite Erest, length_app. cbn [length]. lia.
Qed.

(** X3. A scan only reads: however it ends, the file system is as it
    was, and what was printed before is still there, followed by the
    lines of the scan; a scan that returns has printed one line for each
    record it returns. *)
Theorem scan_files_reads_only (base_dir base_url : json) (w : world) :
  fs (snd (scan_files base_dir base_url w)) = fs w /\
  exists lines,
    stdout (snd (scan_files base_dir base_url w)) = stdout w ++ lines /\
    forall files, fst (scan_files base_dir base_url w) = Ok files ->
      length lines = length files.
Proof.
  destruct base_dir as [| b | z | x | dir | l | l];
    try (rewrite scan_files_not_a_path by discriminate;
         split; [reflexivity |]; exists []; split;
         [symmetry; apply app_nil_r | intros files E; discriminate]).
  rewrite scan_files_visits. cbn [fst snd fs stdout]. split; [reflexivity |].
  exists (snd (visits (fs w) dir base_url (scanned (fs w) dir) [])).
  split; [reflexivity |]. intros files E.
  destruct (visits (fs w) dir base_url (scanned (fs w) dir) []) as [out lines] eqn:Ev.
  cbn [fst snd] in *. subst out.
  apply visits_lines in Ev. cbn [length] in Ev. lia.
Qed.

(** ** Scan names that are not directories *)

(** X5. A scan name that is not a directory under the base directory is
    passed over, be it absent or a regular file: where none of the four
    is a directory the scan returns no record, prints nothing and raises
    nothing, whatever else the base directory holds. *)
Theorem scan_names_not_directories (dir : str) (base_url : json) (w : world) :
  (forall d, In d SCAN_DIRS ->
     os.stat (fs w) (os.path.join dir d) = None \/
     exists content flt, os.stat (fs w) (os.path.join dir d) = Some (File content flt)) ->
  scan_files (JString dir) base_url w = (Ok [], w).
Proof.
  intros Hnone.
  assert (Hskip : forall d, In d SCAN_DIRS -> os.isdir (fs w) (os.path.join dir d) = false).
  { intros d Hd. unfold os.isdir.
    destruct (Hnone d Hd) as [-> | (content & flt & ->)]; reflexivity. }
  rewrite scan_files_visits, (scanned_none _ _ Hskip). cbn [visits fst snd].
  rewrite app_nil_r. destruct w; reflexivity.
Qed.

Lemma scan_names_not_directories_witness :
  scan_files (JString "pack") (JString "http://example.com/pack") (World mods_file_pack []) =
  (Ok [], World mods_file_pack []).
Proof.
  apply (scan_names_not_directories "pack" (JString "http://example.com/pack")
           (World mods_file_pack [])).
  intros d Hd. cbn [SCAN_DIRS In] in Hd.
  destruct Hd as [<- | [<- | [<- | [<- | []]]]];
    [right; exists (bytes "not a directory"), NoFault; reflexivity
    | left; reflexivity ..].
Defined.

(** ** Configurations of the wrong shape *)

Section Shapes.

Context {RT : Runtime}.

Lemma generate_not_a_dict (config : json) (w : world) :
  (forall items, config <> JObject items) -> generate config w = (Raise TypeError, w).
Proof.
  intros Hshape. destruct config; try reflexivity.
  exfalso. apply (Hshape items). reflexivity.
Qed.

Lemma generate_lacks_key (items : list (str * json)) (key : str) (w : world) :
  In key required -> assoc key items = None ->
  generate (JObject items) w = (Raise KeyError, w).
Proof.
  intros Hkey Hnone. unfold generate, bind, getitem, raise, ret.
  destruct (assoc "dir" items) as [base_dir |] eqn:Edir; [| reflexivity].
  destruct (assoc "base_url" items) as [base_url |] eqn:Eurl; [| reflexivity].
  destruct (assoc "mc_version" items) as [mc_version |] eqn:Emc; [| reflexivity].
  cbn [required In] in Hkey.
  destruct Hkey as [<- | [<- | [<- | []]]]; congruence.
Qed.

(** X6. [generate] reads the three required keys before anything else:
    called on a value that is no dict it raises [TypeError], and on a
    dict that lacks a required key [KeyError], with nothing printed and
    nothing written. *)
Theorem generate_config_errors (config : json) (w : world) :
  ((forall items, config <> JObject items) -> generate config w = (Raise TypeError, w)) /\
  (forall items key,
     config = JObject items -> In key required -> assoc key items = None ->
     generate config w = (Raise KeyError, w)).
Proof.
  split.
  - apply generate_not_a_dict.
  - intros items key ->. apply generate_lacks_key.
Qed.

(** X7. A configuration file that holds JSON other than an object never
    reaches the scan: [key not in config] raises [TypeError] for a
    number, a boolean or [null]; for a list or a string it is a test for
    an item or a substring, so the run either exits with status 1 on the
    first name it does not find, or goes on to [generate], where
    [config["dir"]] raises [TypeError]. Nothing is written. *)
Theorem config_not_an_object (p : str) (w : world) (config : json) :
  config_loads w p config ->
  (forall items, config <> JObject items) ->
  main p w = (Raise TypeError, w) \/
  exists key,
    In key required /\
    main p w = (Exit 1, World (fs w) (stdout w ++ [missing_field_line key])).
Proof.
  intros Hloads Hshape. rewrite (main_loaded p w config Hloads).
  assert (Hgen : generate config w = (Raise TypeError, w))
    by (apply generate_not_a_dict; exact Hshape).
  assert (Hcheck : forall (has : str -> bool),
            (forall key w0, contains config key w0 = (Ok (has key), w0)) ->
            (for_ required (fun key _ =>
               has <- contains config key ;;
               if negb has then
                 print ("설정 파일에 '" ++ key ++ "' 필드가 없습니다.") ;;
                 sys_exit 1
               else ret tt) tt ;;
             generate config) w = (Raise TypeError, w) \/
            exists key,
              In key required /\
              (for_ required (fun key _ =>
                 has <- contains config key ;;
                 if negb has then
                   print ("설정 파일에 '" ++ key ++ "' 필드가 없습니다.") ;;
                   sys_exit 1
                 else ret tt) tt ;;
               generate config) w =
              (Exit 1, World (fs w) (stdout w ++ [missing_field_line key]))).
  { intros has Hhas.
    set (body := fun (key : str) (_ : unit) =>
                   has <- contains config key ;;
                   if negb has then
                     print ("설정 파일에 '" ++ key ++ "' 필드가 없습니다.") ;;
                     sys_exit 1
                   else ret tt).
    assert (Hbody : forall key s w0,
              body key s w0 =
              if has key then (Ok tt, w0)
              else (Exit 1, World (fs w0) (stdout w0 ++ [missing_field_line key]))).
    { intros key s w0. unfold body, bind. rewrite Hhas.
      destruct (has key); reflexivity. }
    unfold required. cbn [for_]. unfold bind.
    rewrite (Hbody "dir").
    destruct (has "dir");
      [| right; exists "dir"; split; [left; reflexivity | reflexivity]].
    rewrite (Hbody "base_url").
    destruct (has "base_url");
      [| right; exists "base_url"; split; [right; left; reflexivity | reflexivity]].
    rewrite (Hbody "mc_version").
    destruct (has "mc_version");
      [| right; exists "mc_version"; split; [right; right; left; reflexivity | reflexivity]].
    left. exact Hgen. }
  destruct config as [| b | z | x | s | l | items];
    try (left; reflexivity).
  - apply (Hcheck (fun key => substring key s)). intros key w0. reflexivity.
  - apply (Hcheck (fun key =>
             existsb (fun x => match x with JString s => str_eqb s key | _ => false end) l)).
    intros key w0. reflexivity.
  - exfalso. apply (Hshape items). reflexivity.
Qed.

(** X8. A [dir] that is not a string is found out by the first
    [os.path.join] of the scan: the heading is printed, then the run
    ends with [TypeError], and nothing is written. *)
Theorem dir_not_a_string (items : list (str * json)) (base_dir base_url mc_version : json)
  (w : world) :
  assoc "dir" items = Some base_dir ->
  assoc "base_url" items = Some base_url ->
  assoc "mc_version" items = Some mc_version ->
  (forall s, base_dir <> JString s) ->
  generate (JObject items) w =
  (Raise TypeError, World (fs w) (stdout w ++ header items base_dir base_url mc_version)).
Proof.
  intros Hdir Hurl Hmc Hshape.
  rewrite (generate_unfold items base_dir base_url mc_version w Hdir Hurl Hmc).
  apply bind_raise. apply scan_files_not_a_path. exact Hshape.
Qed.

End Shapes.

Lemma generate_config_errors_witness :
  generate (RT := toy_runtime) JNull (World pack_fs []) = (Raise TypeError, World pack_fs []) /\
  generate (RT := toy_runtime) (JObject [("dir", JString "pack")]) (World pack_fs []) =
    (Raise KeyError, World pack_fs []).
Proof.
  split.
  - apply (generate_config_errors (RT := toy_runtime) JNull (World pack_fs [])).
    discriminate.
  - apply (proj2 (generate_config_errors (RT := toy_runtime)
                    (JObject [("dir", JString "pack")]) (World pack_fs []))
             [("dir", JString "pack")] "base_url").
    + reflexivity.
    + right. left. reflexivity.
    + reflexivity.
Defined.

Lemma config_not_an_object_witness :
  main (RT := const_runtime (JString "dir, base_url and mc_version")) default_config_path
    (World (pack_with_config 2) []) = (Raise TypeError, World (pack_with_config 2) []) \/
  exists key,
    In key required /\
    main (RT := const_runtime (JString "dir, base_url and mc_version")) default_config_path
      (World (pack_with_config 2) []) =
    (Exit 1, World (pack_with_config 2) ([] ++ [missing_field_line key])).
Proof.
  apply (config_not_an_object (RT := const_runtime (JString "dir, base_url and mc_version"))
           default_config_path (World (pack_with_config 2) [])
           (JString "dir, base_url and mc_version")).
  - exists (os.RFile [x20; x20] NoFault 0), [x20; x20], (os.RFile [] NoFault 1).
    repeat split.
  - discriminate.
Defined.

Lemma dir_not_a_string_witness :
  generate (RT := toy_runtime)
    (JObject [("dir", JInt 5); ("base_url", JString "u"); ("mc_version", JString "1.20.1")])
    (World pack_fs []) =
  (Raise TypeError,
   World pack_fs
     ([] ++ header (RT := toy_runtime)
              [("dir", JInt 5); ("base_url", JString "u"); ("mc_version", JString "1.20.1")]
              (JInt 5) (JString "u") (JString "1.20.1"))).
Proof.
  apply (dir_not_a_string (RT := toy_runtime)
           [("dir", JInt 5); ("base_url", JString "u"); ("mc_version", JString "1.20.1")]
           (JInt 5) (JString "u") (JString "1.20.1") (World pack_fs []));
    [reflexivity | reflexivity | reflexivity | discriminate].
Defined.

(** X9. The base URL is looked at only where a file was found: with a
    [base_url] that is not a string, a scan that finds no file returns
    the empty list as for any other, and a scan that finds one ends at
    the first file, with [AttributeError] from [rstrip], or with the
    [IOError] of reading that file, before a line is printed. *)
Theorem base_url_not_a_string (dir : str) (base_url : json) (w : world) :
  (forall u, base_url <> JString u) ->
  match scanned (fs w) dir with
  | [] => scan_files (JString dir) base_url w = (Ok [], w)
  | _ :: _ =>
      exists e,
        scan_files (JString dir) base_url w = (Raise e, w) /\
        (e = AttributeError \/ exists n, e = IOError n)
  end.
Proof.
  intros Hshape. rewrite scan_files_visits.
  destruct (scanned (fs w) dir) as [| it items] eqn:Escanned.
  - cbn [visits fst snd]. rewrite app_nil_r. destruct w; reflexivity.
  - assert (Hroot : snd (fst it) <> []).
    { apply (scanned_roots (fs w) dir). rewrite Escanned. left. reflexivity. }
    assert (Hvisit : exists e, visit (fs w) dir base_url it = Raise e /\
                               (e = AttributeError \/ exists n, e = IOError n)).
    { destruct it as [[d top] fn]. cbn [fst snd] in Hroot. unfold visit.
      destruct (relpath_ok (os.getcwd (fs w)) (os.path.join top fn) dir
                  (join_nonempty top fn Hroot)) as [rel ->]. cbn [rbind].
      pose proof (getsize_io (fs w) (os.path.join top fn)) as Hsize.
      destruct (os.getsize (fs w) (os.path.join top fn)) as [size | [n | | | | |] | code |];
        try contradiction; cbn [rbind];
        [| exists (OSError n); split; [reflexivity | right; exists n; reflexivity]].
      pose proof (hash_of_io (fs w) 8192 (os.path.join top fn)) as Hhash.
      destruct (hash_of (fs w) 8192 (os.path.join top fn)) as [sha | [n | | | | |] | code |];
        try contradiction; cbn [rbind];
        [| exists (OSError n); split; [reflexivity | right; exists n; reflexivity]].
      destruct base_url as [| b | z | x | u | l | l];
        try (exists AttributeError; split; [reflexivity | left; reflexivity]).
      exfalso. apply (Hshape u). reflexivity. }
    destruct Hvisit as (e & Hvisit & He). exists e. split; [| exact He].
    cbn [visits]. rewrite Hvisit. cbn [fst snd]. rewrite app_nil_r.
    destruct w; reflexivity.
Qed.

Lemma base_url_not_a_string_witness :
  (exists e,
     scan_files (JString "pack") (JInt 5) (World pack_fs []) = (Raise e, World pack_fs []) /\
     (e = AttributeError \/ exists n, e = IOError n)) /\
  scan_files (JString "pack") (JInt 5) (World mods_file_pack []) =
    (Ok [], World mods_file_pack []).
Proof.
  split.
  - apply (base_url_not_a_string "pack" (JInt 5) (World pack_fs [])). discriminate.
  - apply (base_url_not_a_string "pack" (JInt 5) (World mods_file_pack [])). discriminate.
Defined.

(** ** Slashes at the end of the base URL *)

Lemma rstrip_slash_slashes (k : nat) : rstrip_slash (repeat "/"%char k) = [].
Proof. induction k as [| k IH]; [reflexivity |]. cbn [repeat rstrip_slash]. rewrite IH. reflexivity. Qed.

Lemma rstrip_slash_app_slashes (u : str) (k : nat) :
  rstrip_slash (u ++ repeat "/"%char k) = rstrip_slash u.
Proof.
  induction u as [| c u IH].
  - apply rstrip_slash_slashes.
  - cbn [app rstrip_slash]. rewrite IH. reflexivity.
Qed.

Lemma visits_base_url (f : fsys) (dir u u' : str) :
  rstrip_slash u = rstrip_slash u' ->
  forall (items : list (str * str * str)) (files : list json),
    visits f dir (JString u) items files = visits f dir (JString u') items files.
Proof.
  intros Hstrip. induction items as [| it items IH]; intros files; [reflexivity |].
  cbn [visits].
  assert (Hvisit : visit f dir (JString u) it = visit f dir (JString u') it).
  { destruct it as [[d top] fn]. unfold visit. rewrite Hstrip. reflexivity. }
  rewrite Hvisit. destruct (visit f dir (JString u') it) as [[r line] | e | code |];
    try reflexivity.
  rewrite IH. reflexivity.
Qed.

(** X10. Slashes at the end of the base URL do not show in a scan: with
    any number of them added, the scan returns the same records, prints
    the same lines and ends the same way. *)
Theorem base_url_trailing_slashes (base_dir : json) (u : str) (k : nat) (w : world) :
  scan_files base_dir (JString (u ++ repeat "/"%char k)) w = scan_files base_dir (JString u) w.
Proof.
  destruct base_dir as [| b | z | x | dir | l | l];
    try (rewrite !scan_files_not_a_path by discriminate; reflexivity).
  rewrite !scan_files_visits.
  rewrite (visits_base_url (fs w) dir (u ++ repeat "/"%char k) u
             (rstrip_slash_app_slashes u k)).
  reflexivity.
Qed.

(** ** The form of a digest *)

Lemma compress_length (h : list Z) (block : list byte) :
  length h = 8 -> length (SHA256.compress h block) = 8.
Proof.
  intros Hh. unfold SHA256.compress. rewrite length_map, length_combine, Hh. reflexivity.
Qed.

Lemma absorb_chain (h : SHA256.hasher) (b : byte) :
  length (SHA256.chain h) = 8 -> length (SHA256.chain (SHA256.absorb h b)) = 8.
Proof.
  intros Hh. unfold SHA256.absorb.
  destruct (Nat.eqb (length (SHA256.pending h ++ [b])) 64); cbn [SHA256.chain];
    [apply compress_length; exact Hh | exact Hh].
Qed.

Lemma fold_absorb_chain (data : list byte) :
  forall h, length (SHA256.chain h) = 8 ->
    length (SHA256.chain (fold_left SHA256.absorb data h)) = 8.
Proof.
  induction data as [| b data IH]; intros h Hh; [exact Hh |].
  cbn [fold_left]. apply IH. apply absorb_chain. exact Hh.
Qed.

Lemma length_flat_map_const {A B : Type} (f : A -> list B) (k : nat) (l : list A) :
  (forall x, length (f x) = k) -> length (flat_map f l) = k * length l.
Proof.
  intros Hf. induction l as [| x l IH]; cbn [flat_map length]; [lia |].
  rewrite length_app, Hf, IH. lia.
Qed.

Lemma hex_digit_in (z : Z) : In (SHA256.hex_digit z) hex_digits.
Proof.
  unfold SHA256.hex_digit.
  destruct (Nat.lt_ge_cases (Z.to_nat z) (length hex_digits)) as [Hlt | Hge].
  - apply nth_In. exact Hlt.
  - rewrite nth_overflow by exact Hge. left. reflexivity.
Qed.

Lemma hexdigest_shape (h : SHA256.hasher) :
  length (SHA256.chain h) = 8 ->
  length (SHA256.hexdigest h) = 64 /\
  Forall (fun c => In c hex_digits) (SHA256.hexdigest h).
Proof.
  intros Hh. unfold SHA256.hexdigest. split.
  - rewrite (length_flat_map_const SHA256.hex_of_byte 2) by reflexivity.
    unfold SHA256.digest.
    rewrite (length_flat_map_const (SHA256.be_bytes 4) 4)
      by (intros z; unfold SHA256.be_bytes; rewrite length_map, length_rev, length_seq;
          reflexivity).
    rewrite (fold_absorb_chain _ h Hh). reflexivity.
  - apply Forall_flat_map. apply Forall_forall. intros b _.
    unfold SHA256.hex_of_byte.
    constructor; [apply hex_digit_in |]. constructor; [apply hex_digit_in | constructor].
Qed.

(** X11. The digest [sha256_file] returns for a file, whatever the file
    holds, is a string of 64 characters, each a digit or a letter from
    [a] to [f] in lower case. *)
Theorem sha256_file_digest_form (filepath : str) (w w' : world) (sha256 : str) :
  sha256_file filepath w = (Ok sha256, w') ->
  length sha256 = 64 /\ Forall (fun c => In c hex_digits) sha256.
Proof.
  rewrite sha256_file_hash_of. intros E. injection E as Ehash _.
  destruct (hash_of_ok _ _ _ _ (Nat.lt_0_succ _) Ehash) as (content & flt & _ & ->).
  unfold SHA256.sha256_hex. apply hexdigest_shape.
  unfold SHA256.update. apply fold_absorb_chain. reflexivity.
Qed.

Lemma sha256_file_digest_form_witness :
  length (SHA256.sha256_hex (bytes "test")) = 64 /\
  Forall (fun c => In c hex_digits) (SHA256.sha256_hex (bytes "test")).
Proof.
  apply (sha256_file_digest_form "pack/mods/a.jar" (World pack_fs []) (World pack_fs [])).
  vm_compute. reflexivity.
Defined.

(** ** A configuration file that cannot be read *)

(** X12. A configuration path that exists but cannot be opened (it is a
    directory, or permission is denied), or whose reading fails, ends
    the run with that [IOError], uncaught: status 1, nothing printed,
    nothing written. *)
Theorem config_unreadable {RT : Runtime} (p : str) (w : world) (e : exn) :
  (os.exists_ (fs w) p = true /\ os.open_r (fs w) p = Raise e) \/
  (exists f, os.open_r (fs w) p = Ok f /\ os.read f None = Raise e) ->
  main p w = (Raise e, w) /\
  (exists n, e = IOError n) /\
  exit_status (fst (main p w)) = Some 1%Z.
Proof.
  intros Hcase.
  assert (Hmain : main p w = (Raise e, w) /\ exists n, e = IOError n).
  { destruct Hcase as [[Hex Hopen] | (f & Hopen & Hread)].
    - split.
      + unfold main, bind, ask. rewrite Hex. cbn [negb]. rewrite Hopen. reflexivity.
      + unfold os.open_r in Hopen.
        destruct (os.stat (fs w) p) as [[content [| | k] | es] |];
          try discriminate; injection Hopen as <-; eexists; reflexivity.
    - split.
      + unfold main, bind, ask. rewrite (open_r_exists _ _ _ Hopen). cbn [negb].
        rewrite Hopen, Hread. reflexivity.
      + unfold os.read in Hread.
        destruct (os.rflt f) as [| | k]; try discriminate.
        destruct (Nat.eqb k (os.nreads f)); [| discriminate].
        injection Hread as <-. eexists; reflexivity. }
  destruct Hmain as [Hmain Hio]. rewrite Hmain. repeat split; assumption.
Qed.

Lemma config_unreadable_witness :
  main (RT := toy_runtime) "pack" (World pack_fs []) =
    (Raise (OSError EISDIR), World pack_fs []) /\
  (exists n, OSError EISDIR = IOError n) /\
  exit_status (fst (main (RT := toy_runtime) "pack" (World pack_fs []))) = Some 1%Z.
Proof.
  apply (config_unreadable (RT := toy_runtime) "pack" (World pack_fs []) (OSError EISDIR)).
  left. split; reflexivity.
Defined.

(** ** The exit status *)

Lemma exits_ret {A : Type} (P : Z -> Prop) (a : A) : exits_in P (ret a).
Proof. intros w code E. discriminate. Qed.

Lemma exits_raise {A : Type} (P : Z -> Prop) (e : exn) : exits_in P (raise (A := A) e).
Proof. intros w code E. discriminate. Qed.

Lemma exits_sys_exit {A : Type} (P : Z -> Prop) (code : Z) :
  P code -> exits_in P (sys_exit (A := A) code).
Proof. intros HP w code' E. cbn in E. injection E as <-. exact HP. Qed.

Lemma exits_print (P : Z -> Prop) (line : str) : exits_in P (print line).
Proof. intros w code E. discriminate. Qed.

Lemma exits_ask {A : Type} (P : Z -> Prop) (q : fsys -> res A) :
  (forall f code, q f <> Exit code) -> exits_in P (ask q).
Proof. intros Hq w code E. exfalso. exact (Hq _ _ E). Qed.

Lemma exits_act (P : Z -> Prop) (q : fsys -> res fsys) :
  (forall f code, q f <> Exit code) -> exits_in P (act q).
Proof.
  intros Hq w code. unfold act. pose proof (Hq (fs w)) as H.
  destruct (q (fs w)) as [f | e | code' |]; cbn [fst]; try discriminate.
  intros _. exfalso. exact (H code' eq_refl).
Qed.

Lemma exits_bind {A B : Type} (P : Z -> Prop) (c : M A) (k : A -> M B) :
  exits_in P c -> (forall a, exits_in P (k a)) -> exits_in P (bind c k).
Proof.
  intros Hc Hk w code. unfold bind. pose proof (Hc w) as H.
  destruct (c w) as [[a | e | code' |] w1]; cbn [fst] in *.
  - apply Hk.
  - discriminate.
  - intros E. injection E as <-. apply H. reflexivity.
  - discriminate.
Qed.

Lemma exits_for {A S : Type} (P : Z -> Prop) (body : A -> S -> M S) (l : list A) :
  (forall x s, exits_in P (body x s)) -> forall s, exits_in P (for_ l body s).
Proof.
  intros Hbody. induction l as [| x l IH]; intros s; cbn [for_].
  - apply exits_ret.
  - apply exits_bind; [apply Hbody | exact IH].
Qed.

Lemma io_outcome_no_exit {A : Type} (r : res A) (code : Z) : io_outcome r -> r <> Exit code.
Proof. destruct r; [discriminate | discriminate | contradiction | contradiction]. Qed.

Lemma scan_files_exits (P : Z -> Prop) (base_dir base_url : json) :
  exits_in P (scan_files base_dir base_url).
Proof.
  unfold scan_files. apply exits_for. intros scan_dir files.
  apply exits_bind; [destruct base_dir; first [apply exits_ret | apply exits_raise] |].
  intros dir. apply exits_bind; [apply exits_ask; discriminate |].
  intros is_dir. destruct (negb is_dir); [apply exits_ret |].
  apply exits_bind; [apply exits_ask; discriminate |].
  intros tree. apply exits_for. intros [[top dirs] filenames] files1.
  apply exits_for. intros filename files2.
  apply exits_bind.
  { apply exits_ask. intros f code. unfold os.path.relpath.
    destruct (os.path.join top filename); [discriminate |].
    match goal with
    | |- context [match ?l with [] => _ | _ :: _ => _ end] => destruct l
    end; discriminate. }
  intros rel. apply exits_bind.
  { apply exits_ask. intros f code. apply io_outcome_no_exit. apply getsize_io. }
  intros size. apply exits_bind.
  { intros w code E. exfalso. revert E. apply io_outcome_no_exit. apply sha256_file_by_ends. }
  intros sha. apply exits_bind; [destruct base_url; first [apply exits_ret | apply exits_raise] |].
  intros stripped. apply exits_bind; [apply exits_print | intros _; apply exits_ret].
Qed.

Lemma makedirs_no_exit (f : fsys) (name : str) (code : Z) : os.makedirs f name <> Exit code.
Proof.
  unfold os.makedirs. destruct (os.isdir f name); [discriminate |].
  destruct name; [discriminate |].
  match goal with |- context [mkdirs ?r ?c] => destruct (mkdirs r c) end; discriminate.
Qed.

Lemma write_file_no_exit (f : fsys) (p : str) (data : list byte) (code : Z) :
  os.write_file f p data <> Exit code.
Proof.
  unfold os.write_file. destruct (os.locate f p) as [comps |]; [| discriminate].
  destruct (get (root f) comps) as [[? ? | ?] |]; try discriminate;
    destruct (put (root f) comps (File data NoFault)); discriminate.
Qed.

Section Status.

Context {RT : Runtime}.

Lemma generate_exits (P : Z -> Prop) (config : json) : exits_in P (generate config).
Proof.
  unfold generate.
  repeat (apply exits_bind;
          [first [ apply exits_print
                 | apply scan_files_exits
                 | apply exits_act; intros f code;
                   first [apply makedirs_no_exit | apply write_file_no_exit]
                 | unfold getitem; destruct config; try apply exits_raise;
                   match goal with
                   | |- context [assoc ?k ?l] => destruct (assoc k l)
                   end; first [apply exits_ret | apply exits_raise]
                 | unfold get_or; destruct config; first [apply exits_ret | apply exits_raise]
                 | match goal with
                   | |- exits_in _ (as_path ?v) =>
                       destruct v; first [apply exits_ret | apply exits_raise]
                   end ]
          | intros ? ]).
  apply exits_print.
Qed.

Lemma main_exits (config_path : str) : exits_in (fun code => code = 1%Z) (main config_path).
Proof.
  unfold main. apply exits_bind; [apply exits_ask; discriminate |].
  intros found. destruct (negb found).
  - apply exits_bind; [apply exits_print | intros _].
    apply exits_bind; [apply exits_print | intros _; apply exits_sys_exit; reflexivity].
  - apply exits_bind.
    { apply exits_ask. intros f code. unfold os.open_r.
      destruct (os.stat f config_path) as [[? [| |] | ?] |]; discriminate. }
    intros f. apply exits_bind.
    { apply exits_ask. intros _ code. unfold os.read.
      destruct (os.rflt f) as [| | k]; try discriminate.
      destruct (Nat.eqb k (os.nreads f)); discriminate. }
    intros text. apply exits_bind.
    { destruct (json_load (fst text)); [apply exits_ret | apply exits_raise]. }
    intros config. apply exits_bind; [| intros _; apply generate_exits].
    apply exits_for. intros key [].
    apply exits_bind.
    { unfold contains. destruct config; first [apply exits_ret | apply exits_raise]. }
    intros has. destruct (negb has); [| apply exits_ret].
    apply exits_bind; [apply exits_print | intros _; apply exits_sys_exit; reflexivity].
Qed.

(** X13. [generate] never ends the process itself, and the only status
    [main] passes to [sys.exit] is 1: whatever the configuration and the
    file system, a run ends with status 0 or 1, and with 0 only where
    [main] returned. *)
Theorem exit_status_0_or_1 (config_path : str) (w : world) :
  (exit_status (fst (main config_path w)) = Some 0%Z \/
   exit_status (fst (main config_path w)) = Some 1%Z) /\
  (exit_status (fst (main config_path w)) = Some 0%Z <-> fst (main config_path w) = Ok tt) /\
  (forall config w0 code, fst (generate config w0) <> Exit code).
Proof.
  pose proof (main_exits config_path w) as Hexit.
  destruct (main_ends config_path w) as [status Hstatus].
  repeat split.
  - destruct (fst (main config_path w)) as [[] | e | code |]; cbn [exit_status] in *;
      [left; reflexivity | right; reflexivity | | discriminate].
    right. rewrite (Hexit code eq_refl). reflexivity.
  - destruct (fst (main config_path w)) as [[] | e | code |]; cbn [exit_status];
      [reflexivity | discriminate | | discriminate].
    intros E. pose proof (Hexit code eq_refl). congruence.
  - intros ->. reflexivity.
  - intros config w0 code E.
    exact (generate_exits (fun _ => False) config w0 code E).
Qed.

End Status.

(** ** How a run of [main] goes *)


Section Run.

Context {RT : Runtime}.

(** The check of the required fields on a value whose [in] is [has]. *)
Lemma check_with (config : json) (has : str -> bool) (w : world) :
  (forall key w0, contains config key w0 = (Ok (has key), w0)) ->
  for_ required (fun key _ =>
      has <- contains config key ;;
      if negb has then
        print ("설정 파일에 '" ++ key ++ "' 필드가 없습니다.") ;;
        sys_exit 1
      else ret tt) tt w =
  match find (fun key => negb (has key)) required with
  | Some key => (Exit 1, World (fs w) (stdout w ++ [missing_field_line key]))
  | None => (Ok tt, w)
  end.
Proof.
  intros Hhas. unfold required, missing_field_line. cbn [for_ find].
  unfold bind. rewrite !Hhas. unfold ret, print, sys_exit.
  destruct (has "dir"); cbn [negb]; [| reflexivity]. rewrite Hhas.
  destruct (has "base_url"); cbn [negb]; [| reflexivity]. rewrite Hhas.
  destruct (has "mc_version"); cbn [negb]; reflexivity.
Qed.

(** The check returns and changes nothing, or it does not return and
    has printed at most. *)
Lemma check_cases (config : json) (w : world) :
  for_ required (fun key _ =>
      has <- contains config key ;;
      if negb has then
        print ("설정 파일에 '" ++ key ++ "' 필드가 없습니다.") ;;
        sys_exit 1
      else ret tt) tt w = (Ok tt, w) \/
  exists r w1,
    for_ required (fun key _ =>
        has <- contains config key ;;
        if negb has then
          print ("설정 파일에 '" ++ key ++ "' 필드가 없습니다.") ;;
          sys_exit 1
        else ret tt) tt w = (r, w1) /\
    (forall u, r <> Ok u) /\ fs w1 = fs w.
Proof.
  assert (Hhas : forall has : str -> bool,
            (forall key w0, contains config key w0 = (Ok (has key), w0)) ->
            for_ required (fun key _ =>
                has <- contains config key ;;
                if negb has then
                  print ("설정 파일에 '" ++ key ++ "' 필드가 없습니다.") ;;
                  sys_exit 1
                else ret tt) tt w = (Ok tt, w) \/
            exists r w1,
              for_ required (fun key _ =>
                  has <- contains config key ;;
                  if negb has then
                    print ("설정 파일에 '" ++ key ++ "' 필드가 없습니다.") ;;
                    sys_exit 1
                  else ret tt) tt w = (r, w1) /\
              (forall u, r <> Ok u) /\ fs w1 = fs w).
  { intros has H. rewrite (check_with config has w H).
    destruct (find (fun key => negb (has key)) required) as [key |];
      [right | left; reflexivity].
    eexists _, _. split; [reflexivity |]. split; [discriminate | reflexivity]. }
  destruct config as [| b | z | x | s | l | items];
    try (right; exists (Raise TypeError), w; split; [reflexivity |];
         split; [discriminate | reflexivity]).
  - apply (Hhas (fun key => substring key s)). reflexivity.
  - apply (Hhas (fun key =>
             existsb (fun x => match x with JString s => str_eqb s key | _ => false end) l)).
    reflexivity.
  - apply (Hhas (fun key => match assoc key items with Some _ => true | None => false end)).
    reflexivity.
Qed.

(** A run of [main] ends before [generate] with the file system as it
    was, or it is the run of [generate] on the configuration loaded. *)
Lemma main_cases (p : str) (w : world) :
  (exists r w1, main p w = (r, w1) /\ r <> Ok tt /\ fs w1 = fs w) \/
  (exists config, config_loads w p config /\ main p w = generate config w).
Proof.
  destruct (os.exists_ (fs w) p) eqn:Eex.
  2:{ left. rewrite (main_not_found p w Eex). eexists _, _.
      split; [reflexivity |]. split; [discriminate | reflexivity]. }
  destruct (os.open_r (fs w) p) as [f | e | code |] eqn:Eopen;
    try (left; eexists _, w; split;
         [unfold main, bind, ask; rewrite Eex; cbn [negb]; rewrite Eopen; reflexivity |];
         split; [discriminate | reflexivity]).
  destruct (os.read f None) as [[text f'] | e | code |] eqn:Eread;
    try (left; eexists _, w; split;
         [unfold main, bind, ask; rewrite Eex; cbn [negb]; rewrite Eopen, Eread; reflexivity |];
         split; [discriminate | reflexivity]).
  destruct (json_load text) as [config |] eqn:Eload.
  2:{ left. exists (Raise JSONDecodeError), w. split.
      - apply main_invalid. exists f, text, f'. repeat split; assumption.
      - split; [discriminate | reflexivity]. }
  assert (Hloads : config_loads w p config)
    by (exists f, text, f'; repeat split; assumption).
  pose proof (main_loaded p w config Hloads) as Hmain. unfold bind at 1 in Hmain.
  destruct (check_cases config w) as [Hc | (r & w1 & Hc & Hr & Hfs)]; rewrite Hc in Hmain.
  - right. exists config. split; [exact Hloads | exact Hmain].
  - left. destruct r as [u | e | code |]; [destruct (Hr u eq_refl) | ..];
      eexists _, w1; (split; [exact Hmain |]); (split; [discriminate | exact Hfs]).
Qed.


End Run.


(** ** What [os.makedirs] keeps *)

Lemma mkdirs_keeps :
  forall (comps : list str) (n n' : node),
    mkdirs n comps = Some n' ->
    forall q m, get n q = Some m ->
      exists m', get n' q = Some m' /\
                 match m with
                 | File _ _ => m' = m
                 | Dir _ => exists es', m' = Dir es'
                 end.
Proof.
  assert (Hsame : forall m : node,
            match m with File _ _ => m = m | Dir _ => exists es', m = Dir es' end).
  { intros [content flt | es]; [reflexivity | exists es; reflexivity]. }
  induction comps as [| c cs IH]; intros n n' Hmk q m Hget.
  - destruct n as [content flt | es]; cbn [mkdirs] in Hmk; [discriminate |].
    injection Hmk as <-. exists m. split; [exact Hget | apply Hsame].
  - destruct n as [content flt | es]; cbn [mkdirs] in Hmk; [discriminate |].
    destruct q as [| x q].
    { cbn [get] in Hget. injection Hget as <-.
      destruct (assoc c es) as [child |];
        [destruct (mkdirs child cs) | destruct (mkdirs (Dir []) cs)];
        try discriminate; injection Hmk as <-;
        eexists; (split; [reflexivity | eexists; reflexivity]). }
    cbn [get] in Hget.
    destruct (assoc x es) as [ch |] eqn:Ex; [| discriminate].
    destruct (list_eq_dec ascii_dec x c) as [-> | Hxc].
    + rewrite Ex in Hmk.
      destruct (mkdirs ch cs) as [child' |] eqn:Emk; [| discriminate].
      injection Hmk as <-. cbn [get].
      rewrite (assoc_set_entry_same c ch child' es Ex).
      apply (IH ch child' Emk q m Hget).
    + exists m. split; [| apply Hsame].
      destruct (assoc c es) as [child |] eqn:Ec.
      * destruct (mkdirs child cs) as [child' |]; [| discriminate].
        injection Hmk as <-. cbn [get].
        rewrite (assoc_set_entry_other c x child' es Hxc), Ex. exact Hget.
      * destruct (mkdirs (Dir []) cs) as [child' |]; [| discriminate].
        injection Hmk as <-. cbn [get].
        rewrite (assoc_app_other c x child' es Hxc), Ex. exact Hget.
Qed.

Lemma scan_files_fs (base_dir base_url : json) (w : world) :
  fs (snd (scan_files base_dir base_url w)) = fs w.
Proof.
  destruct base_dir as [| b | z | x | dir | l | l];
    try (rewrite scan_files_not_a_path by discriminate; reflexivity).
  rewrite scan_files_visits. reflexivity.
Qed.

(** ** Nothing is written before the scan has returned *)

Section BeforeWrite.

Context {RT : Runtime}.

(** [generate] has changed nothing, or the scan of its configuration
    has returned. *)
Lemma generate_unchanged_or_scanned (config : json) (w : world) :
  fs (snd (generate config w)) = fs w \/
  exists items dir base_url files,
    config = JObject items /\
    assoc "dir" items = Some (JString dir) /\
    assoc "base_url" items = Some base_url /\
    fst (scan_files (JString dir) base_url w) = Ok files.
Proof.
  destruct config as [| b | z | x | s | l | items];
    try (left; rewrite generate_not_a_dict by discriminate; reflexivity).
  destruct (assoc "dir" items) as [base_dir |] eqn:Edir;
    [| left; rewrite (generate_lacks_key items "dir" w (or_introl eq_refl) Edir);
       reflexivity].
  destruct (assoc "base_url" items) as [base_url |] eqn:Eurl;
    [| left;
       rewrite (generate_lacks_key items "base_url" w (or_intror (or_introl eq_refl)) Eurl);
       reflexivity].
  destruct (assoc "mc_version" items) as [mc_version |] eqn:Emc;
    [| left;
       rewrite (generate_lacks_key items "mc_version" w
                  (or_intror (or_intror (or_introl eq_refl))) Emc);
       reflexivity].
  rewrite (generate_unfold items base_dir base_url mc_version w Edir Eurl Emc).
  set (w0 := World (fs w) (stdout w ++ header items base_dir base_url mc_version)).
  pose proof (scan_files_fs base_dir base_url w0) as Hfs. unfold bind.
  destruct (scan_files base_dir base_url w0) as [[files | e | code |] w1] eqn:Escan;
    cbn [fst snd] in *; try (left; exact Hfs).
  right. destruct (scan_files_ok_dir _ _ _ _ _ Escan) as [dir ->].
  exists items, dir, base_url, files.
  split; [reflexivity |]. split; [exact Edir |]. split; [exact Eurl |].
  rewrite scan_files_visits in Escan. rewrite scan_files_visits.
  change (fs w0) with (fs w) in Escan. cbn [fst].
  apply (f_equal fst) in Escan. exact Escan.
Qed.

(** X15. Before its scan has returned, a run writes nothing: however a
    run of [main] ends, the file system is exactly as it was, unless the
    run has loaded a dict with [dir] and [base_url] and the scan of that
    base directory has returned its records. A run that ends on the
    configuration or in the scan has made, changed and removed
    nothing. *)
Theorem unchanged_unless_scan_returned (p : str) (w : world) :
  fs (snd (main p w)) = fs w \/
  exists items dir base_url files,
    config_loads w p (JObject items) /\
    assoc "dir" items = Some (JString dir) /\
    assoc "base_url" items = Some base_url /\
    fst (scan_files (JString dir) base_url w) = Ok files.
Proof.
  destruct (main_cases p w) as [(r & w1 & E & _ & Hfs) | (config & Hloads & E)]; rewrite E.
  - left. exact Hfs.
  - destruct (generate_unchanged_or_scanned config w)
      as [Hfs | (items & dir & base_url & files & -> & Hdir & Hurl & Hscan)].
    + left. exact Hfs.
    + right. exists items, dir, base_url, files. repeat split; assumption.
Qed.

End BeforeWrite.

(** ** Writing over a manifest *)



(** ** A slash at the end of the base directory *)

Lemma join_snoc_sep (dir d : str) :
  dir <> [] -> os.path.ends_with_sep dir = false ->
  os.path.join (dir ++ [os.path.sep]) d = os.path.join dir d.
Proof.
  intros Hne Hend. unfold os.path.join. destruct (os.path.isabs d); [reflexivity |].
  rewrite (ends_with_sep_app dir [os.path.sep]) by discriminate.
  rewrite Hend. change (os.path.ends_with_sep [os.path.sep]) with true.
  rewrite orb_true_r.
  destruct dir as [| c dir]; [congruence |]. cbn [os.path.nonempty negb orb].
  rewrite <- app_assoc. reflexivity.
Qed.

Lemma initial_slashes_snoc_sep (p : str) :
  p <> [] -> os.path.ends_with_sep p = false ->
  os.path.initial_slashes (p ++ [os.path.sep]) = os.path.initial_slashes p.
Proof.
  intros Hne Hend. unfold os.path.initial_slashes.
  destruct p as [| c1 [| c2 [| c3 p]]]; [congruence | | | reflexivity].
  - cbn in Hend. cbn [app starts_with].
    destruct (ascii_dec os.path.sep c1) as [<- | Hc]; [discriminate | reflexivity].
  - assert (Hc2 : os.path.sep <> c2).
    { intros <-. cbn in Hend. discriminate. }
    cbn [app starts_with].
    destruct (ascii_dec os.path.sep c1); [| reflexivity].
    destruct (ascii_dec os.path.sep c2); [congruence | reflexivity].
Qed.

Lemma normpath_snoc_sep (p : str) :
  p <> [] -> os.path.ends_with_sep p = false ->
  os.path.normpath (p ++ [os.path.sep]) = os.path.normpath p.
Proof.
  intros Hne Hend.
  assert (Hcomps : os.path.norm_comps (p ++ [os.path.sep]) = os.path.norm_comps p).
  { unfold os.path.norm_comps.
    rewrite (initial_slashes_snoc_sep p Hne Hend), (split_sep_app_sep p []), fold_left_app.
    reflexivity. }
  unfold os.path.normpath.
  rewrite Hcomps, (initial_slashes_snoc_sep p Hne Hend).
  destruct p as [| c p]; [congruence | reflexivity].
Qed.

Lemma abspath_snoc_sep (getcwd p : str) :
  p <> [] -> os.path.ends_with_sep p = false ->
  os.path.abspath getcwd (p ++ [os.path.sep]) = os.path.abspath getcwd p.
Proof.
  intros Hne Hend. unfold os.path.abspath.
  assert (Habs : os.path.isabs (p ++ [os.path.sep]) = os.path.isabs p)
    by (destruct p; [congruence | reflexivity]).
  rewrite Habs. destruct (os.path.isabs p) eqn:Ep.
  - apply normpath_snoc_sep; assumption.
  - assert (Hjoin : os.path.join getcwd (p ++ [os.path.sep]) =
                    os.path.join getcwd p ++ [os.path.sep]).
    { unfold os.path.join. rewrite Habs, Ep.
      destruct (negb (os.path.nonempty getcwd) || os.path.ends_with_sep getcwd);
        [rewrite app_assoc | rewrite app_comm_cons, app_assoc]; reflexivity. }
    rewrite Hjoin. apply normpath_snoc_sep.
    + apply join_name_nonempty. exact Hne.
    + unfold os.path.join. rewrite Ep.
      destruct (negb (os.path.nonempty getcwd) || os.path.ends_with_sep getcwd).
      * rewrite (ends_with_sep_app getcwd p Hne). exact Hend.
      * rewrite (ends_with_sep_app getcwd (os.path.sep :: p)) by discriminate.
        change (os.path.sep :: p) with ([os.path.sep] ++ p).
        rewrite (ends_with_sep_app [os.path.sep] p Hne). exact Hend.
Qed.

(** X17. The base directory written with a slash at its end is the same
    base directory: the scan returns the same records, prints the same
    lines and ends the same way, and the manifest goes to the same
    path. *)
Theorem dir_trailing_slash (dir : str) (base_url : json) (w : world) :
  dir <> [] -> os.path.ends_with_sep dir = false ->
  scan_files (JString (dir ++ "/")) base_url w = scan_files (JString dir) base_url w /\
  os.path.join (dir ++ "/") "manifest.json" = os.path.join dir "manifest.json".
Proof.
  intros Hne Hend. split; [| apply (join_snoc_sep dir _ Hne Hend)].
  rewrite !scan_files_visits.
  assert (Hscanned : scanned (fs w) (dir ++ "/") = scanned (fs w) dir).
  { unfold scanned. apply flat_map_ext. intros d. unfold scanned_in.
    change (dir ++ "/") with (dir ++ [os.path.sep]).
    rewrite (join_snoc_sep dir d Hne Hend). reflexivity. }
  assert (Hvisits : forall items files,
            visits (fs w) (dir ++ "/") base_url items files =
            visits (fs w) dir base_url items files).
  { induction items as [| it items IH]; intros files; [reflexivity |].
    cbn [visits].
    assert (Hvisit : visit (fs w) (dir ++ "/") base_url it = visit (fs w) dir base_url it).
    { destruct it as [[d top] fn]. unfold visit, os.path.relpath.
      change (dir ++ "/") with (dir ++ [os.path.sep]).
      rewrite (abspath_snoc_sep (os.getcwd (fs w)) dir Hne Hend). reflexivity. }
    rewrite Hvisit. destruct (visit (fs w) dir base_url it) as [[r line] | e | code |];
      try reflexivity.
    rewrite IH. reflexivity. }
  rewrite Hscanned, Hvisits. reflexivity.
Qed.

Lemma dir_trailing_slash_witness :
  scan_files (JString "pack/") (JString "http://example.com/pack") (World pack_fs []) =
    scan_files (JString "pack") (JString "http://example.com/pack") (World pack_fs []) /\
  os.path.join "pack/" "manifest.json" = os.path.join "pack" "manifest.json".
Proof.
  apply (dir_trailing_slash "pack" (JString "http://example.com/pack") (World pack_fs []));
    [discriminate | reflexivity].
Defined.

(** ** A base directory that does not exist yet *)

Lemma mkdirs_makes :
  forall (comps : list str) (n n' : node),
    mkdirs n comps = Some n' -> is_dir_at n' comps = true.
Proof.
  induction comps as [| c cs IH]; intros n n' Hmk;
    destruct n as [content flt | es]; cbn [mkdirs] in Hmk; try discriminate.
  - injection Hmk as <-. reflexivity.
  - unfold is_dir_at. destruct (assoc c es) as [child |] eqn:Ec.
    + destruct (mkdirs child cs) as [child' |] eqn:Emk; [| discriminate].
      injection Hmk as <-. cbn [get].
      rewrite (assoc_set_entry_same c child child' es Ec). apply (IH child child' Emk).
    + destruct (mkdirs (Dir []) cs) as [child' |] eqn:Emk; [| discriminate].
      injection Hmk as <-. cbn [get].
      rewrite (assoc_app_new c child' es Ec). apply (IH (Dir []) child' Emk).
Qed.

(** A name missing in a directory is made an empty directory. *)
Lemma mkdirs_new (name : str) :
  forall (B : list str) (n : node),
    is_dir_at n B = true -> get n (B ++ [name]) = None ->
    exists n', mkdirs n (B ++ [name]) = Some n' /\ get n' (B ++ [name]) = Some (Dir []).
Proof.
  induction B as [| b B IH]; intros n Hdir Hnone; unfold is_dir_at in Hdir.
  - cbn [get app] in *. destruct n as [content flt | es]; [discriminate |].
    destruct (assoc name es) as [child |] eqn:En; [discriminate |].
    exists (Dir (es ++ [(name, Dir [])])). cbn [mkdirs get]. rewrite En. split; [reflexivity |].
    rewrite (assoc_app_new name (Dir []) es En). reflexivity.
  - cbn [get app] in *. destruct n as [content flt | es]; [discriminate |].
    destruct (assoc b es) as [child |] eqn:Eb; [| discriminate].
    destruct (IH child Hdir Hnone) as (child' & Emk & Hget).
    exists (Dir (set_entry b child' es)). cbn [mkdirs get]. rewrite Eb, Emk.
    split; [reflexivity |].
    rewrite (assoc_set_entry_same b child child' es Eb). exact Hget.
Qed.

Lemma locate_nonempty (f : fsys) (p : str) :
  p <> [] ->
  os.locate f p =
  os.resolve (root f) (if os.path.isabs p then [] else cwd f) (os.path.split_sep p).
Proof. intros Hp. destruct p; [congruence | reflexivity]. Qed.

Lemma makedirs_missing (f : fsys) (name : str) :
  name <> [] -> os.isdir f name = false ->
  os.makedirs f name =
  match mkdirs (root f) (names_of (os.path.abspath (os.getcwd f) name)) with
  | Some r => Ok (FS r (cwd f))
  | None => Raise (OSError EEXIST)
  end.
Proof.
  intros Hname Hnd. unfold os.makedirs. rewrite Hnd.
  destruct name; [congruence | reflexivity].
Qed.

Lemma locate_plain (f : fsys) (name : str) :
  plain name -> is_dir_at (root f) (cwd f) = true ->
  os.locate f name = Some (cwd f ++ [name]).
Proof.
  intros Hname Hcwd. rewrite locate_nonempty by apply Hname.
  rewrite (plain_not_abs name Hname).
  rewrite (split_sep_plain name) by (apply Hname).
  rewrite (resolve_name (root f) (cwd f) name Hname), Hcwd. reflexivity.
Qed.

Lemma names_of_getcwd (f : fsys) : Forall plain (cwd f) -> names_of (os.getcwd f) = cwd f.
Proof.
  intros Hcwd. unfold os.getcwd.
  change (os.path.sep :: os.path.sep_join (cwd f))
    with (repeat os.path.sep 1 ++ os.path.sep_join (cwd f)).
  rewrite names_of_slashes. apply names_of_sep_join.
  apply (Forall_impl clean plain_clean Hcwd).
Qed.

Section NewDirectory.

Context {RT : Runtime}.

(** X18. A base directory that does not exist yet, named by a single
    name in a working directory that exists, is made by the run: the
    scan finds nothing to scan, [os.makedirs] makes the directory, and
    the manifest written into it lists no file. *)
Theorem missing_base_dir_is_made (items : list (str * json)) (dir : str)
  (base_url mc_version : json) (w : world) :
  assoc "dir" items = Some (JString dir) ->
  assoc "base_url" items = Some base_url ->
  assoc "mc_version" items = Some mc_version ->
  plain dir ->
  Forall plain (cwd (fs w)) ->
  is_dir_at (root (fs w)) (cwd (fs w)) = true ->
  os.exists_ (fs w) dir = false ->
  exists w',
    generate (JObject items) w = (Ok tt, w') /\
    os.isdir (fs w') dir = true /\
    os.stat (fs w') (os.path.join dir "manifest.json") =
      Some (File (encode (json_dump
        (manifest_of mc_version (loader_type_of items) (loader_version_of items) []
           (java_args_of items) (server_address_of items)))) NoFault).
Proof.
  intros Hdir Hurl Hmc Hplain Hnames Hcwd Hex.
  assert (Hne : dir <> []) by apply Hplain.
  pose proof (locate_plain (fs w) dir Hplain Hcwd) as Hloc.
  assert (Hnone : get (root (fs w)) (cwd (fs w) ++ [dir]) = None).
  { unfold os.exists_, os.stat in Hex. rewrite Hloc in Hex.
    destruct (get (root (fs w)) (cwd (fs w) ++ [dir])); [discriminate | reflexivity]. }
  assert (Hskip : forall d, In d SCAN_DIRS -> os.isdir (fs w) (os.path.join dir d) = false).
  { intros d Hd. unfold os.isdir, os.stat.
    rewrite (locate_join_any (fs w) dir d Hne (proj1 (scan_dirs_plain d Hd))), Hloc.
    rewrite (resolve_name _ _ d (proj1 (scan_dirs_plain d Hd))).
    unfold is_dir_at. rewrite Hnone. reflexivity. }
  destruct (mkdirs_new dir (cwd (fs w)) (root (fs w)) Hcwd Hnone) as (r' & Emk & Hnew).
  set (f1 := FS r' (cwd (fs w))).
  assert (Hmk : os.makedirs (fs w) dir = Ok f1).
  { rewrite (makedirs_missing (fs w) dir Hne)
      by (unfold os.isdir, os.stat; rewrite Hloc, Hnone; reflexivity).
    rewrite (names_of_abspath (os.getcwd (fs w)) dir eq_refl).
    rewrite (plain_not_abs dir Hplain), (names_of_getcwd (fs w) Hnames),
      (names_of_plain dir Hplain).
    pose proof (norm_fold_plain true (cwd (fs w) ++ [dir])
                  (proj2 (Forall_app plain (cwd (fs w)) [dir])
                     (conj Hnames (Forall_cons dir Hplain (Forall_nil plain)))) [] [])
      as Hnorm.
    cbn [fold_left app] in Hnorm. rewrite Hnorm, Emk. reflexivity. }
  assert (Hcwd1 : is_dir_at (root f1) (cwd f1) = true).
  { cbn [root cwd f1]. unfold is_dir_at in *.
    destruct (get (root (fs w)) (cwd (fs w))) as [[? ? | es] |] eqn:Eget; try discriminate.
    destruct (mkdirs_keeps _ _ _ Emk _ _ Eget) as (m' & -> & es' & ->). reflexivity. }
  pose proof (locate_plain f1 dir Hplain Hcwd1) as Hloc1. cbn [cwd f1] in Hloc1.
  assert (Hisdir1 : os.isdir f1 dir = true).
  { unfold os.isdir, os.stat. rewrite Hloc1. cbn [root f1]. rewrite Hnew. reflexivity. }
  assert (Hnd1 : os.isdir f1 (os.path.join dir "manifest.json") = false).
  { unfold os.isdir, os.stat.
    rewrite (locate_join f1 dir "manifest.json" _ plain_manifest_json Hloc1)
      by (unfold is_dir_at; cbn [root f1]; rewrite Hnew; reflexivity).
    cbn [root f1]. rewrite get_app, Hnew. reflexivity. }
  destruct (write_file_in_dir f1 dir "manifest.json"
              (encode (json_dump (manifest_for items mc_version [])))
              plain_manifest_json Hisdir1 Hnd1) as [f2 Hwr].
  rewrite (generate_unfold items _ _ _ w Hdir Hurl Hmc).
  set (w0 := World (fs w) (stdout w ++ header items (JString dir) base_url mc_version)).
  assert (Hscan : scan_files (JString dir) base_url w0 = (Ok [], w0)).
  { rewrite scan_files_visits. change (fs w0) with (fs w).
    rewrite (scanned_none _ _ Hskip). cbn [visits fst snd]. rewrite app_nil_r. reflexivity. }
  rewrite (bind_step _ _ w0 w0 [] Hscan).
  eexists. split; [| split].
  - unfold finish, bind, print, as_path, ret, act. cbn [fs stdout w0].
    rewrite Hmk. cbn [fs stdout]. rewrite Hwr. reflexivity.
  - cbn [fs].
    apply (write_file_sibling f1 f2 dir "manifest.json" "mods" _ plain_manifest_json
             (proj1 (scan_dirs_plain "mods" (or_introl eq_refl)))
             (scan_dirs_not_manifest "mods" (or_introl eq_refl)) Hisdir1 Hwr).
  - cbn [fs]. apply (write_file_stat _ _ _ _ Hwr).
Qed.

End NewDirectory.

Lemma missing_base_dir_is_made_witness :
  exists w',
    generate (RT := toy_runtime) pack_config (World no_pack []) = (Ok tt, w') /\
    os.isdir (fs w') "pack" = true /\
    os.stat (fs w') (os.path.join "pack" "manifest.json") =
      Some (File (encode (@json_dump toy_runtime
        (manifest_of (JString "1.20.1")
           (loader_type_of [("dir", JString "pack");
              ("base_url", JString "http://example.com/pack");
              ("mc_version", JString "1.20.1")])
           (loader_version_of [("dir", JString "pack");
              ("base_url", JString "http://example.com/pack");
              ("mc_version", JString "1.20.1")]) []
           (java_args_of [("dir", JString "pack");
              ("base_url", JString "http://example.com/pack");
              ("mc_version", JString "1.20.1")])
           (server_address_of [("dir", JString "pack");
              ("base_url", JString "http://example.com/pack");
              ("mc_version", JString "1.20.1")])))) NoFault).
Proof.
  apply (missing_base_dir_is_made (RT := toy_runtime)
           [("dir", JString "pack");
            ("base_url", JString "http://example.com/pack");
            ("mc_version", JString "1.20.1")]
           "pack" (JString "http://example.com/pack") (JString "1.20.1") (World no_pack []));
    try reflexivity.
  - apply plainb_plain. reflexivity.
  - repeat constructor; apply plainb_plain; reflexivity.
Defined.

(** ** Where the recorded paths lie *)




(** ** Which key is reported, and which keys are read *)

Section Keys.

Context {RT : Runtime}.

(** X20. The check of the required keys stops at the first key that is
    missing, in the order [dir], [base_url], [mc_version]: the run
    prints the one line that names that key and exits with status 1,
    whatever other keys are missing. *)
Theorem first_missing_key_reported (p : str) (w : world) (items : list (str * json)) :
  config_loads w p (JObject items) ->
  (assoc "dir" items = None ->
   main p w = (Exit 1, World (fs w) (stdout w ++ [missing_field_line "dir"]))) /\
  (assoc "dir" items <> None -> assoc "base_url" items = None ->
   main p w = (Exit 1, World (fs w) (stdout w ++ [missing_field_line "base_url"]))) /\
  (assoc "dir" items <> None -> assoc "base_url" items <> None ->
   assoc "mc_version" items = None ->
   main p w = (Exit 1, World (fs w) (stdout w ++ [missing_field_line "mc_version"]))).
Proof.
  intros Hloads.
  assert (Hlacks : forall key, first_missing items = Some key ->
            main p w = (Exit 1, World (fs w) (stdout w ++ [missing_field_line key]))).
  { intros key Hkey. apply main_lacks. exists items. split; assumption. }
  unfold first_missing, required in Hlacks. cbn [find] in Hlacks.
  repeat split.
  - intros Hdir. apply Hlacks. rewrite Hdir. reflexivity.
  - intros Hdir Hurl. apply Hlacks.
    destruct (assoc "dir" items); [| congruence]. rewrite Hurl. reflexivity.
  - intros Hdir Hurl Hmc. apply Hlacks.
    destruct (assoc "dir" items); [| congruence].
    destruct (assoc "base_url" items); [| congruence]. rewrite Hmc. reflexivity.
Qed.

(** X21. [generate] reads seven keys of the configuration and no other:
    two dicts that agree on these keys give the same run, so a key the
    program does not know changes nothing. *)
Theorem unknown_keys_ignored (items1 items2 : list (str * json)) (w : world) :
  (forall key, In key known_keys -> assoc key items1 = assoc key items2) ->
  generate (JObject items1) w = generate (JObject items2) w.
Proof.
  intros Hsame. unfold generate, getitem, get_or.
  rewrite (Hsame "dir") by (cbn; tauto).
  rewrite (Hsame "base_url") by (cbn; tauto).
  rewrite (Hsame "mc_version") by (cbn; tauto).
  rewrite (Hsame "loader_type") by (cbn; tauto).
  rewrite (Hsame "loader_version") by (cbn; tauto).
  rewrite (Hsame "java_args") by (cbn; tauto).
  rewrite (Hsame "server_address") by (cbn; tauto).
  reflexivity.
Qed.

End Keys.

Lemma first_missing_key_reported_witness :
  main (RT := toy_runtime) default_config_path (World (pack_with_config 1) []) =
  (Exit 1, World (pack_with_config 1) ([] ++ [missing_field_line "base_url"])).
Proof.
  apply (first_missing_key_reported (RT := toy_runtime) default_config_path
           (World (pack_with_config 1) []) [("dir", JString "pack")]).
  - exists (os.RFile [x20] NoFault 0), [x20], (os.RFile [] NoFault 1). repeat split.
  - discriminate.
  - reflexivity.
Defined.

Lemma unknown_keys_ignored_witness :
  generate (RT := toy_runtime)
    (JObject [("comment", JString "for the server"); ("dir", JString "pack");
              ("base_url", JString "http://example.com/pack");
              ("mc_version", JString "1.20.1")])
    (World pack_fs []) =
  generate (RT := toy_runtime) pack_config (World pack_fs []).
Proof.
  apply (unknown_keys_ignored (RT := toy_runtime)
           [("comment", JString "for the server"); ("dir", JString "pack");
            ("base_url", JString "http://example.com/pack");
            ("mc_version", JString "1.20.1")]
           [("dir", JString "pack");
            ("base_url", JString "http://example.com/pack");
            ("mc_version", JString "1.20.1")]
           (World pack_fs [])).
  intros key Hkey. cbn [known_keys In] in Hkey.
  destruct Hkey as [<- | [<- | [<- | [<- | [<- | [<- | [<- | []]]]]]]]; reflexivity.
Defined.

(** ** What a run of [generate] prints *)

Section Output.

Context {RT : Runtime}.

Lemma finish_stdout (items : list (str * json)) (dir : str) (mc_version : json)
  (files : list json) (w w' : world) :
  finish items (JString dir) mc_version files w = (Ok tt, w') ->
  stdout w' =
  stdout w ++
  [newline :: "Found " ++ decimal (Z.of_nat (length files)) ++ " file(s)" ++ [newline];
   "manifest.json saved to: " ++ os.path.join dir "manifest.json";
   "Done!"].
Proof.
  unfold finish, bind, print, as_path, ret, act. cbn [fs stdout].
  destruct (os.makedirs (fs w) dir) as [f1 | e | code |]; try discriminate.
  cbn [fs stdout].
  match goal with
  | |- context [os.write_file f1 ?out ?data] =>
      destruct (os.write_file f1 out data) as [f2 | e | code |]
  end; try discriminate.
  cbn [fs stdout]. intros E. injection E as <-. cbn [stdout].
  rewrite <- !app_assoc. reflexivity.
Qed.

(** X22. A run of [generate] that returns has printed, after what was
    printed before: the heading, one line for each record of the scan,
    the line [Found n file(s)] where [n] is the number of records the
    manifest lists, the line that names the path of the manifest, and
    [Done!]. *)
Theorem generate_prints (config : json) (w w' : world) :
  generate config w = (Ok tt, w') ->
  exists items dir base_url mc_version files lines,
    config = JObject items /\
    assoc "dir" items = Some (JString dir) /\
    assoc "base_url" items = Some base_url /\
    assoc "mc_version" items = Some mc_version /\
    fst (scan_files (JString dir) base_url w) = Ok files /\
    length lines = length files /\
    stdout w' =
      stdout w ++ header items (JString dir) base_url mc_version ++ lines ++
      [newline :: "Found " ++ decimal (Z.of_nat (length files)) ++ " file(s)" ++ [newline];
       "manifest.json saved to: " ++ os.path.join dir "manifest.json";
       "Done!"].
Proof.
  intros E.
  destruct (generate_ok_manifest config w w' E)
    as (items & dir & base_url & mc_version & files0 & -> & Hdir & Hurl & Hmc & _ & _).
  rewrite (generate_unfold items _ _ _ w Hdir Hurl Hmc) in E.
  apply bind_ok in E. destruct E as (files & w1 & Escan & Efin).
  rewrite scan_files_visits in Escan. cbn [fs stdout] in Escan.
  destruct (visits (fs w) dir base_url (scanned (fs w) dir) []) as [out lines] eqn:Ev.
  cbn [fst snd] in Escan. injection Escan as -> <-.
  exists items, dir, base_url, mc_version, files, lines.
  split; [reflexivity |]. split; [exact Hdir |]. split; [exact Hurl |].
  split; [exact Hmc |]. split; [| split].
  - rewrite scan_files_visits, Ev. reflexivity.
  - apply visits_lines in Ev. cbn [length Nat.add] in Ev. symmetry. exact Ev.
  - rewrite (finish_stdout _ _ _ _ _ _ Efin). cbn [stdout].
    rewrite <- !app_assoc. reflexivity.
Qed.

End Output.

Lemma generate_prints_witness :
  exists items dir base_url mc_version files lines,
    pack_config = JObject items /\
    assoc "dir" items = Some (JString dir) /\
    assoc "base_url" items = Some base_url /\
    assoc "mc_version" items = Some mc_version /\
    fst (scan_files (JString dir) base_url (World pack_fs [])) = Ok files /\
    length lines = length files /\
    stdout (snd (generate (RT := toy_runtime) pack_config (World pack_fs []))) =
      [] ++ header (RT := toy_runtime) items (JString dir) base_url mc_version ++ lines ++
      [newline :: "Found " ++ decimal (Z.of_nat (length files)) ++ " file(s)" ++ [newline];
       "manifest.json saved to: " ++ os.path.join dir "manifest.json";
       "Done!"].
Proof.
  apply (generate_prints (RT := toy_runtime) pack_config (World pack_fs [])
           (snd (generate (RT := toy_runtime) pack_config (World pack_fs [])))).
  vm_compute. reflexivity.
Defined.
